(** * Pixel canvas and chat backend: a shallow embedding and its properties

    The repository holds several generations of the same five entry points
    (getCanvas, getMessages, onPixelUpdate, onChatMessages, clearData).
    Every generation that a property below speaks about is embedded in a
    module of its own, named after the source file it comes from.

    Modelling conventions.
    - Go [int] is the 64-bit signed integer; values are carried in [Z] and
      the conversions that can lose information are written out.
    - Go [string] and [[]byte] are byte sequences: [string] here is the
      standard library's string of 8-bit characters, raw buffers are
      [list byte].
    - encoding/json is a library: a JSON text is represented by its parsed
      value ([json]); a byte string that is no JSON text is [Garbled].
      Number literals with a fraction or an exponent are outside the model.
      Go coerces strings to valid UTF-8 on both Marshal and Unmarshal, which
      is the identity on valid text; strings are kept as they are.
    - The key-value database is an external collaborator: a finite map with
      explicit fault switches for open, list, get, put and delete. Listing
      under a prefix yields the keys that start with it, in an order the
      store chooses.
    - An entry point is handed an event of the kind it expects; the exits
      for a wrong kind of event ([e.HTTP()], [e.PubSub()], [channel.Data()])
      are not modelled. Logging is not modelled. *)

From Stdlib Require Import ZArith NArith Lia Strings.Ascii Strings.String Strings.Byte.
From stdpp Require Import base option list gmap strings sorting.

(** ** Outcomes of fallible code *)

(** [Ok a]: the code went on with [a]; [Fail]: the code took one of its
    error exits ([return 1], [err != nil]); [Panic]: the Go runtime stopped
    the handler (index or slice bounds out of range). *)
Inductive res (A : Type) : Type :=
  | Ok (a : A)
  | Fail
  | Panic.
Arguments Ok {A} a.
Arguments Fail {A}.
Arguments Panic {A}.

#[global] Instance res_ret : MRet res := λ A a, Ok a.
#[global] Instance res_bind : MBind res := λ A B k m,
  match m with
  | Ok a => k a
  | Fail => Fail
  | Panic => Panic
  end.

Definition int64_min : Z := (- 2 ^ 63)%Z.
Definition int64_max : Z := (2 ^ 63 - 1)%Z.
Definition fits_int64 (z : Z) : bool :=
  ((int64_min <=? z) && (z <=? int64_max))%Z.

(** ** Strings *)

Module Str.

(** [s[n:]] for [n <= len(s)]; the callers below only slice after
    checking the length. *)
Fixpoint drop (n : nat) (s : string) : string :=
  match n, s with
  | O, _ => s
  | S n', String _ s' => drop n' s'
  | S _, EmptyString => EmptyString
  end.

(** strings.HasPrefix, which is what listing under a prefix selects. *)
Fixpoint has_prefix (p s : string) : bool :=
  match p, s with
  | EmptyString, _ => true
  | String a p', String b s' => if Ascii.eqb a b then has_prefix p' s' else false
  | String _ _, EmptyString => false
  end.

Fixpoint contains (c : ascii) (s : string) : bool :=
  match s with
  | EmptyString => false
  | String a s' => if Ascii.eqb a c then true else contains c s'
  end.

Definition of_bytes (l : list byte) : string := string_of_list_byte l.

End Str.

(** ** fmt: the verbs the handlers use *)

Module Fmt.

Definition digit_char (d : N) : ascii := ascii_of_N (48 + d).

Definition digit_val (c : ascii) : option N :=
  let n := N_of_ascii c in
  if ((48 <=? n) && (n <=? 57))%N then Some (n - 48)%N else None.

(** Decimal digits of [n], most significant first, in front of [acc]. *)
Fixpoint dec_digits (fuel : nat) (n : N) (acc : string) : string :=
  let acc' := String (digit_char (n mod 10)) acc in
  match fuel with
  | O => acc'
  | S f => if (n <? 10)%N then acc' else dec_digits f (n / 10) acc'
  end.

Definition dec_N (n : N) : string :=
  dec_digits (N.to_nat (N.log2 n)) n EmptyString.

(** The verb [%d] on an [int]. *)
Definition d (z : Z) : string :=
  match z with
  | Z0 => "0"
  | Zpos p => dec_N (Npos p)
  | Zneg p => String "-"%char (dec_N (Npos p))
  end.

Definition hex_char (d : N) : ascii :=
  if (d <? 10)%N then ascii_of_N (48 + d) else ascii_of_N (87 + d).

Fixpoint hex_digits (fuel : nat) (n : N) (acc : string) : string :=
  let acc' := String (hex_char (n mod 16)) acc in
  match fuel with
  | O => acc'
  | S f => if (n <? 16)%N then acc' else hex_digits f (n / 16) acc'
  end.

Definition hex_N (n : N) : string :=
  hex_digits (N.to_nat (N.log2 n)) n EmptyString.

Fixpoint zeros (k : nat) (s : string) : string :=
  match k with
  | O => s
  | S k' => String "0"%char (zeros k' s)
  end.

(** The verb [%06x] on an unsigned value: lowercase hexadecimal, padded
    with zeros on the left to six characters, never truncated. *)
Definition x06 (v : Z) : string :=
  let s := hex_N (Z.to_N v) in
  zeros (6 - String.length s) s.

(** [fmt.Sprintf("/%s/", room)] *)
Definition roomPrefix (room : string) : string :=
  "/" +:+ room +:+ "/".

(** [fmt.Sprintf("/%s/%d:%d", room, x, y)] *)
Definition pixelKey (room : string) (x y : Z) : string :=
  "/" +:+ room +:+ "/" +:+ d x +:+ ":" +:+ d y.

(** [fmt.Sprintf("/%s/%s", room, id)] *)
Definition chatKey (room id : string) : string :=
  "/" +:+ room +:+ "/" +:+ id.

(** [fmt.Sprintf("/%s/%d", room, timestamp)] *)
Definition chatKeyByTime (room : string) (ts : Z) : string :=
  "/" +:+ room +:+ "/" +:+ d ts.

(** *** Scanning: [fmt.Sscanf(s, "%d:%d", &x, &y)] *)

(** SkipSpace before a verb: blanks are dropped, a newline is an error. *)
Definition is_blank (c : ascii) : bool :=
  let n := N_of_ascii c in
  ((n =? 9) || (n =? 11) || (n =? 12) || (n =? 13) || (n =? 32))%N.

Fixpoint skip_space (s : string) : option string :=
  match s with
  | EmptyString => Some EmptyString
  | String c s' =>
      if (N_of_ascii c =? 10)%N then None
      else if is_blank c then skip_space s'
      else Some s
  end.

(** The run of decimal digits at the head of [s], as a number. *)
Fixpoint scan_digits (acc : N) (s : string) : N * string :=
  match s with
  | EmptyString => (acc, EmptyString)
  | String c s' =>
      match digit_val c with
      | Some v => scan_digits (10 * acc + v) s'
      | None => (acc, s)
      end
  end.

Definition starts_with_digit (s : string) : bool :=
  match s with
  | String c _ => bool_decide (is_Some (digit_val c))
  | EmptyString => false
  end.

(** One [%d]: optional sign, at least one digit, the value must fit the
    64-bit [int]. Returns the value and the unread input. *)
Definition scan_int (s : string) : option (Z * string) :=
  s1 ← skip_space s;
  let '(neg, s2) :=
    match s1 with
    | String "-"%char r => (true, r)
    | String "+"%char r => (false, r)
    | _ => (false, s1)
    end in
  if starts_with_digit s2 then
    let '(n, rest) := scan_digits 0 s2 in
    let z := if neg then (- Z.of_N n)%Z else Z.of_N n in
    if fits_int64 z then Some (z, rest) else None
  else None.

(** Both operands stored and no error: [n == 2 && err == nil]. Input left
    over after the second number is not an error. *)
Definition Sscanf_d_colon_d (s : string) : option (Z * Z) :=
  '(x, s1) ← scan_int s;
  match s1 with
  | String ":"%char s2 =>
      '(y, _) ← scan_int s2;
      Some (x, y)
  | _ => None
  end.

End Fmt.

(** ** types.go *)

Record Pixel : Type := mkPixel {
  X : Z;
  Y : Z;
  Color : string;
  UserID : string;
  Username : string
}.

(** The chat record's [UserID] and [Username] fields share their names with
    the pixel's; here they carry the prefix [Msg]. *)
Record ChatMessage : Type := mkChatMessage {
  ID : string;
  MsgUserID : string;
  MsgUsername : string;
  Message : string;
  Timestamp : Z
}.

Definition CanvasWidth : Z := 90.
Definition CanvasHeight : Z := 90.

Definition zeroPixel : Pixel := mkPixel 0 0 "" "" "".
Definition zeroChatMessage : ChatMessage := mkChatMessage "" "" "" "" 0.

#[global] Instance Pixel_eq_dec : EqDecision Pixel.
Proof. solve_decision. Defined.
#[global] Instance ChatMessage_eq_dec : EqDecision ChatMessage.
Proof. solve_decision. Defined.

(** The guard every hardened generation writes out:
    [x >= 0 && x < CanvasWidth && y >= 0 && y < CanvasHeight]. *)
Definition inBounds (x y : Z) : bool :=
  ((0 <=? x) && (x <? CanvasWidth) && (0 <=? y) && (y <? CanvasHeight))%Z.

(** ** encoding/json *)

#[warnings="-register-all"]
Inductive json : Type :=
  | JNull
  | JBool (b : bool)
  | JInt (z : Z)
  | JStr (s : string)
  | JArr (items : list json)
  | JObj (members : list (string * json)).

(** What a [[]byte] holds as far as json.Unmarshal is concerned. *)
Inductive doc : Type :=
  | Json (j : json)
  | Garbled (raw : string).

Definition doc_len_is_zero (dv : doc) : bool :=
  match dv with
  | Garbled EmptyString => true
  | _ => false
  end.

Module JSON.

Definition lower (c : ascii) : ascii :=
  let n := N_of_ascii c in
  if ((65 <=? n) && (n <=? 90))%N then ascii_of_N (n + 32) else c.

Fixpoint lower_string (s : string) : string :=
  match s with
  | EmptyString => EmptyString
  | String c s' => String (lower c) (lower_string s')
  end.

(** A member key selects the field whose tag it equals, letter case
    ignored. *)
Definition names (key tag : string) : bool :=
  String.eqb (lower_string key) (lower_string tag).

(** Scalars. [null] leaves the destination as it is. *)
Definition into_int (cur : Z) (v : json) : res Z :=
  match v with
  | JNull => Ok cur
  | JInt z => if fits_int64 z then Ok z else Fail
  | _ => Fail
  end.

Definition into_string (cur : string) (v : json) : res string :=
  match v with
  | JNull => Ok cur
  | JStr s => Ok s
  | _ => Fail
  end.

(** The members of an object are applied in the order they are written;
    a later member overrides an earlier one. *)
Fixpoint members {A} (field : A → string → json → res A) (a : A)
    (ms : list (string * json)) : res A :=
  match ms with
  | [] => Ok a
  | (k, v) :: ms' => a' ← field a k v; members field a' ms'
  end.

Definition into_struct {A} (field : A → string → json → res A) (a : A)
    (v : json) : res A :=
  match v with
  | JNull => Ok a
  | JObj ms => members field a ms
  | _ => Fail
  end.

Fixpoint elements {A} (elem : json → res A) (items : list json) : res (list A) :=
  match items with
  | [] => Ok []
  | v :: items' => a ← elem v; l ← elements elem items'; Ok (a :: l)
  end.

Definition into_slice {A} (elem : json → res A) (cur : list A) (v : json)
    : res (list A) :=
  match v with
  | JNull => Ok []
  | JArr items => elements elem items
  | _ => Fail
  end.

(** *** Pixel *)

Definition Pixel_field (p : Pixel) (k : string) (v : json) : res Pixel :=
  if names k "x" then
    z ← into_int (X p) v; Ok (mkPixel z (Y p) (Color p) (UserID p) (Username p))
  else if names k "y" then
    z ← into_int (Y p) v; Ok (mkPixel (X p) z (Color p) (UserID p) (Username p))
  else if names k "color" then
    s ← into_string (Color p) v; Ok (mkPixel (X p) (Y p) s (UserID p) (Username p))
  else if names k "userId" then
    s ← into_string (UserID p) v; Ok (mkPixel (X p) (Y p) (Color p) s (Username p))
  else if names k "username" then
    s ← into_string (Username p) v; Ok (mkPixel (X p) (Y p) (Color p) (UserID p) s)
  else Ok p.

Definition into_Pixel (v : json) : res Pixel :=
  into_struct Pixel_field zeroPixel v.

(** [json.Unmarshal(data, &pixel)] with [var pixel Pixel]. *)
Definition Unmarshal_Pixel (data : doc) : res Pixel :=
  match data with
  | Json v => into_Pixel v
  | Garbled _ => Fail
  end.

(** [json.Unmarshal(data, &pixels)] with [var pixels []Pixel]. *)
Definition Unmarshal_Pixels (data : doc) : res (list Pixel) :=
  match data with
  | Json v => into_slice into_Pixel [] v
  | Garbled _ => Fail
  end.

(** [json.Marshal(pixel)]; it has no error case for this struct. *)
Definition Marshal_Pixel (p : Pixel) : doc :=
  Json (JObj [("x", JInt (X p)); ("y", JInt (Y p)); ("color", JStr (Color p));
              ("userId", JStr (UserID p)); ("username", JStr (Username p))]).

(** *** ChatMessage *)

Definition ChatMessage_field (m : ChatMessage) (k : string) (v : json)
    : res ChatMessage :=
  if names k "messageId" then
    s ← into_string (ID m) v;
    Ok (mkChatMessage s (MsgUserID m) (MsgUsername m) (Message m) (Timestamp m))
  else if names k "userId" then
    s ← into_string (MsgUserID m) v;
    Ok (mkChatMessage (ID m) s (MsgUsername m) (Message m) (Timestamp m))
  else if names k "username" then
    s ← into_string (MsgUsername m) v;
    Ok (mkChatMessage (ID m) (MsgUserID m) s (Message m) (Timestamp m))
  else if names k "message" then
    s ← into_string (Message m) v;
    Ok (mkChatMessage (ID m) (MsgUserID m) (MsgUsername m) s (Timestamp m))
  else if names k "timestamp" then
    z ← into_int (Timestamp m) v;
    Ok (mkChatMessage (ID m) (MsgUserID m) (MsgUsername m) (Message m) z)
  else Ok m.

(** [json.Unmarshal(data, &message)] with [var message ChatMessage]. *)
Definition Unmarshal_ChatMessage (data : doc) : res ChatMessage :=
  match data with
  | Json v => into_struct ChatMessage_field zeroChatMessage v
  | Garbled _ => Fail
  end.

(** [json.Marshal(chatMessage)] *)
Definition Marshal_ChatMessage (m : ChatMessage) : doc :=
  Json (JObj [("messageId", JStr (ID m)); ("userId", JStr (MsgUserID m));
              ("username", JStr (MsgUsername m)); ("message", JStr (Message m));
              ("timestamp", JInt (Timestamp m))]).

(** *** The batch envelope of onPixelUpdate *)

Record PixelBatch : Type := mkPixelBatch {
  Pixels : list Pixel;
  Room : string;
  BatchTimestamp : Z;
  BatchId : string;
  SourceId : string
}.

Definition zeroPixelBatch : PixelBatch := mkPixelBatch [] "" 0 "" "".

Definition PixelBatch_field (b : PixelBatch) (k : string) (v : json)
    : res PixelBatch :=
  if names k "pixels" then
    l ← into_slice into_Pixel (Pixels b) v;
    Ok (mkPixelBatch l (Room b) (BatchTimestamp b) (BatchId b) (SourceId b))
  else if names k "room" then
    s ← into_string (Room b) v;
    Ok (mkPixelBatch (Pixels b) s (BatchTimestamp b) (BatchId b) (SourceId b))
  else if names k "timestamp" then
    z ← into_int (BatchTimestamp b) v;
    Ok (mkPixelBatch (Pixels b) (Room b) z (BatchId b) (SourceId b))
  else if names k "batchId" then
    s ← into_string (BatchId b) v;
    Ok (mkPixelBatch (Pixels b) (Room b) (BatchTimestamp b) s (SourceId b))
  else if names k "sourceId" then
    s ← into_string (SourceId b) v;
    Ok (mkPixelBatch (Pixels b) (Room b) (BatchTimestamp b) (BatchId b) s)
  else Ok b.

Definition Unmarshal_PixelBatch (data : doc) : res PixelBatch :=
  match data with
  | Json v => into_struct PixelBatch_field zeroPixelBatch v
  | Garbled _ => Fail
  end.

(** *** The envelope of onChatMessages: the embedded ChatMessage with
    [room] and [sourceId] beside it *)

Record ChatEnvelope : Type := mkChatEnvelope {
  Msg : ChatMessage;
  MsgRoom : string;
  MsgSourceId : string
}.

Definition zeroChatEnvelope : ChatEnvelope := mkChatEnvelope zeroChatMessage "" "".

Definition ChatEnvelope_field (e : ChatEnvelope) (k : string) (v : json)
    : res ChatEnvelope :=
  if names k "room" then
    s ← into_string (MsgRoom e) v; Ok (mkChatEnvelope (Msg e) s (MsgSourceId e))
  else if names k "sourceId" then
    s ← into_string (MsgSourceId e) v; Ok (mkChatEnvelope (Msg e) (MsgRoom e) s)
  else
    m ← ChatMessage_field (Msg e) k v; Ok (mkChatEnvelope m (MsgRoom e) (MsgSourceId e)).

Definition Unmarshal_ChatEnvelope (data : doc) : res ChatEnvelope :=
  match data with
  | Json v => into_struct ChatEnvelope_field zeroChatEnvelope v
  | Garbled _ => Fail
  end.

(** *** The compressed envelope: [p] is [[][]interface{}] *)

(** A number decoded into [interface{}] is a float64. For an integer
    literal that is the nearest double, ties to even; a literal too large
    for a double is a decoding error. *)
Definition float64_of_int_literal (z : Z) : res Z :=
  let a := Z.abs z in
  if (a <? 2 ^ 53)%Z then Ok z
  else
    let e := (Z.log2 a - 52)%Z in
    let q := (a / 2 ^ e)%Z in
    let r := (a mod 2 ^ e)%Z in
    let h := (2 ^ (e - 1))%Z in
    let q' := if ((h <? r) || ((r =? h) && Z.odd q))%Z then (q + 1)%Z else q in
    let f := (Z.sgn z * (q' * 2 ^ e))%Z in
    if (Z.abs f <? 2 ^ 1024)%Z then Ok f else Fail.

(** [int(x)] on a float64 holding an integer. Outside the range of [int]
    the language leaves the result to the implementation; the value the
    amd64 conversion gives is used. *)
Definition int_of_float64 (f : Z) : Z :=
  if fits_int64 f then f else int64_min.

(** The dynamic values of [interface{}] after decoding. *)
Inductive any : Type :=
  | AnyNil
  | AnyBool (b : bool)
  | AnyFloat64 (f : Z)
  | AnyString (s : string)
  | AnyOther (v : json).

Definition into_any (v : json) : res any :=
  match v with
  | JNull => Ok AnyNil
  | JBool b => Ok (AnyBool b)
  | JInt z => f ← float64_of_int_literal z; Ok (AnyFloat64 f)
  | JStr s => Ok (AnyString s)
  | JArr _ | JObj _ => Ok (AnyOther v)
  end.

Record CompressedBatch : Type := mkCompressedBatch {
  P : list (list any);
  R : string;
  T : Z;
  B : string;
  S : string
}.

Definition zeroCompressedBatch : CompressedBatch := mkCompressedBatch [] "" 0 "" "".

Definition CompressedBatch_field (c : CompressedBatch) (k : string) (v : json)
    : res CompressedBatch :=
  if names k "p" then
    l ← into_slice (into_slice into_any []) (P c) v;
    Ok (mkCompressedBatch l (R c) (T c) (B c) (S c))
  else if names k "r" then
    s ← into_string (R c) v; Ok (mkCompressedBatch (P c) s (T c) (B c) (S c))
  else if names k "t" then
    z ← into_int (T c) v; Ok (mkCompressedBatch (P c) (R c) z (B c) (S c))
  else if names k "b" then
    s ← into_string (B c) v; Ok (mkCompressedBatch (P c) (R c) (T c) s (S c))
  else if names k "s" then
    s ← into_string (S c) v; Ok (mkCompressedBatch (P c) (R c) (T c) (B c) s)
  else Ok c.

Definition Unmarshal_CompressedBatch (data : doc) : res CompressedBatch :=
  match data with
  | Json v => into_struct CompressedBatch_field zeroCompressedBatch v
  | Garbled _ => Fail
  end.

End JSON.

(** ** The key-value database of the SDK *)

Record Faults : Type := mkFaults {
  open_err : bool;
  list_err : bool;
  get_err : string → bool;
  put_err : string → bool;
  delete_err : string → bool
}.

Definition noFaults : Faults :=
  mkFaults false false (λ _, false) (λ _, false) (λ _, false).

Record Database : Type := mkDatabase {
  kv : gmap string doc;
  faults : Faults
}.

Module DB.

Definition empty : Database := mkDatabase ∅ noFaults.

(** The keys that start with [prefix], in the order the store lists
    them. *)
Definition keys_under (prefix : string) (m : gmap string doc) : list string :=
  filter (λ k, Str.has_prefix prefix k = true) (map_to_list m).*1.

Definition List (db : Database) (prefix : string) : res (list string) :=
  if list_err (faults db) then Fail else Ok (keys_under prefix (kv db)).

Definition Get (db : Database) (key : string) : res doc :=
  if get_err (faults db) key then Fail
  else match kv db !! key with
       | Some v => Ok v
       | None => Fail
       end.

(** [Put] and [Delete] return the store afterwards and whether the call
    reported an error. *)
Definition Put (db : Database) (key : string) (v : doc) : Database * bool :=
  if put_err (faults db) key then (db, true)
  else (mkDatabase (<[key := v]> (kv db)) (faults db), false).

Definition Delete (db : Database) (key : string) : Database * bool :=
  if delete_err (faults db) key then (db, true)
  else (mkDatabase (delete key (kv db)) (faults db), false).

End DB.

(** The process: the two databases, and the flag of the connection pool
    ([dbInit] of the pooled generations). *)
Record World : Type := mkWorld {
  canvasDB : Database;
  chatDB : Database;
  dbInit : bool
}.

Definition emptyWorld : World := mkWorld DB.empty DB.empty false.

(** What a subscription handler leaves behind: the status it returns to the
    dispatcher and the process afterwards, or a runtime panic. *)
Inductive outcome : Type :=
  | Done (status : Z) (w : World)
  | Crashed.

(** What a query handler leaves behind: additionally the HTTP reply. *)
Inductive body : Type :=
  | BodyText (s : string)
  | BodyCanvas (canvas : list (list string))
  | BodyMessages (messages : list ChatMessage).

Inductive reply : Type :=
  | Replied (status : Z) (code : Z) (b : body) (w : World)
  | ReplyCrashed.

(** [for _, a := range l { s = body(s, a) }] with a body that can stop the
    handler. *)
Fixpoint range {A St : Type} (step : St → A → res St) (s : St) (l : list A) : res St :=
  match l with
  | [] => Ok s
  | a :: l' => s' ← step s a; range step s' l'
  end.

(** ** The canvas grid *)

Module Grid.

Definition blank : list (list string) :=
  replicate (Z.to_nat CanvasHeight) (replicate (Z.to_nat CanvasWidth) "#ffffff").

(** [canvas[y][x] = c], with the index checks of the runtime. *)
Definition set (g : list (list string)) (x y : Z) (c : string)
    : res (list (list string)) :=
  if ((0 <=? y) && (y <? Z.of_nat (length g)))%Z then
    match g !! Z.to_nat y with
    | Some row =>
        if ((0 <=? x) && (x <? Z.of_nat (length row)))%Z
        then Ok (<[Z.to_nat y := <[Z.to_nat x := c]> row]> g)
        else Panic
    | None => Panic
    end
  else Panic.

Definition cell (g : list (list string)) (x y : nat) : option string :=
  row ← g !! y; row !! x.

Definition complete (g : list (list string)) : Prop :=
  length g = Z.to_nat CanvasHeight
  ∧ Forall (λ row, length row = Z.to_nat CanvasWidth) g.

End Grid.

(** ** Reading raw buffers *)

Module Bytes.

Definition val (b : byte) : Z := Z.of_N (Byte.to_N b).

Definition len (data : list byte) : Z := Z.of_nat (length data).

(** [data[i]] *)
Definition at_ (data : list byte) (i : Z) : res Z :=
  if (0 <=? i)%Z then
    match data !! Z.to_nat i with
    | Some b => Ok (val b)
    | None => Panic
    end
  else Panic.

(** [data[a:b]] *)
Definition slice (data : list byte) (a b : Z) : res (list byte) :=
  if ((0 <=? a) && (a <=? b) && (b <=? len data))%Z
  then Ok (take (Z.to_nat (b - a)) (drop (Z.to_nat a) data))
  else Panic.

Definition wrap16 (z : Z) : Z := (z mod 2 ^ 16)%Z.
Definition wrap32 (z : Z) : Z := (z mod 2 ^ 32)%Z.

(** [uint16(data[o]) | uint16(data[o+1])<<8] *)
Definition le16 (data : list byte) (o : Z) : res Z :=
  b0 ← at_ data o;
  b1 ← at_ data (o + 1);
  Ok (Z.lor b0 (wrap16 (Z.shiftl b1 8))).

(** [uint32(data[o]) | uint32(data[o+1])<<8 | uint32(data[o+2])<<16 |
    uint32(data[o+3])<<24] *)
Definition le32 (data : list byte) (o : Z) : res Z :=
  b0 ← at_ data o;
  b1 ← at_ data (o + 1);
  b2 ← at_ data (o + 2);
  b3 ← at_ data (o + 3);
  Ok (Z.lor (Z.lor (Z.lor b0 (wrap32 (Z.shiftl b1 8))) (wrap32 (Z.shiftl b2 16)))
            (wrap32 (Z.shiftl b3 24))).

End Bytes.

(** ** The connection pool (the file with [initDatabases]) *)

Module Pool.

(** [initDatabases]: both databases are opened, canvas first; the flag is
    set only when both opened. *)
Definition initDatabases (w : World) : World * Z :=
  if dbInit w then (w, 0%Z)
  else if open_err (faults (canvasDB w)) then (w, 1%Z)
  else if open_err (faults (chatDB w)) then (w, 1%Z)
  else (mkWorld (canvasDB w) (chatDB w) true, 0%Z).

(** [getCanvasDB] and [getChatDB] hand out the pooled handle; which
    database it is, is fixed by the caller. *)
Definition getDB (w : World) : World * Z :=
  if negb (dbInit w) then
    let '(w', rc) := initDatabases w in
    if (rc =? 0)%Z then (w', 0%Z) else (w', 1%Z)
  else (w, 0%Z).

Definition getCanvasDB := getDB.
Definition getChatDB := getDB.

End Pool.

(** ** What the generations share, word for word *)

Module Common.

(** [sendJSONResponse]: json.Marshal of a grid or of a message list has no
    error case. *)
Definition sendJSONResponse (b : body) (w : World) : reply :=
  Replied 0 200 b w.

(** The text of an SDK error ([err.Error()]) is the SDK's. *)
Definition sdkErrorText : string := "error".

(** One pixel saved:
    [pixelData, err := json.Marshal(pixel);
     key := fmt.Sprintf("/%s/%d:%d", room, pixel.X, pixel.Y); db.Put(key, pixelData)].
    An error of [Put] is ignored or only logged. *)
Definition savePixel (room : string) (db : Database) (pixel : Pixel) : Database :=
  (DB.Put db (Fmt.pixelKey room (X pixel) (Y pixel)) (JSON.Marshal_Pixel pixel)).1.

(** The validation loop of the pooled generations:
    [if pixel.X >= 0 && ... { validPixels = append(validPixels, pixel) }] *)
Definition validPixels (pixels : list Pixel) : list Pixel :=
  filter (λ pixel, inBounds (X pixel) (Y pixel) = true) pixels.

(** [for _, pixel := range validPixels { ... db.Put(key, pixelData) ... }] *)
Definition savePixels (room : string) (db : Database) (pixels : list Pixel)
    : Database :=
  foldl (savePixel room) db pixels.

Definition withCanvas (w : World) (db : Database) : World :=
  mkWorld db (chatDB w) (dbInit w).

Definition withChat (w : World) (db : Database) : World :=
  mkWorld (canvasDB w) db (dbInit w).

(** [for _, key := range keys { db.Delete(key) }], errors ignored. *)
Definition deleteAll (db : Database) (keys : list string) : Database :=
  foldl (λ db key, (DB.Delete db key).1) db keys.

(** [keys, err := db.List(fmt.Sprintf("/%s/", room));
     if err == nil && len(keys) > 0 { ... }] *)
Definition clearIn (db : Database) (room : string) : Database :=
  match DB.List db (Fmt.roomPrefix room) with
  | Ok keys => deleteAll db keys
  | _ => db
  end.

(** [getRoomParam]: the query parameter, "default" when it is absent. *)
Definition getRoomParam (room : option string) : string :=
  default "default" room.

(** clearData, the same text in every file that has it. [room] is the
    optional query parameter, [dataType] the [type] parameter. *)
Definition clearData (room : option string) (dataType : option string) (w : World)
    : reply :=
  let room := getRoomParam room in
  match dataType with
  | None => Replied 1 400 (BodyText "type parameter required (canvas or chat)") w
  | Some ty =>
      if String.eqb ty "canvas" then
        if open_err (faults (canvasDB w)) then Replied 1 500 (BodyText sdkErrorText) w
        else Replied 0 200 (BodyText "Canvas cleared")
               (withCanvas w (clearIn (canvasDB w) room))
      else if String.eqb ty "chat" then
        if open_err (faults (chatDB w)) then Replied 1 500 (BodyText sdkErrorText) w
        else Replied 0 200 (BodyText "Chat cleared")
               (withChat w (clearIn (chatDB w) room))
      else Replied 1 400 (BodyText "type must be 'canvas' or 'chat'") w
  end.

End Common.

(** ** src/utils.go *)

Module Utils.

(** [handleHTTPError(h, err, code)]: the text of the error is the body, the
    code goes to the client and 1 to the dispatcher. *)
Definition handleHTTPError (err : string) (code : Z) (w : World) : reply :=
  Replied 1 code (BodyText err) w.

(** [getRoomParamRequired]: the room, or the reply that reports the missing
    parameter. *)
Definition getRoomParamRequired (room : option string) (w : World)
    : string + reply :=
  match room with
  | Some room => inl room
  | None => inr (Replied 1 400 (BodyText Common.sdkErrorText) w)
  end.

End Utils.

(** ** src/unnamed/part_003: the monolith with bounds checks *)

Module Part003.

(** The body of [for _, key := range keys] in getCanvas. *)
Definition overlay (db : Database) (roomPrefix : string)
    (canvas : list (list string)) (key : string) : res (list (list string)) :=
  if (String.length key <=? String.length roomPrefix)%nat then Ok canvas
  else
    let coordPart := Str.drop (String.length roomPrefix) key in
    match Fmt.Sscanf_d_colon_d coordPart with
    | Some (x, y) =>
        if inBounds x y then
          match DB.Get db key with
          | Ok pixelData =>
              if negb (doc_len_is_zero pixelData) then
                match JSON.Unmarshal_Pixel pixelData with
                | Ok pixel => Grid.set canvas x y (Color pixel)
                | _ => Ok canvas
                end
              else Ok canvas
          | _ => Ok canvas
          end
        else Ok canvas
    | None => Ok canvas
    end.

Definition getCanvas (room : option string) (w : World) : reply :=
  match room with
  | None => Replied 1 400 (BodyText Common.sdkErrorText) w
  | Some room =>
      let canvas := Grid.blank in
      let db := canvasDB w in
      if open_err (faults db) then Common.sendJSONResponse (BodyCanvas canvas) w
      else
        let roomPrefix := Fmt.roomPrefix room in
        match DB.List db roomPrefix with
        | Ok keys =>
            match range (overlay db roomPrefix) canvas keys with
            | Ok canvas' => Common.sendJSONResponse (BodyCanvas canvas') w
            | _ => ReplyCrashed
            end
        | _ => Common.sendJSONResponse (BodyCanvas canvas) w
        end
  end.

(** The body of [for _, pixel := range pixelBatch.Pixels]. *)
Definition savePixelChecked (room : string) (db : Database) (pixel : Pixel)
    : Database :=
  if inBounds (X pixel) (Y pixel) then Common.savePixel room db pixel else db.

Definition onPixelUpdate (data : doc) (w : World) : outcome :=
  match JSON.Unmarshal_PixelBatch data with
  | Ok pixelBatch =>
      let room := if String.eqb (JSON.Room pixelBatch) "" then "default"
                  else JSON.Room pixelBatch in
      if open_err (faults (canvasDB w)) then Done 1 w
      else
        Done 0 (Common.withCanvas w
                  (foldl (savePixelChecked room) (canvasDB w)
                     (JSON.Pixels pixelBatch)))
  | _ => Done 1 w
  end.

Definition onChatMessages (data : doc) (w : World) : outcome :=
  match JSON.Unmarshal_ChatEnvelope data with
  | Ok message =>
      let room := if String.eqb (JSON.MsgRoom message) "" then "default"
                  else JSON.MsgRoom message in
      if open_err (faults (chatDB w)) then Done 1 w
      else
        let key := Fmt.chatKey room (ID (JSON.Msg message)) in
        Done 0 (Common.withChat w
                  (DB.Put (chatDB w) key (JSON.Marshal_ChatMessage (JSON.Msg message))).1)
  | _ => Done 1 w
  end.

(** The body of [for _, key := range keys] in getMessages. *)
Definition collect (db : Database) (roomPrefix : string)
    (messages : list ChatMessage) (key : string) : list ChatMessage :=
  if (String.length key <=? String.length roomPrefix)%nat then messages
  else
    match DB.Get db key with
    | Ok messageData =>
        if negb (doc_len_is_zero messageData) then
          match JSON.Unmarshal_ChatMessage messageData with
          | Ok message => messages ++ [message]
          | _ => messages
          end
        else messages
    | _ => messages
    end.

(** [messages[i].Timestamp < messages[j].Timestamp] *)
Definition less (a b : ChatMessage) : bool := (Timestamp a <? Timestamp b)%Z.

Section WithSort.
(** sort.Slice, applied to the slice and its [less]. *)
Variable sort_Slice :
  (ChatMessage → ChatMessage → bool) → list ChatMessage → list ChatMessage.

Definition getMessages (room : option string) (w : World) : reply :=
  match room with
  | None => Replied 1 400 (BodyText Common.sdkErrorText) w
  | Some room =>
      let db := chatDB w in
      if open_err (faults db) then Common.sendJSONResponse (BodyMessages []) w
      else
        let roomPrefix := Fmt.roomPrefix room in
        match DB.List db roomPrefix with
        | Ok keys =>
            let messages := foldl (collect db roomPrefix) [] keys in
            Common.sendJSONResponse (BodyMessages (sort_Slice less messages)) w
        | _ => Common.sendJSONResponse (BodyMessages []) w
        end
  end.
End WithSort.

End Part003.

(** ** src/backend.go *)

Module BackendGo.

(** [handleHTTPError(h, err, 500)] *)
Definition handleHTTPError (code : Z) (w : World) : reply :=
  Replied 1 code (BodyText Common.sdkErrorText) w.

Definition overlay (db : Database) (roomPrefix : string)
    (canvas : list (list string)) (key : string) : res (list (list string)) :=
  if (String.length roomPrefix <? String.length key)%nat then
    let coordPart := Str.drop (String.length roomPrefix) key in
    match Fmt.Sscanf_d_colon_d coordPart with
    | Some (x, y) =>
        match DB.Get db key with
        | Ok pixelData =>
            match JSON.Unmarshal_Pixel pixelData with
            | Ok pixel => Grid.set canvas x y (Color pixel)
            | _ => Ok canvas
            end
        | _ => Ok canvas
        end
    | None => Ok canvas
    end
  else Ok canvas.

Definition getCanvas (room : option string) (w : World) : reply :=
  match room with
  | None => Replied 1 400 (BodyText Common.sdkErrorText) w
  | Some room =>
      let db := canvasDB w in
      if open_err (faults db) then handleHTTPError 500 w
      else
        let canvas := Grid.blank in
        let roomPrefix := Fmt.roomPrefix room in
        match DB.List db roomPrefix with
        | Ok keys =>
            match range (overlay db roomPrefix) canvas keys with
            | Ok canvas' => Common.sendJSONResponse (BodyCanvas canvas') w
            | _ => ReplyCrashed
            end
        | _ => Common.sendJSONResponse (BodyCanvas canvas) w
        end
  end.

Definition collect (db : Database) (roomPrefix : string)
    (messages : list ChatMessage) (key : string) : list ChatMessage :=
  if (String.length roomPrefix <? String.length key)%nat then
    match DB.Get db key with
    | Ok messageData =>
        match JSON.Unmarshal_ChatMessage messageData with
        | Ok message => messages ++ [message]
        | _ => messages
        end
    | _ => messages
    end
  else messages.

Definition less (a b : ChatMessage) : bool := (Timestamp a <? Timestamp b)%Z.

Section WithSort.
Variable sort_Slice :
  (ChatMessage → ChatMessage → bool) → list ChatMessage → list ChatMessage.

Definition getMessages (room : option string) (w : World) : reply :=
  match room with
  | None => Replied 1 400 (BodyText Common.sdkErrorText) w
  | Some room =>
      let db := chatDB w in
      if open_err (faults db) then handleHTTPError 500 w
      else
        let roomPrefix := Fmt.roomPrefix room in
        let messages :=
          match DB.List db roomPrefix with
          | Ok keys => foldl (collect db roomPrefix) [] keys
          | _ => []
          end in
        Common.sendJSONResponse (BodyMessages (sort_Slice less messages)) w
  end.
End WithSort.

(** No bounds check in this generation: every pixel of the batch is
    put. *)
Definition onPixelUpdate (data : doc) (w : World) : outcome :=
  match JSON.Unmarshal_PixelBatch data with
  | Ok pixelBatch =>
      let room := if String.eqb (JSON.Room pixelBatch) "" then "default"
                  else JSON.Room pixelBatch in
      if open_err (faults (canvasDB w)) then Done 1 w
      else
        Done 0 (Common.withCanvas w
                  (foldl (Common.savePixel room) (canvasDB w)
                     (JSON.Pixels pixelBatch)))
  | _ => Done 1 w
  end.

(** The key is built from the timestamp:
    [fmt.Sprintf("/%s/%d", room, message.Timestamp)]. *)
Definition onChatMessages (data : doc) (w : World) : outcome :=
  match JSON.Unmarshal_ChatEnvelope data with
  | Ok message =>
      let room := if String.eqb (JSON.MsgRoom message) "" then "default"
                  else JSON.MsgRoom message in
      if open_err (faults (chatDB w)) then Done 1 w
      else
        let key := Fmt.chatKeyByTime room (Timestamp (JSON.Msg message)) in
        Done 0 (Common.withChat w
                  (DB.Put (chatDB w) key (JSON.Marshal_ChatMessage (JSON.Msg message))).1)
  | _ => Done 1 w
  end.

End BackendGo.

(** ** src/unnamed/part_002: the monolith that opens a database per request
    and checks bounds on both sides *)

Module Part002.

(** The body of [for _, key := range keys] in getCanvas: the coordinates
    are checked before the grid is indexed. *)
Definition overlay (db : Database) (roomPrefix : string)
    (canvas : list (list string)) (key : string) : res (list (list string)) :=
  if (String.length roomPrefix <? String.length key)%nat then
    let coordPart := Str.drop (String.length roomPrefix) key in
    match Fmt.Sscanf_d_colon_d coordPart with
    | Some (x, y) =>
        if inBounds x y then
          match DB.Get db key with
          | Ok pixelData =>
              match JSON.Unmarshal_Pixel pixelData with
              | Ok pixel => Grid.set canvas x y (Color pixel)
              | _ => Ok canvas
              end
          | _ => Ok canvas
          end
        else Ok canvas
    | None => Ok canvas
    end
  else Ok canvas.

(** The part of getCanvas that follows the database handle; the pooled
    generation has the same text. *)
Definition render (db : Database) (room : string) (w : World) : reply :=
  let canvas := Grid.blank in
  let roomPrefix := Fmt.roomPrefix room in
  match DB.List db roomPrefix with
  | Ok keys =>
      match range (overlay db roomPrefix) canvas keys with
      | Ok canvas' => Common.sendJSONResponse (BodyCanvas canvas') w
      | _ => ReplyCrashed
      end
  | _ => Common.sendJSONResponse (BodyCanvas canvas) w
  end.

Definition getCanvas (room : option string) (w : World) : reply :=
  match Utils.getRoomParamRequired room w with
  | inr failed => failed
  | inl room =>
      let db := canvasDB w in
      if open_err (faults db) then Utils.handleHTTPError Common.sdkErrorText 500 w
      else render db room w
  end.

(** getMessages is the text of src/backend.go, onPixelUpdate and
    onChatMessages are the text of part_003, with logging added. *)
Definition getMessages := BackendGo.getMessages.
Definition onPixelUpdate := Part003.onPixelUpdate.
Definition onChatMessages := Part003.onChatMessages.
Definition clearData := Common.clearData.

End Part002.

(** ** src/unnamed/part_007: getCanvas on the pooled handle, and clearData *)

Module Part007.

(** getCanvas on the pooled handle: the handle is not opened again once
    the pool is initialised. *)
Definition getCanvas (room : option string) (w : World) : reply :=
  match Utils.getRoomParamRequired room w with
  | inr failed => failed
  | inl room =>
      let '(w1, dbErr) := Pool.getCanvasDB w in
      if negb (dbErr =? 0)%Z
      then Utils.handleHTTPError "database connection failed" 500 w1
      else Part002.render (canvasDB w1) room w1
  end.

Definition clearData := Common.clearData.

End Part007.

(** ** src/unnamed/part_000, first file: bare array, then the batch object *)

Module Part000_JsonArray.

(** The decoding part of onPixelUpdate: the pixels and the room. *)
Definition decode (data : doc) : res (list Pixel * string) :=
  let room := "default" in
  match JSON.Unmarshal_Pixels data with
  | Ok ((_ :: _) as pixels) => Ok (pixels, room)
  | _ =>
      pixelBatch ← JSON.Unmarshal_PixelBatch data;
      let pixels := JSON.Pixels pixelBatch in
      let room := if negb (String.eqb (JSON.Room pixelBatch) "")
                  then JSON.Room pixelBatch else room in
      Ok (pixels, room)
  end.

Definition onPixelUpdate (data : doc) (w : World) : outcome :=
  match decode data with
  | Ok (pixels, room) =>
      let '(w1, dbErr) := Pool.getCanvasDB w in
      if negb (dbErr =? 0)%Z then Done 1 w1
      else
        let validPixels := Common.validPixels pixels in
        Done 0 (Common.withCanvas w1 (Common.savePixels room (canvasDB w1) validPixels))
  | Fail => Done 1 w
  | Panic => Crashed
  end.

(** onChatMessages of the same file: the payload is decoded as a bare
    ChatMessage, and the room is always "default". *)
Definition onChatMessages (data : doc) (w : World) : outcome :=
  match JSON.Unmarshal_ChatMessage data with
  | Ok chatMessage =>
      let room := "default" in
      let '(w1, dbErr) := Pool.getChatDB w in
      if negb (dbErr =? 0)%Z then Done 1 w1
      else
        let key := Fmt.chatKey room (ID chatMessage) in
        Done 0 (Common.withChat w1
                  (DB.Put (chatDB w1) key (JSON.Marshal_ChatMessage chatMessage)).1)
  | _ => Done 1 w
  end.

End Part000_JsonArray.

(** ** src/unnamed/part_000, second file: the binary layouts *)

Module Part000_Binary.

(** The body of
    [for i := 0; i < pixelCount && offset+8 <= len(data); i++].
    Every turn moves [offset] eight bytes on, so the length of the buffer
    is fuel enough. *)
Fixpoint readPixels (fuel : nat) (data : list byte) (pixelCount i offset : Z)
    (pixels : list Pixel) : res (list Pixel) :=
  if ((i <? pixelCount) && (offset + 8 <=? Bytes.len data))%Z then
    match fuel with
    | O => Panic
    | S fuel' =>
        x ← Bytes.le16 data offset;
        let offset := (offset + 2)%Z in
        y ← Bytes.le16 data offset;
        let offset := (offset + 2)%Z in
        colorValue ← Bytes.le32 data offset;
        let offset := (offset + 4)%Z in
        let color := "#" +:+ Fmt.x06 (Z.land colorValue 16777215) in
        readPixels fuel' data pixelCount (i + 1)%Z offset
          (pixels ++ [mkPixel x y color "unknown" "unknown"])
    end
  else Ok pixels.

(** The decoding part of onPixelUpdate. [make([]Pixel, 0, pixelCount)]
    only reserves capacity for the declared count; running out of memory
    there is outside the model. *)
Definition decode (data : list byte) : res (list Pixel * string) :=
  let room := "default" in
  if (4 <=? Bytes.len data)%Z then
    pixelCount ← Bytes.le32 data 0;
    let offset := 4%Z in
    pixels ← readPixels (length data) data pixelCount 0 offset [];
    Ok (pixels, room)
  else Fail.

Definition onPixelUpdate (data : list byte) (w : World) : outcome :=
  match decode data with
  | Ok (pixels, room) =>
      let '(w1, dbErr) := Pool.getCanvasDB w in
      if negb (dbErr =? 0)%Z then Done 1 w1
      else
        let validPixels := Common.validPixels pixels in
        Done 0 (Common.withCanvas w1 (Common.savePixels room (canvasDB w1) validPixels))
  | Fail => Done 1 w
  | Panic => Crashed
  end.

(** One length-prefixed string of the chat layout: the check that four
    bytes are left, the length, the check that the bytes are there, the
    slice. At [offset = 0] the first check is the source's
    [len(data) < 4]. *)
Definition readString (data : list byte) (offset : Z) : res (string * Z) :=
  if (Bytes.len data <? offset + 4)%Z then Fail
  else
    n ← Bytes.le32 data offset;
    let offset := (offset + 4)%Z in
    if (Bytes.len data <? offset + n)%Z then Fail
    else
      bs ← Bytes.slice data offset (offset + n);
      Ok (Str.of_bytes bs, (offset + n)%Z).

Definition decodeChat (data : list byte) : res ChatMessage :=
  let offset := 0%Z in
  '(messageId, offset) ← readString data offset;
  '(userId, offset) ← readString data offset;
  '(username, offset) ← readString data offset;
  '(message, offset) ← readString data offset;
  if (Bytes.len data <? offset + 4)%Z then Fail
  else
    ts ← Bytes.le32 data offset;
    Ok (mkChatMessage messageId userId username message ts).

Definition onChatMessages (data : list byte) (w : World) : outcome :=
  let room := "default" in
  match decodeChat data with
  | Ok chatMessage =>
      let '(w1, dbErr) := Pool.getChatDB w in
      if negb (dbErr =? 0)%Z then Done 1 w1
      else
        let key := Fmt.chatKey room (ID chatMessage) in
        let '(db, err) := DB.Put (chatDB w1) key (JSON.Marshal_ChatMessage chatMessage) in
        if err then Done 1 w1 else Done 0 (Common.withChat w1 db)
  | Fail => Done 1 w
  | Panic => Crashed
  end.

End Part000_Binary.

(** ** src/unnamed/part_000, third file: the compressed object, then the
    batch object *)

Module Part000_Compressed.

(** The body of [for _, p := range compressedBatch.P]. *)
Definition convert (sourceId : string) (pixels : list Pixel) (p : list JSON.any)
    : list Pixel :=
  match p with
  | JSON.AnyFloat64 x :: JSON.AnyFloat64 y :: JSON.AnyString color :: _ =>
      pixels ++ [mkPixel (JSON.int_of_float64 x) (JSON.int_of_float64 y) color
                   sourceId "unknown"]
  | _ => pixels
  end.

Definition decode (data : doc) : res (list Pixel * string) :=
  pixelBatch ←
    match JSON.Unmarshal_CompressedBatch data with
    | Ok compressedBatch =>
        match JSON.P compressedBatch with
        | _ :: _ =>
            let room := JSON.R compressedBatch in
            let room := if String.eqb room "" then "default" else room in
            let pixels := foldl (convert (JSON.S compressedBatch)) [] (JSON.P compressedBatch) in
            Ok (JSON.mkPixelBatch pixels room (JSON.T compressedBatch)
                  (JSON.B compressedBatch) (JSON.S compressedBatch))
        | [] => JSON.Unmarshal_PixelBatch data
        end
    | _ => JSON.Unmarshal_PixelBatch data
    end;
  let room := JSON.Room pixelBatch in
  let room := if String.eqb room "" then "default" else room in
  Ok (JSON.Pixels pixelBatch, room).

Definition onPixelUpdate (data : doc) (w : World) : outcome :=
  match decode data with
  | Ok (pixels, room) =>
      let '(w1, dbErr) := Pool.getCanvasDB w in
      if negb (dbErr =? 0)%Z then Done 1 w1
      else
        let validPixels := Common.validPixels pixels in
        Done 0 (Common.withCanvas w1 (Common.savePixels room (canvasDB w1) validPixels))
  | Fail => Done 1 w
  | Panic => Crashed
  end.

(** onChatMessages of the same file: the envelope with [room] and
    [sourceId], saved through the pool; the error of [Put] is ignored. *)
Definition onChatMessages (data : doc) (w : World) : outcome :=
  match JSON.Unmarshal_ChatEnvelope data with
  | Ok message =>
      let room := if String.eqb (JSON.MsgRoom message) "" then "default"
                  else JSON.MsgRoom message in
      let '(w1, dbErr) := Pool.getChatDB w in
      if negb (dbErr =? 0)%Z then Done 1 w1
      else
        let key := Fmt.chatKey room (ID (JSON.Msg message)) in
        Done 0 (Common.withChat w1
                  (DB.Put (chatDB w1) key (JSON.Marshal_ChatMessage (JSON.Msg message))).1)
  | _ => Done 1 w
  end.

End Part000_Compressed.

(** ** src/unnamed/part_001: the framed binary layout, saving in the
    background *)

Module Part001.

Definition decode (data : list byte) : res (list Pixel * string) :=
  let room := "default" in
  if (4 <=? Bytes.len data)%Z then
    batchIdLength ← Bytes.le32 data 0;
    let offset := 4%Z in
    if (offset + batchIdLength <=? Bytes.len data)%Z then
      let offset := (offset + batchIdLength)%Z in
      if (offset + 4 <=? Bytes.len data)%Z then
        pixelCount ← Bytes.le32 data offset;
        let offset := (offset + 4)%Z in
        pixels ← Part000_Binary.readPixels (length data) data pixelCount 0 offset [];
        Ok (pixels, room)
      else Fail
    else Fail
  else Fail.

(** The [go func() { ... }()] that saves: the process once it has run. *)
Definition savePixelsTask (room : string) (validPixels : list Pixel) (w : World)
    : World :=
  let '(w1, dbErr) := Pool.getCanvasDB w in
  if negb (dbErr =? 0)%Z then w1
  else Common.withCanvas w1 (Common.savePixels room (canvasDB w1) validPixels).

Definition onPixelUpdate (data : list byte) (w : World) : outcome :=
  match decode data with
  | Ok (pixels, room) =>
      let validPixels := Common.validPixels pixels in
      Done 0 (savePixelsTask room validPixels w)
  | Fail => Done 1 w
  | Panic => Crashed
  end.

Definition decodeChat := Part000_Binary.decodeChat.

Definition saveChatTask (room : string) (chatMessage : ChatMessage) (w : World)
    : World :=
  let '(w1, dbErr) := Pool.getChatDB w in
  if negb (dbErr =? 0)%Z then w1
  else
    let key := Fmt.chatKey room (ID chatMessage) in
    Common.withChat w1 (DB.Put (chatDB w1) key (JSON.Marshal_ChatMessage chatMessage)).1.

Definition onChatMessages (data : list byte) (w : World) : outcome :=
  let room := "default" in
  match decodeChat data with
  | Ok chatMessage => Done 0 (saveChatTask room chatMessage w)
  | Fail => Done 1 w
  | Panic => Crashed
  end.

End Part001.

(** ** src/unnamed/part_005: getMessages on the pooled handle *)

Module Part005.

Section WithSort.
Variable sort_Slice :
  (ChatMessage → ChatMessage → bool) → list ChatMessage → list ChatMessage.

Definition getMessages (room : option string) (w : World) : reply :=
  match Utils.getRoomParamRequired room w with
  | inr failed => failed
  | inl room =>
      let '(w1, dbErr) := Pool.getChatDB w in
      if negb (dbErr =? 0)%Z
      then Utils.handleHTTPError "database connection failed" 500 w1
      else
        let db := chatDB w1 in
        let roomPrefix := Fmt.roomPrefix room in
        let messages :=
          match DB.List db roomPrefix with
          | Ok keys => foldl (BackendGo.collect db roomPrefix) [] keys
          | _ => []
          end in
        Common.sendJSONResponse (BodyMessages (sort_Slice BackendGo.less messages)) w1
  end.
End WithSort.

End Part005.

(** ** src/unnamed/part_004: the pooled monolith. Its entry points are the
    texts of the pooled files above, with other log lines. *)

Module Part004.

Definition getCanvas := Part007.getCanvas.
Definition getMessages := Part005.getMessages.
Definition clearData := Common.clearData.
Definition onPixelUpdate := Part000_Compressed.onPixelUpdate.
Definition onChatMessages := Part000_Compressed.onChatMessages.

End Part004.

(** ** The binary layouts as the specification writes them

    Little-endian fields, used to state what the decoders do on buffers that
    follow the layout. *)

Module Wire.

Definition byte_of (z : Z) : byte :=
  default Byte.x00 (Byte.of_N (Z.to_N (z mod 256))).

Definition uint16 (v : Z) : list byte :=
  [byte_of v; byte_of (v / 2 ^ 8)].

Definition uint32 (v : Z) : list byte :=
  [byte_of v; byte_of (v / 2 ^ 8); byte_of (v / 2 ^ 16); byte_of (v / 2 ^ 24)].

(** One pixel of the binary layout: [uint16 x, uint16 y, uint32 packedRGB]. *)
Record Packed : Type := mkPacked { px : Z; py : Z; rgb : Z }.

Definition packed (p : Packed) : list byte :=
  uint16 (px p) ++ uint16 (py p) ++ uint32 (rgb p).

Definition packedList (ps : list Packed) : list byte :=
  concat (packed <$> ps).

(** [uint32 pixelCount] then the pixels. *)
Definition batch (ps : list Packed) : list byte :=
  uint32 (Z.of_nat (length ps)) ++ packedList ps.

(** The framed variant: [uint32 batchIdLength], the batch id, then the
    plain layout. *)
Definition framed (batchId : list byte) (ps : list Packed) : list byte :=
  uint32 (Z.of_nat (length batchId)) ++ batchId ++ batch ps.

Definition in_range (p : Packed) : Prop :=
  (0 ≤ px p < 2 ^ 16 ∧ 0 ≤ py p < 2 ^ 16 ∧ 0 ≤ rgb p < 2 ^ 32)%Z.

(** The six lowercase hexadecimal digits of a 24-bit value. *)
Definition hex6 (v : Z) : string :=
  let n := Z.to_N v in
  String (Fmt.hex_char ((n / 16 ^ 5) mod 16))
    (String (Fmt.hex_char ((n / 16 ^ 4) mod 16))
      (String (Fmt.hex_char ((n / 16 ^ 3) mod 16))
        (String (Fmt.hex_char ((n / 16 ^ 2) mod 16))
          (String (Fmt.hex_char ((n / 16) mod 16))
            (String (Fmt.hex_char (n mod 16)) EmptyString))))).

(** The pixel the layout describes. *)
Definition pixel_of (p : Packed) : Pixel :=
  mkPixel (px p) (py p) (String "#"%char (hex6 (rgb p mod 2 ^ 24))) "unknown" "unknown".

(** One length-prefixed string of the chat layout. *)
Definition field (s : list byte) : list byte :=
  uint32 (Z.of_nat (length s)) ++ s.

End Wire.

(** ** What the properties are stated with *)

Fixpoint nibbles (k : nat) (n : N) (acc : string) : string :=
  match k with
  | O => String (Fmt.hex_char (n mod 16)) acc
  | S k' => nibbles k' (n / 16) (String (Fmt.hex_char (n mod 16)) acc)
  end.



(** Twelve bytes: a count of two, and one pixel. *)
Definition shortBatch : list byte :=
  Wire.uint32 2 ++ Wire.packed (Wire.mkPacked 3 4 65280).


(** A process whose connection pool is initialised, with empty stores. *)
Definition pooledWorld : World := mkWorld DB.empty DB.empty true.

Definition outOfRangeBatch : doc :=
  Json (JObj [("pixels", JArr [JObj [("x", JInt 100); ("y", JInt 5);
                                     ("color", JStr "#ff0000");
                                     ("userId", JStr "u1");
                                     ("username", JStr "alice")]]);
              ("room", JStr "r1")]).

Definition chatAt (id : string) (ts : Z) : doc :=
  Json (JObj [("messageId", JStr id); ("userId", JStr "u1"); ("username", JStr "alice");
              ("message", JStr "hello"); ("timestamp", JInt ts); ("room", JStr "r1")]).



(** A process whose canvas database holds one entry and cannot be listed. *)
Definition unlistable : World :=
  mkWorld
    (mkDatabase (<["/r1/1:1" := Garbled "x"]> ∅)
       (mkFaults false true (λ _, false) (λ _, false) (λ _, false)))
    DB.empty false.


(** What sort.Slice asks of [less], and what it promises: the slice is
    rearranged, and afterwards no element is less than one before it. The
    order among elements that are not less than each other is not
    promised. *)
Definition strictWeak {A} (less : A → A → bool) : Prop :=
  (∀ a, less a a = false)
  ∧ (∀ a b c, less a b = true → less b c = true → less a c = true)
  ∧ (∀ a b c, less a b = false → less b c = false → less a c = false).

Record SortSliceSpec
    (sort_Slice : (ChatMessage → ChatMessage → bool) → list ChatMessage → list ChatMessage)
    : Prop := {
  sort_Slice_perm : ∀ less l, sort_Slice less l ≡ₚ l;
  sort_Slice_sorted : ∀ less l, strictWeak less →
                                Sorted (λ a b, less b a = false) (sort_Slice less l)
}.

(** One implementation, by insertion. *)
Module Insertion.

Fixpoint insert {A} (less : A → A → bool) (a : A) (l : list A) : list A :=
  match l with
  | [] => [a]
  | b :: l' => if less a b then a :: l else b :: insert less a l'
  end.

Definition sort {A} (less : A → A → bool) (l : list A) : list A :=
  foldr (insert less) [] l.

End Insertion.

(** What one stored entry contributes to the query for a prefix: the
    record it decodes to, if its key lies under the prefix and is longer
    than the prefix, the store hands it out, and it decodes. *)
Definition decodable (db : Database) (prefix : string) (entry : string * doc)
    : option ChatMessage :=
  if Str.has_prefix prefix entry.1
     && (String.length prefix <? String.length entry.1)%nat
     && negb (get_err (faults db) entry.1)
  then match JSON.Unmarshal_ChatMessage entry.2 with
       | Ok m => Some m
       | _ => None
       end
  else None.

Definition archive (db : Database) (prefix : string) : list ChatMessage :=
  omap (decodable db prefix) (map_to_list (kv db)).

(** The same without the length guard: every record under the prefix that
    decodes. *)
Definition decodableUnderPrefix (prefix : string) (entry : string * doc)
    : option ChatMessage :=
  if Str.has_prefix prefix entry.1
  then match JSON.Unmarshal_ChatMessage entry.2 with
       | Ok m => Some m
       | _ => None
       end
  else None.

Definition readAt (db : Database) (prefix key : string) : option ChatMessage :=
  if (String.length key <=? String.length prefix)%nat then None
  else match DB.Get db key with
       | Ok d => if negb (doc_len_is_zero d)
                 then match JSON.Unmarshal_ChatMessage d with
                      | Ok m => Some m
                      | _ => None
                      end
                 else None
       | _ => None
       end.

Definition emptyIdMessage : doc :=
  Json (JObj [("messageId", JStr ""); ("userId", JStr "u1"); ("username", JStr "alice");
              ("message", JStr "hello"); ("timestamp", JInt 5); ("room", JStr "r1")]).

Definition twoMessages : World :=
  mkWorld DB.empty
    (mkDatabase
       (<["/r1/b" := JSON.Marshal_ChatMessage (mkChatMessage "b" "u2" "bob" "second" 20)]>
          (<["/r1/a" := JSON.Marshal_ChatMessage (mkChatMessage "a" "u1" "alice" "first" 10)]>
             (<["/r1/c" := Garbled "not json"]> ∅)))
       noFaults)
    false.



Definition oneUnreadable : World :=
  mkWorld
    (mkDatabase
       (<["/r/1:1" := JSON.Marshal_Pixel (mkPixel 1 1 "#ff0000" "u1" "alice")]>
          (<["/r/2:2" := JSON.Marshal_Pixel (mkPixel 2 2 "#0000ff" "u2" "bob")]> ∅))
       (mkFaults false false (String.eqb "/r/1:1") (λ _, false) (λ _, false)))
    DB.empty false.

(** The content of a batch, independent of the format: the room, the
    source, timestamp and batch id of the envelope, and for each pixel its
    packed coordinates and colour with the identity of who drew it. *)
Record Entry : Type := mkEntry {
  packedOf : Wire.Packed;
  userOf : string;
  nameOf : string
}.

Record Content : Type := mkContent {
  cRoom : string;
  cSource : string;
  cTime : Z;
  cBatch : string;
  cEntries : list Entry
}.

Definition colorOf (e : Entry) : string :=
  String "#"%char (Wire.hex6 (Wire.rgb (packedOf e))).

Definition pixelOf (e : Entry) : Pixel :=
  mkPixel (Wire.px (packedOf e)) (Wire.py (packedOf e)) (colorOf e) (userOf e) (nameOf e).

(** Format 1: the bare JSON array of pixel objects. *)
Definition pixelObject (e : Entry) : json :=
  JObj [("x", JInt (Wire.px (packedOf e))); ("y", JInt (Wire.py (packedOf e)));
        ("color", JStr (colorOf e)); ("userId", JStr (userOf e));
        ("username", JStr (nameOf e))].

Definition asArray (c : Content) : doc :=
  Json (JArr (pixelObject <$> cEntries c)).

(** Format 2: the batch object [{pixels, room, timestamp, batchId,
    sourceId}]. *)
Definition asBatch (c : Content) : doc :=
  Json (JObj [("pixels", JArr (pixelObject <$> cEntries c));
              ("room", JStr (cRoom c)); ("timestamp", JInt (cTime c));
              ("batchId", JStr (cBatch c)); ("sourceId", JStr (cSource c))]).

(** Format 3: the compressed object [{p: [[x, y, color], ...], r, t, b, s}]. *)
Definition triple (e : Entry) : json :=
  JArr [JInt (Wire.px (packedOf e)); JInt (Wire.py (packedOf e)); JStr (colorOf e)].

Definition asCompressed (c : Content) : doc :=
  Json (JObj [("p", JArr (triple <$> cEntries c)); ("r", JStr (cRoom c));
              ("t", JInt (cTime c)); ("b", JStr (cBatch c)); ("s", JStr (cSource c))]).

(** Format 4: the binary layout, plain and framed. *)
Definition asBinary (c : Content) : list byte :=
  Wire.batch (packedOf <$> cEntries c).

Definition asFramed (c : Content) : list byte :=
  Wire.framed (list_byte_of_string (cBatch c)) (packedOf <$> cEntries c).

Definition fitsBinary (e : Entry) : Prop :=
  (0 ≤ Wire.px (packedOf e) < 2 ^ 16 ∧ 0 ≤ Wire.py (packedOf e) < 2 ^ 16
   ∧ 0 ≤ Wire.rgb (packedOf e) < 2 ^ 24)%Z.

Definition effectiveRoom (room : string) : string :=
  if String.eqb room "" then "default" else room.

(** What the compact formats keep of a pixel. *)
Definition triples (ps : list Pixel) : list (Z * Z * string) :=
  (λ p, (X p, Y p, Color p)) <$> ps.

Definition sampleContent : Content :=
  mkContent "r1" "web" 1700000000 "b1" [mkEntry (Wire.mkPacked 3 4 65280) "u1" "alice"].

Ltac eval_names :=
  repeat match goal with
  | |- context [JSON.names ?a ?b] =>
      let v := eval vm_compute in (JSON.names a b) in
      change (JSON.names a b) with v
  end.

Ltac step_ok := change (mbind ?f (Ok ?a)) with (f a); cbv beta iota.

(** The row a triple decodes to, and the pixel the handler makes of it. *)
Definition rowOf (e : Entry) : list JSON.any :=
  [JSON.AnyFloat64 (Wire.px (packedOf e)); JSON.AnyFloat64 (Wire.py (packedOf e));
   JSON.AnyString (colorOf e)].

Definition compactPixel (source : string) (e : Entry) : Pixel :=
  mkPixel (Wire.px (packedOf e)) (Wire.py (packedOf e)) (colorOf e) source "unknown".

Definition binaryPixel (e : Entry) : Pixel :=
  mkPixel (Wire.px (packedOf e)) (Wire.py (packedOf e)) (colorOf e) "unknown" "unknown".

Definition defaultContent : Content :=
  mkContent "" "unknown" 1700000000 "b1"
    [mkEntry (Wire.mkPacked 3 4 65280) "unknown" "unknown";
     mkEntry (Wire.mkPacked 10 5 16711680) "unknown" "unknown"].

(** The colour a stored record shows, if it decodes. *)
Definition storedColor (db : Database) (key : string) : option string :=
  match kv db !! key with
  | Some v => match JSON.Unmarshal_Pixel v with
              | Ok p => Some (Color p)
              | _ => None
              end
  | None => None
  end.

(** Every listed key is the key of an in-range pixel of this room, and
    holds that pixel. *)
Definition roomKeys (db : Database) (room : string) (keys : list string) : Prop :=
  ∀ k, k ∈ keys →
       ∃ p, k = Fmt.pixelKey room (X p) (Y p)
            ∧ inBounds (X p) (Y p) = true
            ∧ kv db !! k = Some (JSON.Marshal_Pixel p).

(** What a payload decodes to: the room the handler files it under and the
    pixels it carries. *)
Definition batchOf (data : doc) : option (string * list Pixel) :=
  match JSON.Unmarshal_PixelBatch data with
  | Ok b => Some (effectiveRoom (JSON.Room b), JSON.Pixels b)
  | _ => None
  end.

Definition ingest (w : World) (data : doc) : World :=
  match Part003.onPixelUpdate data w with
  | Done _ w' => w'
  | Crashed => w
  end.

(** The process after the payloads of [history] arrived, in order, at an
    empty store. *)
Definition replay (history : list doc) : World := foldl ingest emptyWorld history.

(** The pixels sent to a room, in the order they arrived. *)
Definition writes (history : list doc) (room : string) : list Pixel :=
  history ≫= λ data,
    match batchOf data with
    | Some (r, ps) => if String.eqb r room then ps else []
    | None => []
    end.

(** The last pixel sent to cell (x, y) of a room. *)
Definition lastWrite (history : list doc) (room : string) (x y : Z) : option Pixel :=
  last (filter (λ p, X p = x ∧ Y p = y) (writes history room)).

Definition slashFree (data : doc) : Prop :=
  ∀ r ps, batchOf data = Some (r, ps) → Str.contains "/" r = false.

(** Every entry of the store is the record of an in-range pixel, under the
    key of that pixel in a room whose name has no '/'. *)
Definition canonical (db : Database) : Prop :=
  ∀ k v, kv db !! k = Some v →
         ∃ room p, Str.contains "/" room = false
                   ∧ inBounds (X p) (Y p) = true
                   ∧ k = Fmt.pixelKey room (X p) (Y p)
                   ∧ v = JSON.Marshal_Pixel p.

Definition slashRoomHistory : list doc :=
  [Json (JObj [("pixels", JArr [JObj [("x", JInt 3); ("y", JInt 4);
                                      ("color", JStr "#000000")]]);
               ("room", JStr "r1/10:5")])].

Definition specExampleHistory : list doc :=
  [Json (JObj [("pixels", JArr [JObj [("x", JInt 10); ("y", JInt 5);
                                      ("color", JStr "#ff0000");
                                      ("userId", JStr "u1");
                                      ("username", JStr "alice")]]);
               ("room", JStr "r1")])].


(** One pixel sent without a room: it is filed under "default". *)
Definition defaultRoomHistory : list doc :=
  [Json (JObj [("pixels", JArr [JObj [("x", JInt 10); ("y", JInt 5);
                                      ("color", JStr "#ff0000");
                                      ("userId", JStr "u1");
                                      ("username", JStr "alice")]])])].

(** A listed key on which src/backend.go's canvas query stops: it is longer
    than the prefix, what follows the prefix scans as coordinates outside
    the canvas, and its record is read and decodes. *)
Definition offending (db : Database) (roomPrefix key : string) : Prop :=
  (String.length roomPrefix < String.length key)%nat
  ∧ ∃ x y pixelData pixel,
      Fmt.Sscanf_d_colon_d (Str.drop (String.length roomPrefix) key) = Some (x, y)
      ∧ inBounds x y = false
      ∧ DB.Get db key = Ok pixelData
      ∧ JSON.Unmarshal_Pixel pixelData = Ok pixel.

(** A store that holds, for room "r1", a record under a key that no writer
    with a bounds check produces. *)
Definition strayKey : World :=
  mkWorld
    (mkDatabase
       (<["/r1/100:5" := JSON.Marshal_Pixel (mkPixel 100 5 "#ff0000" "u1" "alice")]> ∅)
       noFaults)
    DB.empty false.







(** A batch object, member by member, and an object that carries both the
    compressed and the plain list of pixels. *)
Definition batchMembers : list (string * json) :=
  [("pixels", JArr [JObj [("x", JInt 3); ("y", JInt 4); ("color", JStr "#00ff00");
                          ("userId", JStr "u1"); ("username", JStr "alice")]]);
   ("room", JStr "r1"); ("timestamp", JInt 1700000000);
   ("batchId", JStr "b1"); ("sourceId", JStr "web")].

Definition batchWithoutP : doc := Json (JObj batchMembers).

Definition batchWithBoth : doc :=
  Json (JObj [("p", JArr [JArr [JInt 1; JInt 2; JStr "#111111"]]);
              ("pixels", JArr [JObj [("x", JInt 3); ("y", JInt 4);
                                     ("color", JStr "#222222")]]);
              ("room", JStr "r1")]).

(** * Properties *)

(** ** Samples of the formatting and scanning verbs *)

Example fmt_d_samples :
  Fmt.d 0 = "0" ∧ Fmt.d 89 = "89" ∧ Fmt.d (-7) = "-7" ∧ Fmt.d 1700000000 = "1700000000".
Proof. repeat split; reflexivity. Qed.

Example fmt_x06_samples :
  Fmt.x06 65280 = "00ff00" ∧ Fmt.x06 0 = "000000" ∧ Fmt.x06 16777215 = "ffffff".
Proof. repeat split; reflexivity. Qed.

Example fmt_key_samples :
  Fmt.pixelKey "r1" 10 5 = "/r1/10:5" ∧ Fmt.chatKey "default" "m1" = "/default/m1".
Proof. split; reflexivity. Qed.

Example sscanf_samples :
  Fmt.Sscanf_d_colon_d "10:5" = Some (10%Z, 5%Z)
  ∧ Fmt.Sscanf_d_colon_d "10:5/3:4" = Some (10%Z, 5%Z)
  ∧ Fmt.Sscanf_d_colon_d "b/3:4" = None
  ∧ Fmt.Sscanf_d_colon_d "-1:200" = Some ((-1)%Z, 200%Z)
  ∧ Fmt.Sscanf_d_colon_d "7:" = None.
Proof. repeat split; reflexivity. Qed.

Example marshal_pixel_roundtrip_sample :
  JSON.Unmarshal_Pixel (JSON.Marshal_Pixel (mkPixel 10 5 "#ff0000" "u1" "alice"))
  = Ok (mkPixel 10 5 "#ff0000" "u1" "alice").
Proof. reflexivity. Qed.

(** ** Arithmetic of the little-endian reads *)

Lemma val_bounds b : (0 ≤ Bytes.val b < 256)%Z.
Proof.
  unfold Bytes.val. pose proof (Byte.to_N_bounded b). lia.
Qed.

Lemma val_byte_of z : Bytes.val (Wire.byte_of z) = (z mod 256)%Z.
Proof.
  unfold Wire.byte_of, Bytes.val.
  assert (Hr : (0 ≤ z mod 256 < 256)%Z) by (apply Z.mod_pos_bound; lia).
  destruct (Byte.of_N (Z.to_N (z mod 256))) as [b|] eqn:E.
  - apply Byte.to_of_N in E. simpl. rewrite E. lia.
  - apply Byte.of_N_None_iff in E. lia.
Qed.

Lemma land_shiftl_disjoint a b n :
  (0 ≤ n → 0 ≤ a < 2 ^ n → Z.land a (Z.shiftl b n) = 0)%Z.
Proof.
  intros Hn Ha. apply Z.bits_inj'. intros i Hi.
  rewrite Z.land_spec, Z.bits_0.
  destruct (Z.lt_ge_cases i n) as [Hlt|Hge].
  - rewrite (Z.shiftl_spec_low b n i) by lia. apply andb_false_r.
  - destruct (Z.eq_dec a 0%Z) as [->|Hne]; [by rewrite Z.bits_0|].
    rewrite (Z.bits_above_log2 a i); [done|lia|].
    apply Z.log2_lt_pow2; [lia|].
    eapply Z.lt_le_trans; [apply Ha|]. apply Z.pow_le_mono_r; lia.
Qed.

Lemma lor_shiftl_add a b n :
  (0 ≤ n → 0 ≤ a < 2 ^ n → Z.lor a (Z.shiftl b n) = a + b * 2 ^ n)%Z.
Proof.
  intros Hn Ha.
  pose proof (land_shiftl_disjoint a b n Hn Ha) as Hd.
  rewrite <- Z.lxor_lor by exact Hd.
  rewrite <- Z.add_nocarry_lxor by exact Hd.
  by rewrite Z.shiftl_mul_pow2.
Qed.

Lemma le16_value b0 b1 :
  Z.lor (Bytes.val b0) (Bytes.wrap16 (Z.shiftl (Bytes.val b1) 8))
  = (Bytes.val b0 + 256 * Bytes.val b1)%Z.
Proof.
  pose proof (val_bounds b0). pose proof (val_bounds b1).
  unfold Bytes.wrap16. rewrite Z.shiftl_mul_pow2 by lia.
  rewrite Z.mod_small by lia.
  rewrite <- Z.shiftl_mul_pow2 by lia. rewrite lor_shiftl_add; lia.
Qed.

Lemma le32_value b0 b1 b2 b3 :
  Z.lor (Z.lor (Z.lor (Bytes.val b0) (Bytes.wrap32 (Z.shiftl (Bytes.val b1) 8)))
           (Bytes.wrap32 (Z.shiftl (Bytes.val b2) 16)))
        (Bytes.wrap32 (Z.shiftl (Bytes.val b3) 24))
  = (Bytes.val b0 + 2 ^ 8 * Bytes.val b1 + 2 ^ 16 * Bytes.val b2
     + 2 ^ 24 * Bytes.val b3)%Z.
Proof.
  pose proof (val_bounds b0). pose proof (val_bounds b1).
  pose proof (val_bounds b2). pose proof (val_bounds b3).
  unfold Bytes.wrap32. rewrite !Z.shiftl_mul_pow2 by lia.
  rewrite !Z.mod_small by lia.
  rewrite <- !Z.shiftl_mul_pow2 by lia.
  rewrite (lor_shiftl_add (Bytes.val b0) (Bytes.val b1) 8) by lia.
  rewrite (lor_shiftl_add _ (Bytes.val b2) 16) by lia.
  rewrite (lor_shiftl_add _ (Bytes.val b3) 24) by lia. lia.
Qed.

(** ** Reads at an offset inside a larger buffer *)

Lemma len_app (l1 l2 : list byte) :
  Bytes.len (l1 ++ l2) = (Bytes.len l1 + Bytes.len l2)%Z.
Proof. unfold Bytes.len. rewrite length_app. lia. Qed.

Lemma len_nonneg (l : list byte) : (0 ≤ Bytes.len l)%Z.
Proof. unfold Bytes.len. lia. Qed.

Lemma at_app_r (pre l : list byte) (k : Z) :
  (0 ≤ k)%Z → Bytes.at_ (pre ++ l) (Bytes.len pre + k) = Bytes.at_ l k.
Proof.
  intros Hk. unfold Bytes.at_, Bytes.len.
  replace (0 <=? Z.of_nat (length pre) + k)%Z with true by (symmetry; apply Z.leb_le; lia).
  replace (0 <=? k)%Z with true by (symmetry; apply Z.leb_le; lia).
  replace (Z.to_nat (Z.of_nat (length pre) + k)) with (length pre + Z.to_nat k)%nat by lia.
  by rewrite lookup_app_r, Nat.add_comm, Nat.add_sub by lia.
Qed.


Lemma le16_app_r (pre l : list byte) (k : Z) :
  (0 ≤ k)%Z → Bytes.le16 (pre ++ l) (Bytes.len pre + k) = Bytes.le16 l k.
Proof.
  intros Hk. unfold Bytes.le16.
  rewrite <- Z.add_assoc. by rewrite !at_app_r by lia.
Qed.

Lemma le32_app_r (pre l : list byte) (k : Z) :
  (0 ≤ k)%Z → Bytes.le32 (pre ++ l) (Bytes.len pre + k) = Bytes.le32 l k.
Proof.
  intros Hk. unfold Bytes.le32.
  rewrite <- !Z.add_assoc. by rewrite !at_app_r by lia.
Qed.



Lemma le16_uint16 (v : Z) (rest : list byte) :
  (0 ≤ v < 2 ^ 16)%Z → Bytes.le16 (Wire.uint16 v ++ rest) 0 = Ok v.
Proof.
  intros Hv. unfold Bytes.le16, Wire.uint16. simpl.
  change (mbind ?f (Ok ?a)) with (f a). cbv beta.
  rewrite le16_value, !val_byte_of.
  f_equal. change (2 ^ 8)%Z with 256%Z.
  rewrite (Z.mod_small (v / 256) 256) by (split; [apply Z.div_pos; lia|apply Z.div_lt_upper_bound; lia]).
  pose proof (Z.div_mod v 256). lia.
Qed.

Lemma le32_uint32 (v : Z) (rest : list byte) :
  (0 ≤ v < 2 ^ 32)%Z → Bytes.le32 (Wire.uint32 v ++ rest) 0 = Ok v.
Proof.
  intros Hv. unfold Bytes.le32, Wire.uint32. simpl.
  change (mbind ?f (Ok ?a)) with (f a). cbv beta.
  rewrite le32_value, !val_byte_of.
  f_equal.
  assert (H3 : (v / 2 ^ 24 mod 256 = v / 2 ^ 24)%Z).
  { apply Z.mod_small. split; [apply Z.div_pos; lia|apply Z.div_lt_upper_bound; lia]. }
  rewrite H3.
  pose proof (Z.div_mod v 256 ltac:(lia)) as E0.
  pose proof (Z.div_mod (v / 2 ^ 8) 256 ltac:(lia)) as E1.
  pose proof (Z.div_mod (v / 2 ^ 16) 256 ltac:(lia)) as E2.
  assert (Ha : (v / 2 ^ 8 / 256 = v / 2 ^ 16)%Z)
    by (rewrite Z.div_div by lia; reflexivity).
  assert (Hb : (v / 2 ^ 16 / 256 = v / 2 ^ 24)%Z)
    by (rewrite Z.div_div by lia; reflexivity).
  change (2 ^ 8)%Z with 256%Z in *. lia.
Qed.

(** ** The verb [%06x] on a 24-bit value *)

Lemma hex_digits_nibbles k : ∀ fuel n acc,
  (k ≤ fuel)%nat →
  (16 ^ N.of_nat k ≤ n < 16 ^ N.of_nat (S k) ∨ (k = O ∧ n < 16))%N →
  Fmt.hex_digits fuel n acc = nibbles k n acc.
Proof.
  induction k as [|k IH]; intros fuel n acc Hf Hn.
  - assert (n < 16)%N as Hlt by (destruct Hn as [[_ H]|[_ H]]; [simpl in H|]; lia).
    destruct fuel; simpl; [done|].
    by apply N.ltb_lt in Hlt as ->.
  - destruct Hn as [[Hlo Hhi]|[? _]]; [|done].
    destruct fuel as [|fuel]; [lia|]. cbn [Fmt.hex_digits nibbles].
    rewrite (Nnat.Nat2N.inj_succ (S k)), N.pow_succ_r' in Hhi.
    rewrite (Nnat.Nat2N.inj_succ k), N.pow_succ_r' in Hlo, Hhi.
    assert (16 ≤ n)%N as Hge.
    { pose proof (N.pow_nonzero 16 (N.of_nat k)). lia. }
    apply N.ltb_ge in Hge as ->.
    apply IH; [lia|]. left. rewrite (Nnat.Nat2N.inj_succ k), N.pow_succ_r'. split.
    + apply N.div_le_lower_bound; lia.
    + apply N.Div0.div_lt_upper_bound; lia.
Qed.

Lemma nibbles_lead_zero k : ∀ n acc,
  (n < 16 ^ N.of_nat (S k))%N →
  nibbles (S k) n acc = String "0"%char (nibbles k n acc).
Proof.
  induction k as [|k IH]; intros n acc Hn.
  - simpl in *. assert (n / 16 = 0)%N as -> by (apply N.div_small; lia). done.
  - change (nibbles (S (S k)) n acc)
      with (nibbles (S k) (n / 16) (String (Fmt.hex_char (n mod 16)) acc)).
    rewrite IH; [done|].
    rewrite (Nnat.Nat2N.inj_succ (S k)), N.pow_succ_r' in Hn.
    apply N.Div0.div_lt_upper_bound; lia.
Qed.

Lemma length_nibbles k : ∀ n acc,
  String.length (nibbles k n acc) = (S k + String.length acc)%nat.
Proof.
  induction k as [|k IH]; intros n acc; simpl; [done|].
  rewrite IH. simpl. lia.
Qed.

Lemma hex_N_nibbles k n :
  (16 ^ N.of_nat k ≤ n < 16 ^ N.of_nat (S k) ∨ (k = O ∧ n < 16))%N →
  Fmt.hex_N n = nibbles k n EmptyString.
Proof.
  intros Hn. unfold Fmt.hex_N. apply hex_digits_nibbles; [|done].
  destruct Hn as [[Hlo _]|[-> _]]; [|lia].
  assert (N.of_nat k ≤ N.log2 n)%N; [|lia].
  destruct (N.eq_dec n 0%N) as [->|Hn0].
  { pose proof (N.pow_nonzero 16 (N.of_nat k)). lia. }
  apply N.log2_le_pow2; [lia|].
  etrans; [|exact Hlo]. apply N.pow_le_mono_l. lia.
Qed.

Lemma x06_nibbles (n : N) :
  (n < 16 ^ 6)%N → Fmt.zeros (6 - String.length (Fmt.hex_N n)) (Fmt.hex_N n)
                   = nibbles 5 n EmptyString.
Proof.
  intros Hn.
  assert (Hcases : (n < 16 ∨ 16 ^ 1 ≤ n < 16 ^ 2 ∨ 16 ^ 2 ≤ n < 16 ^ 3
                    ∨ 16 ^ 3 ≤ n < 16 ^ 4 ∨ 16 ^ 4 ≤ n < 16 ^ 5
                    ∨ 16 ^ 5 ≤ n < 16 ^ 6)%N) by lia.
  destruct Hcases as [H|[H|[H|[H|[H|H]]]]].
  - rewrite (hex_N_nibbles 0 n) by (right; done). rewrite length_nibbles. simpl Fmt.zeros.
    by rewrite !nibbles_lead_zero by (simpl; lia).
  - rewrite (hex_N_nibbles 1 n) by (left; exact H). rewrite length_nibbles. simpl Fmt.zeros.
    by rewrite !nibbles_lead_zero by (simpl; lia).
  - rewrite (hex_N_nibbles 2 n) by (left; exact H). rewrite length_nibbles. simpl Fmt.zeros.
    by rewrite !nibbles_lead_zero by (simpl; lia).
  - rewrite (hex_N_nibbles 3 n) by (left; exact H). rewrite length_nibbles. simpl Fmt.zeros.
    by rewrite !nibbles_lead_zero by (simpl; lia).
  - rewrite (hex_N_nibbles 4 n) by (left; exact H). rewrite length_nibbles. simpl Fmt.zeros.
    by rewrite !nibbles_lead_zero by (simpl; lia).
  - rewrite (hex_N_nibbles 5 n) by (left; exact H). by rewrite length_nibbles.
Qed.

Lemma x06_hex6 (v : Z) : (0 ≤ v < 2 ^ 24)%Z → Fmt.x06 v = Wire.hex6 v.
Proof.
  intros Hv. unfold Fmt.x06. cbv zeta. rewrite x06_nibbles by lia.
  unfold Wire.hex6. cbv zeta. simpl nibbles.
  rewrite !N.Div0.div_div. reflexivity.
Qed.

Lemma land_low24 (v : Z) : (0 ≤ v)%Z → Z.land v 16777215 = (v mod 2 ^ 24)%Z.
Proof. intros Hv. change 16777215%Z with (Z.ones 24). apply Z.land_ones. lia. Qed.

(** ** The pixel loop on a buffer that follows the layout *)

Lemma le16_at (pre : list byte) (v : Z) (rest : list byte) (o : Z) :
  (0 ≤ v < 2 ^ 16)%Z → o = Bytes.len pre →
  Bytes.le16 (pre ++ Wire.uint16 v ++ rest) o = Ok v.
Proof.
  intros Hv ->. rewrite <- (Z.add_0_r (Bytes.len pre)).
  rewrite le16_app_r by lia. by apply le16_uint16.
Qed.

Lemma le32_at (pre : list byte) (v : Z) (rest : list byte) (o : Z) :
  (0 ≤ v < 2 ^ 32)%Z → o = Bytes.len pre →
  Bytes.le32 (pre ++ Wire.uint32 v ++ rest) o = Ok v.
Proof.
  intros Hv ->. rewrite <- (Z.add_0_r (Bytes.len pre)).
  rewrite le32_app_r by lia. by apply le32_uint32.
Qed.

Lemma len_packed (p : Wire.Packed) : Bytes.len (Wire.packed p) = 8%Z.
Proof. reflexivity. Qed.

Lemma packedList_cons (p : Wire.Packed) (ps : list Wire.Packed) :
  Wire.packedList (p :: ps) = Wire.packed p ++ Wire.packedList ps.
Proof. reflexivity. Qed.

Lemma len_packedList (ps : list Wire.Packed) :
  Bytes.len (Wire.packedList ps) = (8 * Z.of_nat (length ps))%Z.
Proof.
  induction ps as [|p ps IH]; [done|].
  rewrite packedList_cons, len_app, IH, len_packed. simpl length. lia.
Qed.

Lemma readPixels_packed (ps : list Wire.Packed) :
  ∀ (pre tail : list byte) (acc : list Pixel) (i count : Z) (fuel : nat),
    Forall Wire.in_range ps →
    (i + Z.of_nat (length ps) ≤ count)%Z →
    ((i + Z.of_nat (length ps))%Z = count ∨ (length tail < 8)%nat) →
    (length ps ≤ fuel)%nat →
    Part000_Binary.readPixels fuel (pre ++ Wire.packedList ps ++ tail) count i
      (Bytes.len pre) acc
    = Ok (acc ++ (Wire.pixel_of <$> ps)).
Proof.
  induction ps as [|p ps IH]; intros pre tail acc i count fuel Hr Hle Hend Hf.
  - assert (Hc : ((i <? count) && (Bytes.len pre + 8 <=? Bytes.len (pre ++ tail)))%Z = false).
    { apply andb_false_iff. simpl in Hend. destruct Hend as [He|Ht].
      - left. apply Z.ltb_ge. lia.
      - right. apply Z.leb_gt. rewrite len_app. unfold Bytes.len. lia. }
    change (Wire.packedList []) with (@nil byte).
    change (Wire.pixel_of <$> []) with (@nil Pixel).
    rewrite app_nil_l, app_nil_r.
    destruct fuel; cbn [Part000_Binary.readPixels]; by rewrite Hc.
  - apply Forall_cons in Hr as [[Hx [Hy Hc]] Hr].
    destruct fuel as [|fuel]; [simpl in Hf; lia|].
    cbn [Part000_Binary.readPixels].
    assert (Hcond : ((i <? count)
        && (Bytes.len pre + 8 <=? Bytes.len (pre ++ Wire.packedList (p :: ps) ++ tail)))%Z = true).
    { apply andb_true_iff. split.
      - apply Z.ltb_lt. simpl length in Hle. lia.
      - apply Z.leb_le. rewrite !len_app, len_packedList.
        pose proof (len_nonneg tail). simpl length. lia. }
    rewrite Hcond.
    rewrite packedList_cons, <- (app_assoc (Wire.packed p)).
    set (rest := Wire.packedList ps ++ tail).
    assert (H1 : Bytes.le16 (pre ++ Wire.packed p ++ rest) (Bytes.len pre) = Ok (Wire.px p)).
    { unfold Wire.packed. rewrite <- !app_assoc. by apply le16_at. }
    assert (H2 : Bytes.le16 (pre ++ Wire.packed p ++ rest) (Bytes.len pre + 2)
                 = Ok (Wire.py p)).
    { unfold Wire.packed. rewrite <- !app_assoc.
      rewrite (app_assoc pre (Wire.uint16 (Wire.px p))).
      apply le16_at; [done|]. by rewrite len_app. }
    assert (H3 : Bytes.le32 (pre ++ Wire.packed p ++ rest) (Bytes.len pre + 2 + 2)
                 = Ok (Wire.rgb p)).
    { unfold Wire.packed. rewrite <- !app_assoc.
      rewrite (app_assoc pre (Wire.uint16 (Wire.px p))).
      rewrite (app_assoc (pre ++ _) (Wire.uint16 (Wire.py p))).
      apply le32_at; [done|]. by rewrite !len_app. }
    rewrite H1. change (mbind ?f (Ok ?a)) with (f a). cbv beta zeta.
    rewrite H2. change (mbind ?f (Ok ?a)) with (f a). cbv beta zeta.
    rewrite H3. change (mbind ?f (Ok ?a)) with (f a). cbv beta zeta.
    subst rest. rewrite (app_assoc pre (Wire.packed p)).
    replace (Bytes.len pre + 2 + 2 + 4)%Z with (Bytes.len (pre ++ Wire.packed p))
      by (rewrite len_app, len_packed; lia).
    rewrite IH; [|done|simpl length in Hle; lia|simpl length in Hend; lia|simpl in Hf; lia].
    rewrite fmap_cons, <- app_assoc. simpl "++". f_equal. f_equal. f_equal.
    unfold Wire.pixel_of. f_equal.
    rewrite land_low24 by lia.
    rewrite x06_hex6 by (apply Z.mod_pos_bound; lia). reflexivity.
Qed.

Lemma decode_batch_with_tail (ps : list Wire.Packed) (count : Z) (tail : list byte) :
  Forall Wire.in_range ps →
  (0 ≤ count < 2 ^ 32)%Z →
  (Z.of_nat (length ps) ≤ count)%Z →
  (Z.of_nat (length ps) = count ∨ (length tail < 8)%nat) →
  Part000_Binary.decode (Wire.uint32 count ++ Wire.packedList ps ++ tail)
  = Ok (Wire.pixel_of <$> ps, "default").
Proof.
  intros Hr Hc Hle Hend. unfold Part000_Binary.decode.
  assert (Hlen : (4 <=? Bytes.len (Wire.uint32 count ++ Wire.packedList ps ++ tail))%Z = true).
  { apply Z.leb_le. rewrite len_app. pose proof (len_nonneg (Wire.packedList ps ++ tail)).
    change (Bytes.len (Wire.uint32 count)) with 4%Z. lia. }
  rewrite Hlen. cbv zeta.
  rewrite le32_uint32 by done.
  change (mbind ?f (Ok ?a)) with (f a). cbv beta.
  change 4%Z with (Bytes.len (Wire.uint32 count)) at 1.
  rewrite readPixels_packed;
    [done|done|lia|destruct Hend; [left; lia|by right]|].
  pose proof (len_packedList ps) as HL. unfold Bytes.len in HL.
  rewrite !length_app. lia.
Qed.



(** ** The binary decoders never read out of bounds *)






(** ** The chat layout: four length-prefixed strings, then the timestamp *)








Lemma decode_framed_with_tail (batchId : list byte) (ps : list Wire.Packed)
    (count : Z) (tail : list byte) :
  (Z.of_nat (length batchId) < 2 ^ 32)%Z →
  Forall Wire.in_range ps →
  (0 ≤ count < 2 ^ 32)%Z →
  (Z.of_nat (length ps) ≤ count)%Z →
  (Z.of_nat (length ps) = count ∨ (length tail < 8)%nat) →
  Part001.decode (Wire.uint32 (Z.of_nat (length batchId)) ++ batchId
                    ++ Wire.uint32 count ++ Wire.packedList ps ++ tail)
  = Ok (Wire.pixel_of <$> ps, "default").
Proof.
  intros Hb Hr Hc Hle Hend. unfold Part001.decode.
  set (hdr := Wire.uint32 (Z.of_nat (length batchId))).
  assert (Hh : Bytes.len hdr = 4%Z) by reflexivity.
  assert (Hc4 : Bytes.len (Wire.uint32 count) = 4%Z) by reflexivity.
  set (data := hdr ++ batchId ++ Wire.uint32 count ++ Wire.packedList ps ++ tail).
  assert (Hlen : Bytes.len data
                 = (4 + Bytes.len batchId + 4 + Bytes.len (Wire.packedList ps ++ tail))%Z).
  { subst data. rewrite !len_app, Hh, Hc4. lia. }
  pose proof (len_nonneg (Wire.packedList ps ++ tail)) as Hnn.
  pose proof (len_nonneg batchId) as Hnb.
  replace (4 <=? Bytes.len data)%Z with true by (symmetry; apply Z.leb_le; lia).
  cbv zeta.
  assert (H1 : Bytes.le32 data 0 = Ok (Z.of_nat (length batchId))).
  { subst data hdr. apply le32_uint32. lia. }
  rewrite H1. change (mbind ?f (Ok ?a)) with (f a). cbv beta.
  fold (Bytes.len batchId).
  replace (4 + Bytes.len batchId <=? Bytes.len data)%Z with true
    by (symmetry; apply Z.leb_le; lia).
  replace (4 + Bytes.len batchId + 4 <=? Bytes.len data)%Z with true
    by (symmetry; apply Z.leb_le; lia).
  assert (H2 : Bytes.le32 data (4 + Bytes.len batchId) = Ok count).
  { subst data. rewrite (app_assoc hdr batchId). apply le32_at; [done|].
    rewrite len_app, Hh. lia. }
  rewrite H2. change (mbind ?f (Ok ?a)) with (f a). cbv beta.
  assert (H3 : Part000_Binary.readPixels (length data) data count 0
                 (4 + Bytes.len batchId + 4) []
               = Ok ([] ++ (Wire.pixel_of <$> ps))).
  { subst data. rewrite (app_assoc hdr batchId).
    rewrite (app_assoc (hdr ++ batchId) (Wire.uint32 count)).
    replace (4 + Bytes.len batchId + 4)%Z
      with (Bytes.len ((hdr ++ batchId) ++ Wire.uint32 count))
      by (rewrite !len_app, Hh, Hc4; lia).
    apply readPixels_packed; [done|lia|destruct Hend; [left; lia|by right]|].
    pose proof (len_packedList ps) as HL. unfold Bytes.len in HL.
    rewrite !length_app. lia. }
  rewrite H3. reflexivity.
Qed.

(** ** C2: overrunning length prefixes *)




(** ** Saving pixels: which keys change *)

Lemma Put_lookup (db : Database) (key : string) (v : doc) (k : string) :
  kv (DB.Put db key v).1 !! k
  = if decide (key = k ∧ put_err (faults db) key = false) then Some v else kv db !! k.
Proof.
  unfold DB.Put. destruct (put_err (faults db) key) eqn:E; simpl.
  - case_decide as H; [by destruct H|done].
  - case_decide as H.
    + destruct H as [-> _]. by rewrite lookup_insert_eq.
    + rewrite lookup_insert_ne; [done|]. intros ->. by apply H.
Qed.

Lemma Put_faults (db : Database) (key : string) (v : doc) :
  faults (DB.Put db key v).1 = faults db.
Proof. unfold DB.Put. by destruct (put_err (faults db) key). Qed.

Lemma savePixels_faults (room : string) (pixels : list Pixel) :
  ∀ db, faults (Common.savePixels room db pixels) = faults db.
Proof.
  unfold Common.savePixels.
  induction pixels as [|p ps IH]; intros db; [done|].
  simpl. rewrite IH. apply Put_faults.
Qed.

Lemma savePixels_lookup_other (room : string) (pixels : list Pixel) (k : string) :
  ∀ db, (∀ p, p ∈ pixels → Fmt.pixelKey room (X p) (Y p) ≠ k) →
        kv (Common.savePixels room db pixels) !! k = kv db !! k.
Proof.
  unfold Common.savePixels.
  induction pixels as [|p ps IH]; intros db Hk; [done|].
  simpl. rewrite IH by (intros q Hq; apply Hk; by right).
  unfold Common.savePixel. rewrite Put_lookup.
  case_decide as H; [|done]. destruct H as [H _]. by apply Hk in H; [|left].
Qed.

Lemma savePixelChecked_valid (room : string) (pixels : list Pixel) :
  ∀ db, foldl (Part003.savePixelChecked room) db pixels
        = Common.savePixels room db (Common.validPixels pixels).
Proof.
  unfold Common.savePixels, Common.validPixels.
  induction pixels as [|p ps IH]; intros db; [done|].
  cbn [foldl]. rewrite filter_cons.
  assert (Hs : Part003.savePixelChecked room db p
               = if inBounds (X p) (Y p) then Common.savePixel room db p else db)
    by reflexivity.
  rewrite Hs. destruct (inBounds (X p) (Y p)) eqn:E.
  - rewrite decide_True by done. cbn [foldl]. apply IH.
  - rewrite decide_False by done. apply IH.
Qed.

Lemma validPixels_inBounds (pixels : list Pixel) (p : Pixel) :
  p ∈ Common.validPixels pixels ↔ p ∈ pixels ∧ inBounds (X p) (Y p) = true.
Proof. unfold Common.validPixels. rewrite list_elem_of_filter. tauto. Qed.

(** ** C3: pixels outside the canvas *)

(** What the generation with the bounds check does with a batch (the
    sibling of src/backend.go's loop): the handler reports success, the
    pixels inside the canvas are all saved in order, and no key is touched
    on behalf of a pixel outside it. *)
Lemma part003_drops_out_of_range (data : doc) (w : World) (batch : JSON.PixelBatch) :
  JSON.Unmarshal_PixelBatch data = Ok batch →
  open_err (faults (canvasDB w)) = false →
  let room := if String.eqb (JSON.Room batch) "" then "default" else JSON.Room batch in
  ∃ w', Part003.onPixelUpdate data w = Done 0 w'
        ∧ canvasDB w' = Common.savePixels room (canvasDB w)
                          (filter (λ p, inBounds (X p) (Y p) = true) (JSON.Pixels batch))
        ∧ ∀ k, (∀ p, p ∈ JSON.Pixels batch → inBounds (X p) (Y p) = true →
                     Fmt.pixelKey room (X p) (Y p) ≠ k) →
               kv (canvasDB w') !! k = kv (canvasDB w) !! k.
Proof.
  intros Hd Ho room. unfold Part003.onPixelUpdate. rewrite Hd, Ho.
  eexists. split; [reflexivity|]. simpl canvasDB.
  fold room. rewrite savePixelChecked_valid. split; [reflexivity|].
  intros k Hk. apply savePixels_lookup_other.
  intros p Hp. apply validPixels_inBounds in Hp as [Hp Hb]. by apply Hk.
Qed.

(** C3, on src/backend.go. Its onPixelUpdate has no bounds check: the batch
    with the single pixel x=100, y=5 for room "r1" is reported as handled
    and the pixel is written under "/r1/100:5"; the canvas query of the same
    file then indexes the grid with x=100 and the runtime stops it. *)
Theorem backend_go_stores_out_of_range_pixel :
  ∃ w', BackendGo.onPixelUpdate outOfRangeBatch emptyWorld = Done 0 w'
        ∧ kv (canvasDB w') !! "/r1/100:5"
          = Some (JSON.Marshal_Pixel (mkPixel 100 5 "#ff0000" "u1" "alice"))
        ∧ BackendGo.getCanvas (Some "r1") w' = ReplyCrashed
        ∧ ∃ w'', Part003.onPixelUpdate outOfRangeBatch emptyWorld = Done 0 w''
                 ∧ kv (canvasDB w'') = ∅.
Proof.
  eexists. split; [vm_compute; reflexivity|].
  split; [vm_compute; reflexivity|].
  split; [vm_compute; reflexivity|].
  eexists. split; [vm_compute; reflexivity|]. vm_compute. reflexivity.
Qed.

(** ** C7: the key scheme *)

Lemma part003_key_scheme (data : doc) (w : World) (e : JSON.ChatEnvelope) :
  JSON.Unmarshal_ChatEnvelope data = Ok e →
  open_err (faults (chatDB w)) = false →
  let room := if String.eqb (JSON.MsgRoom e) "" then "default" else JSON.MsgRoom e in
  let key := Fmt.chatKey room (ID (JSON.Msg e)) in
  put_err (faults (chatDB w)) key = false →
  ∃ w', Part003.onChatMessages data w = Done 0 w'
        ∧ kv (chatDB w') = <[key := JSON.Marshal_ChatMessage (JSON.Msg e)]> (kv (chatDB w)).
Proof.
  intros Hd Ho room key Hp. unfold Part003.onChatMessages. rewrite Hd, Ho.
  eexists. split; [reflexivity|]. simpl chatDB. fold room. fold key.
  unfold DB.Put. by rewrite Hp.
Qed.

(** C7, on src/backend.go. Its onChatMessages builds the key from the
    timestamp, not from the messageId: message "m1" sent at 1700000000 to
    room "r1" lands under "/r1/1700000000" and nothing is stored under
    "/r1/m1"; a second message "m2" of the same second replaces it. The
    sibling generation stores the same message under "/r1/m1". *)
Theorem backend_go_keys_chat_by_timestamp :
  ∃ w1 w2 w3,
    BackendGo.onChatMessages (chatAt "m1" 1700000000) emptyWorld = Done 0 w1
    ∧ kv (chatDB w1) !! "/r1/m1" = None
    ∧ kv (chatDB w1) !! "/r1/1700000000"
      = Some (JSON.Marshal_ChatMessage (mkChatMessage "m1" "u1" "alice" "hello" 1700000000))
    ∧ BackendGo.onChatMessages (chatAt "m2" 1700000000) w1 = Done 0 w2
    ∧ map_to_list (kv (chatDB w2))
      = [("/r1/1700000000",
          JSON.Marshal_ChatMessage (mkChatMessage "m2" "u1" "alice" "hello" 1700000000))]
    ∧ Part003.onChatMessages (chatAt "m1" 1700000000) emptyWorld = Done 0 w3
    ∧ kv (chatDB w3) !! "/r1/m1"
      = Some (JSON.Marshal_ChatMessage (mkChatMessage "m1" "u1" "alice" "hello" 1700000000)).
Proof.
  eexists _, _, _.
  split; [vm_compute; reflexivity|].
  split; [vm_compute; reflexivity|].
  split; [vm_compute; reflexivity|].
  split; [vm_compute; reflexivity|].
  split; [vm_compute; reflexivity|].
  split; [vm_compute; reflexivity|].
  vm_compute. reflexivity.
Qed.

(** ** Strings, prefixes and keys *)

Lemma app_String (a : ascii) (s t : string) : String a s +:+ t = String a (s +:+ t).
Proof. reflexivity. Qed.

Lemma app_empty_l (t : string) : "" +:+ t = t.
Proof. reflexivity. Qed.

Lemma app_assoc_s (s t u : string) : (s +:+ t) +:+ u = s +:+ (t +:+ u).
Proof. induction s as [|a s IH]; [done|]. rewrite !app_String. by f_equal. Qed.

Lemma length_app_s (s t : string) :
  String.length (s +:+ t) = (String.length s + String.length t)%nat.
Proof. induction s as [|a s IH]; [done|]. rewrite app_String. simpl. by rewrite IH. Qed.

Lemma has_prefix_app (p s : string) : Str.has_prefix p (p +:+ s) = true.
Proof.
  induction p as [|a p IH]; [done|].
  rewrite app_String. simpl. by rewrite Ascii.eqb_refl.
Qed.

Lemma has_prefix_app_inv (p s : string) :
  Str.has_prefix p s = true → ∃ t, s = p +:+ t.
Proof.
  revert s. induction p as [|a p IH]; intros s H.
  - by exists s.
  - destruct s as [|b s]; [done|]. simpl in H.
    destruct (Ascii.eqb a b) eqn:E; [|done].
    apply Ascii.eqb_eq in E as ->.
    destruct (IH s H) as [t ->]. by exists t.
Qed.

Lemma drop_app_s (p s : string) : Str.drop (String.length p) (p +:+ s) = s.
Proof. induction p as [|a p IH]; [by destruct s|]. rewrite app_String. by simpl. Qed.

Lemma contains_app (c : ascii) (s t : string) :
  Str.contains c (s +:+ t) = Str.contains c s || Str.contains c t.
Proof.
  induction s as [|a s IH]; [done|]. rewrite app_String. simpl.
  by destruct (Ascii.eqb a c).
Qed.

Lemma has_prefix_cons (a b : ascii) (p s : string) :
  Str.has_prefix (String a p) (String b s)
  = if Ascii.eqb a b then Str.has_prefix p s else false.
Proof. reflexivity. Qed.

Lemma contains_cons (c a : ascii) (s : string) :
  Str.contains c (String a s) = if Ascii.eqb a c then true else Str.contains c s.
Proof. reflexivity. Qed.

(** A room name without ['/'] is determined by the prefix it yields. *)
Lemma slash_free_prefix (r r' t : string) :
  Str.contains "/" r = false →
  Str.contains "/" r' = false →
  Str.has_prefix (r +:+ "/") (r' +:+ String "/" t) = true →
  r = r'.
Proof.
  revert r'. induction r as [|a r IH]; intros r' Hr Hr' H.
  - destruct r' as [|c r']; [done|].
    rewrite app_empty_l, app_String, has_prefix_cons in H.
    rewrite contains_cons in Hr'. rewrite (Ascii.eqb_sym "/" c) in H.
    by destruct (Ascii.eqb c "/").
  - rewrite contains_cons in Hr. destruct (Ascii.eqb a "/") eqn:Ea; [done|].
    destruct r' as [|c r'].
    + rewrite app_empty_l, app_String, has_prefix_cons in H. by rewrite Ea in H.
    + rewrite !app_String, has_prefix_cons in H. rewrite contains_cons in Hr'.
      destruct (Ascii.eqb a c) eqn:Eac; [|done].
      apply Ascii.eqb_eq in Eac as ->. rewrite Ea in Hr'.
      f_equal. by apply IH.
Qed.

Lemma roomPrefix_unfold (room : string) :
  Fmt.roomPrefix room = String "/" (room +:+ "/").
Proof. reflexivity. Qed.

Lemma chatKey_unfold (room id : string) :
  Fmt.chatKey room id = Fmt.roomPrefix room +:+ id.
Proof.
  unfold Fmt.chatKey, Fmt.roomPrefix. by rewrite !app_String, !app_empty_l, !app_assoc_s.
Qed.

Lemma pixelKey_unfold (room : string) (x y : Z) :
  Fmt.pixelKey room x y = Fmt.roomPrefix room +:+ (Fmt.d x +:+ ":" +:+ Fmt.d y).
Proof.
  unfold Fmt.pixelKey, Fmt.roomPrefix. by rewrite !app_String, !app_empty_l, !app_assoc_s.
Qed.

(** Keys of the form ["/" room "/" suffix] lie under the prefix of a room
    without ['/'] only if they are that room's. *)
Lemma under_prefix_same_room (r r' suffix : string) :
  Str.contains "/" r = false →
  Str.contains "/" r' = false →
  Str.has_prefix (Fmt.roomPrefix r) (Fmt.roomPrefix r' +:+ suffix) = true →
  r = r'.
Proof.
  intros Hr Hr' H. rewrite !roomPrefix_unfold, app_String, has_prefix_cons in H.
  rewrite Ascii.eqb_refl, app_assoc_s in H.
  by apply (slash_free_prefix r r' suffix).
Qed.

(** ** Listing and deleting *)

Lemma elem_of_keys_under (prefix k : string) (m : gmap string doc) :
  k ∈ DB.keys_under prefix m ↔ Str.has_prefix prefix k = true ∧ is_Some (m !! k).
Proof.
  unfold DB.keys_under. rewrite list_elem_of_filter, list_elem_of_fmap. split.
  - intros [Hp ([k' v] & -> & Hin)]. split; [done|].
    apply elem_of_map_to_list in Hin. by exists v.
  - intros [Hp [v Hv]]. split; [done|]. exists (k, v). split; [done|].
    by apply elem_of_map_to_list.
Qed.

Lemma NoDup_keys_under (prefix : string) (m : gmap string doc) :
  NoDup (DB.keys_under prefix m).
Proof. unfold DB.keys_under. apply NoDup_filter, NoDup_fst_map_to_list. Qed.

Lemma deleteAll_faults (keys : list string) :
  ∀ db, faults (Common.deleteAll db keys) = faults db.
Proof.
  unfold Common.deleteAll. induction keys as [|k keys IH]; intros db; [done|].
  simpl. rewrite IH. unfold DB.Delete. by destruct (delete_err (faults db) k).
Qed.

Lemma deleteAll_lookup (keys : list string) (k : string) :
  ∀ db, (∀ k', delete_err (faults db) k' = false) →
        kv (Common.deleteAll db keys) !! k
        = if decide (k ∈ keys) then None else kv db !! k.
Proof.
  unfold Common.deleteAll. induction keys as [|k0 keys IH]; intros db Hd.
  - cbn [foldl]. case_decide as H; [by apply elem_of_nil in H|done].
  - cbn [foldl].
    assert (Hs : (DB.Delete db k0).1 = mkDatabase (delete k0 (kv db)) (faults db))
      by (unfold DB.Delete; by rewrite Hd).
    rewrite Hs, IH by done. cbn [kv].
    destruct (decide (k ∈ keys)) as [Hin|Hin].
    + by rewrite decide_True by (by right).
    + destruct (decide (k = k0)) as [->|Hne].
      * rewrite decide_True by (by left). apply lookup_delete_eq.
      * rewrite decide_False by (intros [?|?]%elem_of_cons; done).
        by apply lookup_delete_ne.
Qed.

Lemma clearIn_lookup (db : Database) (room k : string) :
  list_err (faults db) = false →
  (∀ k', delete_err (faults db) k' = false) →
  kv (Common.clearIn db room) !! k
  = if Str.has_prefix (Fmt.roomPrefix room) k then None else kv db !! k.
Proof.
  intros Hl Hd. unfold Common.clearIn, DB.List. rewrite Hl.
  rewrite deleteAll_lookup by done.
  destruct (Str.has_prefix (Fmt.roomPrefix room) k) eqn:Hp.
  - destruct (kv db !! k) as [v|] eqn:Hk.
    + rewrite decide_True; [done|]. apply elem_of_keys_under.
      split; [done|]. by exists v.
    + by case_decide.
  - rewrite decide_False; [done|]. rewrite elem_of_keys_under.
    intros [Hp' _]. by rewrite Hp in Hp'.
Qed.

(** ** C9: clearing a room *)



(** When listing fails the reply is still 200 and nothing is deleted. *)
Example clear_reports_success_when_listing_fails :
  Part007.clearData (Some "r1") (Some "canvas") unlistable
  = Replied 0 200 (BodyText "Canvas cleared") unlistable.
Proof. reflexivity. Qed.


(** ** sort.Slice *)

Lemma insert_perm {A} (less : A → A → bool) (a : A) (l : list A) :
  Insertion.insert less a l ≡ₚ a :: l.
Proof.
  induction l as [|b l IH]; [done|]. simpl.
  destruct (less a b); [done|]. rewrite IH. apply Permutation_swap.
Qed.

Lemma insert_sorted {A} (less : A → A → bool) (a : A) (l : list A) :
  strictWeak less →
  Sorted (λ x y, less y x = false) l →
  Sorted (λ x y, less y x = false) (Insertion.insert less a l).
Proof.
  intros (Hirr & Htr & _) Hl. induction l as [|b l IH]; simpl.
  - by repeat constructor.
  - destruct (less a b) eqn:E.
    + constructor; [done|]. constructor.
      destruct (less b a) eqn:E'; [|done].
      pose proof (Htr a b a E E') as Hc. by rewrite Hirr in Hc.
    + apply Sorted_inv in Hl as [Hl Hhd]. constructor; [by apply IH|].
      destruct l as [|c l]; simpl; [by constructor|].
      destruct (less a c); constructor; [done|]. by apply HdRel_inv in Hhd.
Qed.

Lemma insertion_sort_spec : SortSliceSpec Insertion.sort.
Proof.
  split.
  - intros less l. induction l as [|a l IH]; [done|].
    unfold Insertion.sort in *. simpl. by rewrite insert_perm, IH.
  - intros less l Hw. induction l as [|a l IH]; [constructor|].
    unfold Insertion.sort in *. simpl. by apply insert_sorted.
Qed.

Lemma less_strictWeak : strictWeak Part003.less.
Proof.
  unfold Part003.less. repeat split.
  - intros a. apply Z.ltb_irrefl.
  - intros a b c H1%Z.ltb_lt H2%Z.ltb_lt. apply Z.ltb_lt. lia.
  - intros a b c H1%Z.ltb_ge H2%Z.ltb_ge. apply Z.ltb_ge. lia.
Qed.

Lemma sorted_by_timestamp (l : list ChatMessage) :
  Sorted (λ a b, Part003.less b a = false) l →
  Sorted (λ a b, (Timestamp a ≤ Timestamp b)%Z) l.
Proof.
  induction 1 as [|a l Hl IH Hhd]; constructor; [done|].
  destruct Hhd as [|b l Hab]; constructor.
  unfold Part003.less in Hab. by apply Z.ltb_ge in Hab.
Qed.

(** ** The chat archive *)

Lemma collect_readAt (db : Database) (prefix : string) (keys : list string) :
  ∀ acc, foldl (Part003.collect db prefix) acc keys = acc ++ omap (readAt db prefix) keys.
Proof.
  induction keys as [|k keys IH]; intros acc; [by rewrite app_nil_r|].
  cbn [foldl omap list_omap]. rewrite IH.
  unfold Part003.collect, readAt.
  destruct (String.length k <=? String.length prefix)%nat; [done|].
  destruct (DB.Get db k) as [d| |]; [|done..].
  destruct (negb (doc_len_is_zero d)); [|done].
  destruct (JSON.Unmarshal_ChatMessage d); [|done..].
  by rewrite <- app_assoc.
Qed.

Lemma collect_same (db : Database) (prefix : string) (msgs : list ChatMessage)
    (key : string) :
  BackendGo.collect db prefix msgs key = Part003.collect db prefix msgs key.
Proof.
  unfold BackendGo.collect, Part003.collect.
  destruct (Nat.ltb_spec (String.length prefix) (String.length key)) as [H|H].
  - rewrite (proj2 (Nat.leb_gt _ _) H).
    destruct (DB.Get db key) as [d| |]; [|done..].
    destruct d as [j|[|a raw]]; done.
  - by rewrite (proj2 (Nat.leb_le _ _) H).
Qed.

Lemma omap_readAt_entries (db : Database) (prefix : string) (l : list (string * doc)) :
  (∀ k v, (k, v) ∈ l → kv db !! k = Some v) →
  omap (readAt db prefix) (filter (λ k, Str.has_prefix prefix k = true) l.*1)
  = omap (decodable db prefix) l.
Proof.
  induction l as [|[k v] l IH]; intros Hl; [done|].
  rewrite fmap_cons, filter_cons. cbn [fst omap list_omap].
  rewrite <- IH by (intros k' v' Hin; apply Hl; by right).
  unfold decodable at 1. cbn [fst snd].
  destruct (Str.has_prefix prefix k) eqn:Hp.
  - rewrite decide_True by done. cbn [omap list_omap]. unfold readAt at 1.
    rewrite Nat.ltb_antisym.
    destruct (String.length k <=? String.length prefix)%nat; [done|].
    unfold DB.Get. rewrite (Hl k v) by (by left).
    destruct (get_err (faults db) k); [done|]. cbn [negb andb].
    destruct v as [j|[|a raw]]; done.
  - by rewrite decide_False by done.
Qed.

Lemma archive_listing (db : Database) (prefix : string) :
  omap (readAt db prefix) (DB.keys_under prefix (kv db)) = archive db prefix.
Proof.
  unfold DB.keys_under, archive. apply omap_readAt_entries.
  intros k v Hin. by apply elem_of_map_to_list.
Qed.

(** ** C6: the chat query *)

(** C6, as stated, fails: a record that decodes can be stored under a
    room's prefix and never be returned. A message whose messageId is empty
    is stored under the key "/r1/", which is not longer than the prefix
    "/r1/", and the query skips such keys. *)
Lemma empty_id_message_is_stored_but_not_returned :
  ∃ w0,
    Part003.onChatMessages emptyIdMessage emptyWorld = Done 0 w0
    ∧ omap (decodableUnderPrefix (Fmt.roomPrefix "r1")) (map_to_list (kv (chatDB w0)))
      = [mkChatMessage "" "u1" "alice" "hello" 5]
    ∧ Part003.getMessages Insertion.sort (Some "r1") w0
      = Replied 0 200 (BodyMessages []) w0.
Proof.
  eexists. split; [vm_compute; reflexivity|].
  split; vm_compute; reflexivity.
Qed.

Lemma foldl_collect_same (db : Database) (prefix : string) (keys : list string) :
  ∀ acc, foldl (BackendGo.collect db prefix) acc keys
         = foldl (Part003.collect db prefix) acc keys.
Proof.
  induction keys as [|k keys IH]; intros acc; [done|].
  cbn [foldl]. by rewrite collect_same, IH.
Qed.

(** C6, amended. When the chat database opens and lists, the chat query of
    a room answers 200 with the records that are stored under keys strictly
    longer than the room's prefix, that the store hands out and that
    decode; every other entry is skipped without failing the query. The
    answer is sorted non-decreasing by timestamp, and it is the same
    collection of records, again sorted, in whatever order the store lists
    the keys. src/backend.go and the generation with bounds checks give the
    same answer. *)
Theorem chat_query_returns_sorted_archive
    (sort_Slice : (ChatMessage → ChatMessage → bool) → list ChatMessage → list ChatMessage)
    (w : World) (room : string) :
  SortSliceSpec sort_Slice →
  open_err (faults (chatDB w)) = false →
  list_err (faults (chatDB w)) = false →
  ∃ msgs,
    Part003.getMessages sort_Slice (Some room) w = Replied 0 200 (BodyMessages msgs) w
    ∧ BackendGo.getMessages sort_Slice (Some room) w
      = Replied 0 200 (BodyMessages msgs) w
    ∧ Sorted (λ a b, (Timestamp a ≤ Timestamp b)%Z) msgs
    ∧ msgs ≡ₚ archive (chatDB w) (Fmt.roomPrefix room)
    ∧ ∀ keys', keys' ≡ₚ DB.keys_under (Fmt.roomPrefix room) (kv (chatDB w)) →
        let msgs' :=
          sort_Slice Part003.less
            (foldl (Part003.collect (chatDB w) (Fmt.roomPrefix room)) [] keys') in
        Sorted (λ a b, (Timestamp a ≤ Timestamp b)%Z) msgs' ∧ msgs' ≡ₚ msgs.
Proof.
  intros [Hperm Hsorted] Ho Hl.
  eexists. split.
  { unfold Part003.getMessages, Common.sendJSONResponse, DB.List. by rewrite Ho, Hl. }
  split.
  { unfold BackendGo.getMessages, Common.sendJSONResponse, DB.List.
    rewrite Ho, Hl. by rewrite foldl_collect_same. }
  split.
  { apply sorted_by_timestamp, Hsorted, less_strictWeak. }
  split.
  { rewrite Hperm, collect_readAt, app_nil_l. by rewrite archive_listing. }
  intros keys' Hk. cbv zeta. split.
  { apply sorted_by_timestamp, Hsorted, less_strictWeak. }
  rewrite !Hperm, !collect_readAt, !app_nil_l. by rewrite Hk.
Qed.

Lemma chat_query_returns_sorted_archive_witness :
  ∃ msgs,
    Part003.getMessages Insertion.sort (Some "r1") twoMessages
    = Replied 0 200 (BodyMessages msgs) twoMessages
    ∧ Sorted (λ a b, (Timestamp a ≤ Timestamp b)%Z) msgs
    ∧ msgs ≡ₚ archive (chatDB twoMessages) (Fmt.roomPrefix "r1").
Proof.
  destruct (chat_query_returns_sorted_archive Insertion.sort twoMessages "r1")
    as (msgs & H1 & _ & H2 & H3 & _).
  - exact insertion_sort_spec.
  - reflexivity.
  - reflexivity.
  - exists msgs. split; [exact H1|]. split; [exact H2|exact H3].
Defined.

Example chat_query_sample :
  Part003.getMessages Insertion.sort (Some "r1") twoMessages
  = Replied 0 200
      (BodyMessages [mkChatMessage "a" "u1" "alice" "first" 10;
                     mkChatMessage "b" "u2" "bob" "second" 20])
      twoMessages.
Proof. vm_compute. reflexivity. Qed.

(** ** Queries see only what lies under their prefix *)


Lemma keys_under_agree (prefix : string) (m m' : gmap string doc) :
  (∀ k, Str.has_prefix prefix k = true → m !! k = m' !! k) →
  DB.keys_under prefix m ≡ₚ DB.keys_under prefix m'.
Proof.
  intros H. apply NoDup_Permutation; [apply NoDup_keys_under..|].
  intros k. rewrite !elem_of_keys_under. split; intros [Hp Hs]; (split; [done|]).
  - by rewrite <- H.
  - by rewrite H.
Qed.

Lemma readAt_agree (db db' : Database) (prefix key : string) :
  faults db' = faults db →
  kv db' !! key = kv db !! key →
  readAt db' prefix key = readAt db prefix key.
Proof. intros Hf Hk. unfold readAt, DB.Get. by rewrite Hf, Hk. Qed.

Lemma omap_readAt_agree (db db' : Database) (prefix : string) (keys : list string) :
  faults db' = faults db →
  (∀ k, k ∈ keys → kv db' !! k = kv db !! k) →
  omap (readAt db' prefix) keys = omap (readAt db prefix) keys.
Proof.
  intros Hf. induction keys as [|k keys IH]; intros Hk; [done|].
  cbn [omap list_omap]. rewrite IH by (intros k' Hin; apply Hk; by right).
  by rewrite (readAt_agree db db') by (done || (apply Hk; by left)).
Qed.

Lemma archive_agree (db db' : Database) (prefix : string) :
  faults db' = faults db →
  (∀ k, Str.has_prefix prefix k = true → kv db' !! k = kv db !! k) →
  archive db' prefix ≡ₚ archive db prefix.
Proof.
  intros Hf Hk. rewrite <- !archive_listing.
  rewrite (keys_under_agree prefix (kv db') (kv db)) by done.
  rewrite (omap_readAt_agree db db'); [done|done|].
  intros k Hin. apply Hk. by apply elem_of_keys_under in Hin as [? _].
Qed.

(** ** C10: chat messages that arrive in the binary layout *)




(** ** The grid *)

Lemma blank_complete : Grid.complete Grid.blank.
Proof.
  unfold Grid.complete, Grid.blank. rewrite length_replicate. split; [done|].
  apply Forall_replicate. by rewrite length_replicate.
Qed.

Lemma inBounds_spec (x y : Z) :
  inBounds x y = true ↔ (0 ≤ x < CanvasWidth ∧ 0 ≤ y < CanvasHeight)%Z.
Proof. unfold inBounds. rewrite !andb_true_iff, !Z.leb_le, !Z.ltb_lt. lia. Qed.

Lemma set_complete (g : list (list string)) (x y : Z) (c : string) :
  Grid.complete g → inBounds x y = true →
  ∃ g', Grid.set g x y c = Ok g'
        ∧ Grid.complete g'
        ∧ ∀ x' y', Grid.cell g' x' y'
                   = if decide (x' = Z.to_nat x ∧ y' = Z.to_nat y)
                     then (if decide (x' < Z.to_nat CanvasWidth ∧ y' < Z.to_nat CanvasHeight)%nat
                           then Some c else None)
                     else Grid.cell g x' y'.
Proof.
  intros [Hlen Hrows] Hb. apply inBounds_spec in Hb as [Hx Hy].
  unfold Grid.set.
  replace ((0 <=? y) && (y <? Z.of_nat (length g)))%Z with true
    by (symmetry; rewrite andb_true_iff, Z.leb_le, Z.ltb_lt; lia).
  destruct (g !! Z.to_nat y) as [row|] eqn:Hrow.
  2:{ apply lookup_ge_None in Hrow. lia. }
  assert (Hr : length row = Z.to_nat CanvasWidth).
  { eapply Forall_lookup_1 in Hrows; [|exact Hrow]. done. }
  replace ((0 <=? x) && (x <? Z.of_nat (length row)))%Z with true
    by (symmetry; rewrite andb_true_iff, Z.leb_le, Z.ltb_lt; lia).
  eexists. split; [reflexivity|]. split.
  - split; [by rewrite length_insert|].
    apply Forall_insert; [done|]. by rewrite length_insert.
  - intros x' y'. unfold Grid.cell.
    destruct (decide (y' = Z.to_nat y)) as [->|Hne].
    + rewrite list_lookup_insert_eq by lia. cbn [mbind option_bind].
      destruct (decide (x' = Z.to_nat x)) as [->|Hnx].
      * rewrite decide_True by done. rewrite list_lookup_insert_eq by lia.
        rewrite decide_True; [done|]. lia.
      * rewrite decide_False by (intros [? _]; done).
        rewrite list_lookup_insert_ne by done. by rewrite Hrow.
    + rewrite decide_False by (intros [_ ?]; done).
      by rewrite list_lookup_insert_ne by done.
Qed.

Lemma overlay_complete (db : Database) (prefix : string) (canvas : list (list string))
    (key : string) :
  Grid.complete canvas →
  ∃ g', Part003.overlay db prefix canvas key = Ok g' ∧ Grid.complete g'.
Proof.
  intros Hc. unfold Part003.overlay.
  destruct (String.length key <=? String.length prefix)%nat; [by exists canvas|].
  destruct (Fmt.Sscanf_d_colon_d _) as [[x y]|]; [|by exists canvas].
  destruct (inBounds x y) eqn:Hb; [|by exists canvas].
  destruct (DB.Get db key) as [d| |]; [|by exists canvas..].
  destruct (negb (doc_len_is_zero d)); [|by exists canvas].
  destruct (JSON.Unmarshal_Pixel d) as [p| |]; [|by exists canvas..].
  destruct (set_complete canvas x y (Color p) Hc Hb) as (g' & -> & Hg & _).
  by exists g'.
Qed.

Lemma range_overlay_complete (db : Database) (prefix : string) (keys : list string) :
  ∀ canvas, Grid.complete canvas →
            ∃ g', range (Part003.overlay db prefix) canvas keys = Ok g' ∧ Grid.complete g'.
Proof.
  induction keys as [|k keys IH]; intros canvas Hc; [by exists canvas|].
  cbn [range].
  destruct (overlay_complete db prefix canvas k Hc) as (g1 & -> & Hg1).
  change (mbind ?f (Ok ?a)) with (f a). cbv beta. by apply IH.
Qed.

(** ** C5: the canvas query *)

(** C5, as stated, fails: a read failure does not turn the answer into the
    all-background grid. With the pixels (1,1) and (2,2) stored for room
    "r" and the read of "/r/1:1" failing, the answer still shows (2,2). *)
Lemma read_failure_keeps_other_pixels :
  ∃ g,
    DB.Get (canvasDB oneUnreadable) "/r/1:1" = Fail
    ∧ Part003.getCanvas (Some "r") oneUnreadable = Replied 0 200 (BodyCanvas g) oneUnreadable
    ∧ Grid.cell g 2 2 = Some "#0000ff"
    ∧ Grid.cell g 1 1 = Some "#ffffff"
    ∧ g ≠ Grid.blank.
Proof.
  eexists. split; [vm_compute; reflexivity|].
  split; [vm_compute; reflexivity|].
  split; [vm_compute; reflexivity|].
  split; [vm_compute; reflexivity|].
  intros H. apply (f_equal (λ g, Grid.cell g 2 2)) in H. vm_compute in H. discriminate H.
Qed.

(** C5, amended. For every state of the store and every pattern of store
    failures the canvas query of a room answers 200 with a complete 90x90
    grid. A listed key is skipped, the grid staying as it is, when its
    suffix does not scan as two integers, when the integers are outside the
    canvas, when the read of that key fails, or when the stored record does
    not decode. When the database cannot be opened or listed the answer is
    the all-background grid. A read failure of one key affects only that
    key. *)
Theorem canvas_query_always_complete (w : World) (room : string) :
  ∃ g,
    Part003.getCanvas (Some room) w = Replied 0 200 (BodyCanvas g) w
    ∧ Grid.complete g
    ∧ (open_err (faults (canvasDB w)) = true ∨ list_err (faults (canvasDB w)) = true →
       g = Grid.blank)
    ∧ ∀ canvas key,
        let coordPart := Str.drop (String.length (Fmt.roomPrefix room)) key in
        (Fmt.Sscanf_d_colon_d coordPart = None
         ∨ (∃ x y, Fmt.Sscanf_d_colon_d coordPart = Some (x, y) ∧ inBounds x y = false)
         ∨ DB.Get (canvasDB w) key = Fail
         ∨ (∃ d, DB.Get (canvasDB w) key = Ok d ∧ JSON.Unmarshal_Pixel d = Fail)) →
        Part003.overlay (canvasDB w) (Fmt.roomPrefix room) canvas key = Ok canvas.
Proof.
  assert (Hskip : ∀ canvas key,
    let coordPart := Str.drop (String.length (Fmt.roomPrefix room)) key in
    (Fmt.Sscanf_d_colon_d coordPart = None
     ∨ (∃ x y, Fmt.Sscanf_d_colon_d coordPart = Some (x, y) ∧ inBounds x y = false)
     ∨ DB.Get (canvasDB w) key = Fail
     ∨ (∃ d, DB.Get (canvasDB w) key = Ok d ∧ JSON.Unmarshal_Pixel d = Fail)) →
    Part003.overlay (canvasDB w) (Fmt.roomPrefix room) canvas key = Ok canvas).
  { intros canvas key coordPart H. unfold Part003.overlay. fold coordPart.
    destruct (String.length key <=? String.length (Fmt.roomPrefix room))%nat; [done|].
    destruct H as [->|[(x & y & -> & ->)|[->|(d & -> & ->)]]]; try done.
    - destruct (Fmt.Sscanf_d_colon_d coordPart) as [[x y]|]; [|done].
      by destruct (inBounds x y).
    - destruct (Fmt.Sscanf_d_colon_d coordPart) as [[x y]|]; [|done].
      destruct (inBounds x y); [|done]. by destruct (negb (doc_len_is_zero d)). }
  unfold Part003.getCanvas, Common.sendJSONResponse.
  destruct (open_err (faults (canvasDB w))) eqn:Ho.
  { exists Grid.blank. split; [done|]. split; [apply blank_complete|]. by split. }
  unfold DB.List. destruct (list_err (faults (canvasDB w))) eqn:Hl.
  { exists Grid.blank. split; [done|]. split; [apply blank_complete|]. by split. }
  destruct (range_overlay_complete (canvasDB w) (Fmt.roomPrefix room)
              (DB.keys_under (Fmt.roomPrefix room) (kv (canvasDB w))) Grid.blank
              blank_complete) as (g & Hg & Hc).
  exists g. rewrite Hg. split; [done|]. split; [done|].
  split; [by intros [?|?]|done].
Qed.

Lemma canvas_query_always_complete_witness :
  ∃ g,
    Part003.getCanvas (Some "r") oneUnreadable = Replied 0 200 (BodyCanvas g) oneUnreadable
    ∧ Grid.complete g
    ∧ Part003.overlay (canvasDB oneUnreadable) (Fmt.roomPrefix "r") Grid.blank "/r/1:1"
      = Ok Grid.blank.
Proof.
  destruct (canvas_query_always_complete oneUnreadable "r") as (g & H1 & H2 & _ & H4).
  exists g. split; [exact H1|]. split; [exact H2|].
  apply H4. right. right. left. vm_compute. reflexivity.
Defined.

(** ** C4: one batch, four wire formats *)

(** C4, as stated, fails: the same content does not decode to the same
    records and room in the four formats. Pixel (3,4,"#00ff00") drawn by
    user "u1"/"alice" in room "r1" keeps user, name and room in the batch
    object, loses the name in the compressed object, and loses user, name
    and room in the binary layout. *)
Lemma formats_disagree_on_identity_and_room :
  Part000_JsonArray.decode (asBatch sampleContent)
  = Ok ([mkPixel 3 4 "#00ff00" "u1" "alice"], "r1")
  ∧ Part000_Compressed.decode (asCompressed sampleContent)
    = Ok ([mkPixel 3 4 "#00ff00" "web" "unknown"], "r1")
  ∧ Part000_Binary.decode (asBinary sampleContent)
    = Ok ([mkPixel 3 4 "#00ff00" "unknown" "unknown"], "default")
  ∧ Part000_JsonArray.decode (asArray sampleContent)
    = Ok ([mkPixel 3 4 "#00ff00" "u1" "alice"], "default").
Proof. repeat split; vm_compute; reflexivity. Qed.

Lemma fits_int64_small (z : Z) : (- 2 ^ 63 ≤ z < 2 ^ 63)%Z → fits_int64 z = true.
Proof.
  intros H. unfold fits_int64, int64_min, int64_max.
  rewrite andb_true_iff, !Z.leb_le. lia.
Qed.

Lemma into_Pixel_object (x y : Z) (c u n : string) :
  fits_int64 x = true → fits_int64 y = true →
  JSON.into_Pixel (JObj [("x", JInt x); ("y", JInt y); ("color", JStr c);
                         ("userId", JStr u); ("username", JStr n)])
  = Ok (mkPixel x y c u n).
Proof.
  intros Hx Hy. unfold JSON.into_Pixel, JSON.into_struct.
  cbn [JSON.members]. unfold JSON.Pixel_field. eval_names. cbv iota.
  cbn [JSON.into_int JSON.into_string]. rewrite Hx. step_ok.
  cbn [X Y Color UserID Username]. rewrite Hy. step_ok.
  reflexivity.
Qed.

Lemma Unmarshal_Marshal_Pixel (p : Pixel) :
  fits_int64 (X p) = true → fits_int64 (Y p) = true →
  JSON.Unmarshal_Pixel (JSON.Marshal_Pixel p) = Ok p.
Proof.
  intros Hx Hy. destruct p as [x y c u n]. by apply into_Pixel_object.
Qed.

Lemma into_Pixel_pixelObject (e : Entry) :
  fitsBinary e → JSON.into_Pixel (pixelObject e) = Ok (pixelOf e).
Proof.
  intros (Hx & Hy & _). unfold pixelObject.
  by rewrite into_Pixel_object by (apply fits_int64_small; lia).
Qed.

Lemma elements_pixelObjects (es : list Entry) :
  Forall fitsBinary es →
  JSON.elements JSON.into_Pixel (pixelObject <$> es) = Ok (pixelOf <$> es).
Proof.
  induction 1 as [|e es He _ IH]; [done|].
  rewrite !fmap_cons. cbn [JSON.elements].
  rewrite into_Pixel_pixelObject by done.
  step_ok. rewrite IH. by step_ok.
Qed.

Lemma decode_asArray (c : Content) :
  Forall fitsBinary (cEntries c) → cEntries c ≠ [] →
  Part000_JsonArray.decode (asArray c) = Ok (pixelOf <$> cEntries c, "default").
Proof.
  intros Hf Hne. unfold Part000_JsonArray.decode, asArray, JSON.Unmarshal_Pixels,
    JSON.into_slice.
  rewrite elements_pixelObjects by done.
  destruct (cEntries c) as [|e es]; [done|]. by rewrite fmap_cons.
Qed.

Lemma Unmarshal_asBatch (c : Content) :
  Forall fitsBinary (cEntries c) → fits_int64 (cTime c) = true →
  JSON.Unmarshal_PixelBatch (asBatch c)
  = Ok (JSON.mkPixelBatch (pixelOf <$> cEntries c) (cRoom c) (cTime c) (cBatch c)
          (cSource c)).
Proof.
  intros Hf Ht. unfold JSON.Unmarshal_PixelBatch, asBatch, JSON.into_struct.
  cbn [JSON.members]. unfold JSON.PixelBatch_field. eval_names. cbv iota.
  cbn [JSON.into_slice JSON.into_int JSON.into_string].
  rewrite elements_pixelObjects by done. step_ok. step_ok.
  cbn [JSON.Pixels JSON.Room JSON.BatchTimestamp JSON.BatchId JSON.SourceId].
  rewrite Ht. by step_ok.
Qed.

Lemma decode_asBatch (c : Content) :
  Forall fitsBinary (cEntries c) → fits_int64 (cTime c) = true →
  Part000_JsonArray.decode (asBatch c)
  = Ok (pixelOf <$> cEntries c, effectiveRoom (cRoom c)).
Proof.
  intros Hf Ht. unfold Part000_JsonArray.decode.
  assert (Ha : JSON.Unmarshal_Pixels (asBatch c) = Fail) by reflexivity.
  rewrite Ha, Unmarshal_asBatch by done. step_ok.
  cbn [JSON.Pixels JSON.Room]. unfold effectiveRoom.
  by destruct (String.eqb (cRoom c) "").
Qed.

Lemma decode_asBatch_compressed (c : Content) :
  Forall fitsBinary (cEntries c) → fits_int64 (cTime c) = true →
  Part000_Compressed.decode (asBatch c)
  = Ok (pixelOf <$> cEntries c, effectiveRoom (cRoom c)).
Proof.
  intros Hf Ht. unfold Part000_Compressed.decode.
  assert (Ha : JSON.Unmarshal_CompressedBatch (asBatch c) = Ok JSON.zeroCompressedBatch).
  { unfold JSON.Unmarshal_CompressedBatch, asBatch, JSON.into_struct.
    cbn [JSON.members]. unfold JSON.CompressedBatch_field. eval_names. cbv iota.
    by repeat step_ok. }
  rewrite Ha. cbn [JSON.P JSON.zeroCompressedBatch].
  rewrite Unmarshal_asBatch by done. by step_ok.
Qed.

Lemma float64_small (z : Z) :
  (Z.abs z < 2 ^ 53)%Z → JSON.float64_of_int_literal z = Ok z.
Proof.
  intros H. unfold JSON.float64_of_int_literal. cbv zeta.
  by replace (Z.abs z <? 2 ^ 53)%Z with true by (symmetry; apply Z.ltb_lt; lia).
Qed.

Lemma into_row (e : Entry) :
  fitsBinary e → JSON.into_slice JSON.into_any [] (triple e) = Ok (rowOf e).
Proof.
  intros (Hx & Hy & _). unfold triple.
  cbn [JSON.into_slice JSON.elements JSON.into_any].
  rewrite !float64_small by lia. by repeat step_ok.
Qed.

Lemma elements_triples (es : list Entry) :
  Forall fitsBinary es →
  JSON.elements (JSON.into_slice JSON.into_any []) (triple <$> es) = Ok (rowOf <$> es).
Proof.
  induction 1 as [|e es He _ IH]; [done|].
  rewrite !fmap_cons. cbn [JSON.elements].
  rewrite into_row by done. step_ok. rewrite IH. by step_ok.
Qed.

Lemma Unmarshal_asCompressed (c : Content) :
  Forall fitsBinary (cEntries c) → fits_int64 (cTime c) = true →
  JSON.Unmarshal_CompressedBatch (asCompressed c)
  = Ok (JSON.mkCompressedBatch (rowOf <$> cEntries c) (cRoom c) (cTime c) (cBatch c)
          (cSource c)).
Proof.
  intros Hf Ht. unfold JSON.Unmarshal_CompressedBatch, asCompressed, JSON.into_struct.
  cbn [JSON.members]. unfold JSON.CompressedBatch_field. eval_names. cbv iota.
  cbn [JSON.into_slice JSON.into_int JSON.into_string].
  rewrite elements_triples by done. step_ok. step_ok.
  cbn [JSON.P JSON.R JSON.T JSON.B JSON.S].
  rewrite Ht. by step_ok.
Qed.

Lemma convert_rows (source : string) (es : list Entry) :
  Forall fitsBinary es →
  ∀ acc, foldl (Part000_Compressed.convert source) acc (rowOf <$> es)
         = acc ++ (compactPixel source <$> es).
Proof.
  induction 1 as [|e es (Hx & Hy & _) _ IH]; intros acc; [by rewrite app_nil_r|].
  rewrite !fmap_cons. cbn [foldl]. rewrite IH.
  unfold rowOf at 1. cbn [Part000_Compressed.convert].
  unfold JSON.int_of_float64. rewrite !fits_int64_small by lia.
  by rewrite <- app_assoc.
Qed.

Lemma decode_asCompressed (c : Content) :
  Forall fitsBinary (cEntries c) → fits_int64 (cTime c) = true → cEntries c ≠ [] →
  Part000_Compressed.decode (asCompressed c)
  = Ok (compactPixel (cSource c) <$> cEntries c, effectiveRoom (cRoom c)).
Proof.
  intros Hf Ht Hne. unfold Part000_Compressed.decode.
  rewrite Unmarshal_asCompressed by done.
  cbn [JSON.P JSON.R JSON.T JSON.B JSON.S].
  destruct (cEntries c) as [|e es] eqn:Hes; [done|].
  rewrite fmap_cons. cbv zeta. rewrite <- fmap_cons.
  rewrite convert_rows by done. step_ok.
  cbn [JSON.Pixels JSON.Room]. rewrite app_nil_l. unfold effectiveRoom.
  by destruct (String.eqb (cRoom c) "") eqn:E; [|rewrite E].
Qed.

Lemma pixel_of_packedOf (es : list Entry) :
  Forall fitsBinary es →
  Wire.pixel_of <$> (packedOf <$> es) = binaryPixel <$> es.
Proof.
  induction 1 as [|e es (Hx & Hy & Hc) _ IH]; [done|].
  rewrite !fmap_cons, IH. f_equal.
  unfold Wire.pixel_of, binaryPixel, colorOf. by rewrite Z.mod_small by lia.
Qed.

Lemma in_range_packedOf (es : list Entry) :
  Forall fitsBinary es → Forall Wire.in_range (packedOf <$> es).
Proof.
  induction 1 as [|e es (Hx & Hy & Hc) _ IH]; [constructor|].
  rewrite fmap_cons. constructor; [|done]. unfold Wire.in_range. lia.
Qed.

Lemma decode_asBinary (c : Content) :
  Forall fitsBinary (cEntries c) →
  (Z.of_nat (length (cEntries c)) < 2 ^ 32)%Z →
  Part000_Binary.decode (asBinary c) = Ok (binaryPixel <$> cEntries c, "default").
Proof.
  intros Hf Hn. unfold asBinary, Wire.batch.
  rewrite <- (app_nil_r (Wire.packedList _)).
  rewrite decode_batch_with_tail;
    [by rewrite pixel_of_packedOf|by apply in_range_packedOf
    |rewrite length_fmap; lia|rewrite length_fmap; lia|by left].
Qed.

Lemma decode_asFramed (c : Content) :
  Forall fitsBinary (cEntries c) →
  (Z.of_nat (length (cEntries c)) < 2 ^ 32)%Z →
  (Z.of_nat (length (list_byte_of_string (cBatch c))) < 2 ^ 32)%Z →
  Part001.decode (asFramed c) = Ok (binaryPixel <$> cEntries c, "default").
Proof.
  intros Hf Hn Hb. unfold asFramed, Wire.framed, Wire.batch.
  rewrite <- (app_nil_r (Wire.packedList _)).
  rewrite decode_framed_with_tail;
    [by rewrite pixel_of_packedOf|done|by apply in_range_packedOf
    |rewrite length_fmap; lia|rewrite length_fmap; lia|by left].
Qed.

(** C4, amended. For a non-empty batch whose coordinates fit sixteen bits
    and whose colours are six lowercase hexadecimal digits, the four wire
    formats (bare array, batch object, compressed object, binary layout
    plain or framed) decode to pixel sequences with the same coordinates and
    colours in the same order. The bare array and the batch object also
    keep userId and username; the compressed object replaces userId by the
    source and username by "unknown"; the binary layout replaces both by
    "unknown". The batch and compressed objects deliver the room of the
    envelope ("default" when empty); the bare array and the binary layout
    always deliver "default". The decoded records and rooms coincide in
    full when the content carries those defaults. *)
Theorem formats_agree_on_coordinates_and_colour (c : Content) :
  cEntries c ≠ [] →
  Forall fitsBinary (cEntries c) →
  (Z.of_nat (length (cEntries c)) < 2 ^ 32)%Z →
  fits_int64 (cTime c) = true →
  (Z.of_nat (length (list_byte_of_string (cBatch c))) < 2 ^ 32)%Z →
  ∃ pa pb pc pd ra rb rc rd,
    Part000_JsonArray.decode (asArray c) = Ok (pa, ra)
    ∧ Part000_JsonArray.decode (asBatch c) = Ok (pb, rb)
    ∧ Part000_Compressed.decode (asBatch c) = Ok (pb, rb)
    ∧ Part000_Compressed.decode (asCompressed c) = Ok (pc, rc)
    ∧ Part000_Binary.decode (asBinary c) = Ok (pd, rd)
    ∧ Part001.decode (asFramed c) = Ok (pd, rd)
    ∧ triples pa = triples pb ∧ triples pb = triples pc ∧ triples pc = triples pd
    ∧ triples pd
      = (λ e, (Wire.px (packedOf e), Wire.py (packedOf e), colorOf e)) <$> cEntries c
    ∧ pa = pixelOf <$> cEntries c ∧ pb = pa
    ∧ pc = compactPixel (cSource c) <$> cEntries c
    ∧ pd = binaryPixel <$> cEntries c
    ∧ ra = "default" ∧ rb = effectiveRoom (cRoom c) ∧ rc = rb ∧ rd = "default"
    ∧ (effectiveRoom (cRoom c) = "default" → cSource c = "unknown" →
       Forall (λ e, userOf e = "unknown" ∧ nameOf e = "unknown") (cEntries c) →
       pa = pb ∧ pb = pc ∧ pc = pd ∧ ra = rb ∧ rb = rc ∧ rc = rd).
Proof.
  intros Hne Hf Hn Ht Hb.
  exists (pixelOf <$> cEntries c), (pixelOf <$> cEntries c),
         (compactPixel (cSource c) <$> cEntries c), (binaryPixel <$> cEntries c),
         "default", (effectiveRoom (cRoom c)), (effectiveRoom (cRoom c)), "default".
  assert (Ht1 : ∀ f : Entry → Pixel,
            (∀ e, (X (f e), Y (f e), Color (f e))
                  = (Wire.px (packedOf e), Wire.py (packedOf e), colorOf e)) →
            triples (f <$> cEntries c)
            = (λ e, (Wire.px (packedOf e), Wire.py (packedOf e), colorOf e)) <$> cEntries c).
  { intros f Hfe. unfold triples. rewrite <- list_fmap_compose.
    apply list_fmap_ext. intros i e _. apply Hfe. }
  split; [by apply decode_asArray|].
  split; [by apply decode_asBatch|].
  split; [by apply decode_asBatch_compressed|].
  split; [by apply decode_asCompressed|].
  split; [by apply decode_asBinary|].
  split; [by apply decode_asFramed|].
  split; [done|].
  split; [by rewrite !Ht1|].
  split; [by rewrite !Ht1|].
  split; [by rewrite Ht1|].
  do 8 (split; [done|]).
  intros Hroom Hsrc Hid. rewrite Hroom, Hsrc.
  assert (He : ∀ g h : Entry → Pixel,
            (∀ e, userOf e = "unknown" ∧ nameOf e = "unknown" → g e = h e) →
            g <$> cEntries c = h <$> cEntries c).
  { intros g h Hgh. apply list_fmap_ext. intros i e Hi. apply Hgh.
    eapply Forall_lookup_1 in Hid; [exact Hid|exact Hi]. }
  split; [done|].
  split; [apply He; intros e [Hu Hna]; unfold pixelOf, compactPixel; by rewrite Hu, Hna|].
  split; [done|]. done.
Qed.

(** An empty batch: the bare array is rejected (an empty array falls
    through to the object decoder, which refuses an array), the other
    formats accept it; a compressed object with an empty [p] is read as a
    batch object, so its [r] is not its room. *)
Example empty_batch_in_each_format :
  Part000_JsonArray.decode (Json (JArr [])) = Fail
  ∧ Part000_JsonArray.decode (Json (JObj [("pixels", JArr []); ("room", JStr "r1")]))
    = Ok ([], "r1")
  ∧ Part000_Compressed.decode (Json (JObj [("p", JArr []); ("r", JStr "r1")]))
    = Ok ([], "default")
  ∧ Part000_Binary.decode (Wire.batch []) = Ok ([], "default").
Proof. repeat split; vm_compute; reflexivity. Qed.

Lemma formats_agree_on_coordinates_and_colour_witness :
  ∃ ps,
    Part000_JsonArray.decode (asArray defaultContent) = Ok (ps, "default")
    ∧ Part000_JsonArray.decode (asBatch defaultContent) = Ok (ps, "default")
    ∧ Part000_Compressed.decode (asCompressed defaultContent) = Ok (ps, "default")
    ∧ Part000_Binary.decode (asBinary defaultContent) = Ok (ps, "default")
    ∧ Part001.decode (asFramed defaultContent) = Ok (ps, "default").
Proof.
  destruct (formats_agree_on_coordinates_and_colour defaultContent)
    as (pa & pb & pc & pd & ra & rb & rc & rd & H1 & H2 & _ & H3 & H4 & H5 & _ & _ & _
        & _ & _ & _ & _ & _ & Hra & Hrb & _ & _ & Hall).
  - done.
  - repeat constructor; simpl; lia.
  - simpl; lia.
  - reflexivity.
  - simpl; lia.
  - destruct Hall as (E1 & E2 & E3 & R1 & R2 & R3).
    + reflexivity.
    + reflexivity.
    + repeat constructor.
    + exists pa. subst pb pc pd. subst rb rc rd. subst ra.
      repeat split; assumption.
Defined.

(** ** Printing and scanning decimal numbers *)

Lemma digit_val_char (d : N) : (d < 10)%N → Fmt.digit_val (Fmt.digit_char d) = Some d.
Proof.
  intros Hd. unfold Fmt.digit_val, Fmt.digit_char.
  rewrite N_ascii_embedding by lia. cbv zeta.
  replace ((48 <=? 48 + d) && (48 + d <=? 57))%N with true
    by (symmetry; rewrite andb_true_iff, !N.leb_le; lia).
  f_equal. lia.
Qed.

Lemma digit_char_not_space (d : N) :
  (d < 10)%N →
  (N_of_ascii (Fmt.digit_char d) =? 10)%N = false
  ∧ Fmt.is_blank (Fmt.digit_char d) = false
  ∧ Fmt.digit_char d ≠ "-"%char ∧ Fmt.digit_char d ≠ "+"%char.
Proof.
  intros Hd.
  assert (Hc : (d = 0 ∨ d = 1 ∨ d = 2 ∨ d = 3 ∨ d = 4 ∨ d = 5 ∨ d = 6 ∨ d = 7
                ∨ d = 8 ∨ d = 9)%N) by lia.
  repeat destruct Hc as [->|Hc]; try subst d; repeat split; try done.
Qed.

Lemma scan_digits_stop (a : N) (s : string) :
  Fmt.starts_with_digit s = false → Fmt.scan_digits a s = (a, s).
Proof.
  destruct s as [|c s]; [done|]. simpl.
  destruct (Fmt.digit_val c); [|done].
  intros H. by rewrite bool_decide_eq_false in H; destruct H.
Qed.

Lemma scan_dec_digits (fuel : nat) :
  ∀ (n : N) (acc : string),
    (n < 10 * 10 ^ N.of_nat fuel)%N →
    Fmt.scan_digits 0 (Fmt.dec_digits fuel n acc) = Fmt.scan_digits n acc.
Proof.
  induction fuel as [|fuel IH]; intros n acc Hn.
  - cbn [Fmt.dec_digits Fmt.scan_digits].
    assert (n < 10)%N by (simpl in Hn; lia).
    rewrite N.mod_small, digit_val_char by lia. f_equal; lia.
  - cbn [Fmt.dec_digits].
    destruct (N.ltb_spec n 10) as [Hlt|Hge].
    + cbn [Fmt.scan_digits]. rewrite N.mod_small, digit_val_char by lia. f_equal; lia.
    + rewrite IH.
      2:{ rewrite Nnat.Nat2N.inj_succ, N.pow_succ_r' in Hn.
          apply N.Div0.div_lt_upper_bound. lia. }
      cbn [Fmt.scan_digits].
      rewrite digit_val_char by (apply N.mod_lt; lia).
      f_equal; pose proof (N.div_mod n 10); lia.
Qed.

Lemma dec_digits_head (fuel : nat) :
  ∀ (n : N) (acc : string),
    ∃ d s, (d < 10)%N ∧ Fmt.dec_digits fuel n acc = String (Fmt.digit_char d) s.
Proof.
  induction fuel as [|fuel IH]; intros n acc.
  - exists (n mod 10)%N, acc. split; [apply N.mod_lt; lia|done].
  - cbn [Fmt.dec_digits]. destruct (n <? 10)%N.
    + exists (n mod 10)%N, acc. split; [apply N.mod_lt; lia|done].
    + apply IH.
Qed.

Lemma dec_N_fuel (n : N) : (n < 10 * 10 ^ N.of_nat (N.to_nat (N.log2 n)))%N.
Proof.
  rewrite Nnat.N2Nat.id.
  destruct (N.eq_dec n 0%N) as [->|Hn]; [done|].
  assert (H1 : (n < 2 ^ N.succ (N.log2 n))%N) by (apply N.log2_spec; lia).
  assert (H2 : (2 ^ N.succ (N.log2 n) ≤ 10 ^ N.succ (N.log2 n))%N)
    by (apply N.pow_le_mono_l; lia).
  rewrite (N.pow_succ_r' 10) in H2. lia.
Qed.

(** A non-negative [int] printed with [%d] scans back with [%d], whatever
    follows it, provided what follows does not begin with a digit. *)
Lemma scan_int_d (z : Z) (rest : string) :
  (0 ≤ z)%Z → fits_int64 z = true →
  Fmt.starts_with_digit rest = false →
  Fmt.scan_int (Fmt.d z +:+ rest) = Some (z, rest).
Proof.
  intros Hz Hfit Hrest.
  assert (Hd : ∃ n, Fmt.d z = Fmt.dec_N n ∧ Z.of_N n = z).
  { destruct z as [|p|p]; [by exists 0%N|by exists (Npos p)|lia]. }
  destruct Hd as (n & -> & <-).
  unfold Fmt.dec_N.
  destruct (dec_digits_head (N.to_nat (N.log2 n)) n EmptyString) as (d & s & Hd & Hs).
  destruct (digit_char_not_space d Hd) as (Hnl & Hbl & Hm & Hp).
  unfold Fmt.scan_int.
  assert (Hskip : Fmt.skip_space (Fmt.dec_digits (N.to_nat (N.log2 n)) n "" +:+ rest)
                  = Some (Fmt.dec_digits (N.to_nat (N.log2 n)) n "" +:+ rest)).
  { rewrite Hs, app_String. cbn [Fmt.skip_space]. by rewrite Hnl, Hbl. }
  rewrite Hskip. cbn [mbind option_bind].
  assert (Hsign : ∀ (A : Type) (f g : string → A) (h : A),
            match Fmt.dec_digits (N.to_nat (N.log2 n)) n "" +:+ rest with
            | String "-"%char r => f r
            | String "+"%char r => g r
            | _ => h
            end = h).
  { intros A f g h. rewrite Hs, app_String.
    destruct (Fmt.digit_char d) as [[] [] [] [] [] [] [] []]; done. }
  rewrite (Hsign _ (λ r, (true, r)) (λ r, (false, r))).
  assert (Hstart : Fmt.starts_with_digit
                     (Fmt.dec_digits (N.to_nat (N.log2 n)) n "" +:+ rest) = true).
  { rewrite Hs, app_String. cbn [Fmt.starts_with_digit].
    rewrite digit_val_char by done. by apply bool_decide_eq_true. }
  rewrite Hstart.
  assert (Happ : ∀ fuel m acc, Fmt.dec_digits fuel m acc +:+ rest
                               = Fmt.dec_digits fuel m (acc +:+ rest)).
  { induction fuel as [|fuel IH]; intros m acc; cbn [Fmt.dec_digits]; [done|].
    destruct (m <? 10)%N; [done|]. by rewrite IH, app_String. }
  rewrite Happ, app_empty_l, scan_dec_digits by apply dec_N_fuel.
  rewrite scan_digits_stop by done. by rewrite Hfit.
Qed.

Lemma app_empty_r_s (s : string) : s +:+ "" = s.
Proof. induction s as [|a s IH]; [done|]. rewrite app_String. by f_equal. Qed.

Lemma Sscanf_printed (x y : Z) :
  (0 ≤ x)%Z → (0 ≤ y)%Z → fits_int64 x = true → fits_int64 y = true →
  Fmt.Sscanf_d_colon_d (Fmt.d x +:+ ":" +:+ Fmt.d y) = Some (x, y).
Proof.
  intros Hx Hy Hfx Hfy. unfold Fmt.Sscanf_d_colon_d.
  rewrite scan_int_d by done. cbn [mbind option_bind].
  rewrite app_String, app_empty_l.
  pose proof (scan_int_d y "" Hy Hfy eq_refl) as H.
  rewrite app_empty_r_s in H. by rewrite H.
Qed.

(** ** Pixel keys *)

Lemma inBounds_fits (x y : Z) :
  inBounds x y = true →
  (0 ≤ x)%Z ∧ (0 ≤ y)%Z ∧ fits_int64 x = true ∧ fits_int64 y = true.
Proof.
  intros H%inBounds_spec. unfold CanvasWidth, CanvasHeight in H.
  repeat split; try lia; apply fits_int64_small; lia.
Qed.

Lemma pixelKey_inj (r r' : string) (x y x' y' : Z) :
  Str.contains "/" r = false → Str.contains "/" r' = false →
  inBounds x y = true → inBounds x' y' = true →
  Fmt.pixelKey r x y = Fmt.pixelKey r' x' y' →
  r = r' ∧ x = x' ∧ y = y'.
Proof.
  intros Hr Hr' Hb Hb' H. rewrite !pixelKey_unfold in H.
  assert (r = r') as <-.
  { apply (under_prefix_same_room r r' (Fmt.d x' +:+ ":" +:+ Fmt.d y')); [done..|].
    rewrite <- H. apply has_prefix_app. }
  split; [done|].
  apply (inj (String.app (Fmt.roomPrefix r))) in H.
  apply inBounds_fits in Hb as (? & ? & ? & ?).
  apply inBounds_fits in Hb' as (? & ? & ? & ?).
  pose proof (Sscanf_printed x y) as E. rewrite H, Sscanf_printed in E by done.
  specialize (E ltac:(done) ltac:(done) ltac:(done) ltac:(done)).
  by injection E as -> ->.
Qed.

Lemma overlay_pixelKey (db : Database) (room : string) (canvas : list (list string))
    (p : Pixel) :
  get_err (faults db) (Fmt.pixelKey room (X p) (Y p)) = false →
  kv db !! Fmt.pixelKey room (X p) (Y p) = Some (JSON.Marshal_Pixel p) →
  inBounds (X p) (Y p) = true →
  Part003.overlay db (Fmt.roomPrefix room) canvas (Fmt.pixelKey room (X p) (Y p))
  = Grid.set canvas (X p) (Y p) (Color p).
Proof.
  intros Hg Hk Hb. unfold Part003.overlay.
  pose proof (inBounds_fits _ _ Hb) as (Hx & Hy & Hfx & Hfy).
  unfold DB.Get. rewrite Hg, Hk.
  rewrite pixelKey_unfold.
  replace (String.length (Fmt.roomPrefix room +:+ Fmt.d (X p) +:+ ":" +:+ Fmt.d (Y p))
           <=? String.length (Fmt.roomPrefix room))%nat with false.
  2:{ symmetry. apply Nat.leb_gt. rewrite !length_app_s. simpl. lia. }
  rewrite drop_app_s, Sscanf_printed, Hb by done.
  cbn [doc_len_is_zero JSON.Marshal_Pixel negb].
  change (Json (JObj _)) with (JSON.Marshal_Pixel p).
  by rewrite Unmarshal_Marshal_Pixel.
Qed.

Lemma range_overlay_cells (db : Database) (room : string) (keys : list string) :
  Str.contains "/" room = false →
  (∀ k, get_err (faults db) k = false) →
  ∀ canvas,
    Grid.complete canvas → NoDup keys → roomKeys db room keys →
    ∃ g, range (Part003.overlay db (Fmt.roomPrefix room)) canvas keys = Ok g
         ∧ Grid.complete g
         ∧ ∀ x y, inBounds x y = true →
                  Grid.cell g (Z.to_nat x) (Z.to_nat y)
                  = if decide (Fmt.pixelKey room x y ∈ keys)
                    then storedColor db (Fmt.pixelKey room x y)
                    else Grid.cell canvas (Z.to_nat x) (Z.to_nat y).
Proof.
  intros Hroom Hget. induction keys as [|k keys IH]; intros canvas Hc Hnd Hk.
  - exists canvas. split; [done|]. split; [done|]. intros x y _.
    by rewrite decide_False by apply not_elem_of_nil.
  - apply NoDup_cons in Hnd as [Hnin Hnd].
    destruct (Hk k ltac:(by left)) as (p & -> & Hb & Hp).
    cbn [range]. rewrite overlay_pixelKey by done.
    destruct (set_complete canvas (X p) (Y p) (Color p) Hc Hb) as (g1 & -> & Hg1 & Hcell).
    step_ok.
    destruct (IH g1 Hg1 Hnd) as (g & Hg & Hcg & Hcells).
    { intros k' Hin. apply Hk. by right. }
    exists g. split; [done|]. split; [done|].
    intros x y Hxy. rewrite Hcells by done.
    destruct (decide (Fmt.pixelKey room x y ∈ keys)) as [Hin|Hnin'].
    + by rewrite decide_True by (by right).
    + rewrite Hcell.
      destruct (decide (Z.to_nat x = Z.to_nat (X p) ∧ Z.to_nat y = Z.to_nat (Y p)))
        as [[Ex Ey]|Hne].
      * apply inBounds_spec in Hxy as Hxy'. apply inBounds_spec in Hb as Hb'.
        assert (x = X p) as -> by lia. assert (y = Y p) as -> by lia.
        destruct (decide (Z.to_nat (X p) < Z.to_nat CanvasWidth
                          ∧ Z.to_nat (Y p) < Z.to_nat CanvasHeight)%nat) as [_|Hbad];
          [|exfalso; apply Hbad; lia].
        destruct (decide (Fmt.pixelKey room (X p) (Y p)
                          ∈ Fmt.pixelKey room (X p) (Y p) :: keys)) as [_|Hbad];
          [|exfalso; apply Hbad, elem_of_cons; by left].
        unfold storedColor. rewrite Hp.
        by rewrite Unmarshal_Marshal_Pixel by (apply inBounds_fits in Hb; tauto).
      * rewrite decide_False; [done|].
        intros [Heq|Hin]%elem_of_cons; [|done].
        apply pixelKey_inj in Heq as (_ & -> & ->); try done. by apply Hne.
Qed.

(** ** The store after a history of pixel updates *)

Lemma filter_none {A} (P : A → Prop) `{!∀ x, Decision (P x)} (l : list A) :
  (∀ x, x ∈ l → ¬ P x) → filter P l = [].
Proof.
  induction l as [|a l IH]; intros Hall; [done|].
  rewrite filter_cons_False by (apply Hall; by left).
  apply IH. intros x Hx. apply Hall. by right.
Qed.

Lemma savePixels_lookup (room : string) (ps : list Pixel) (k : string) (db : Database) :
  (∀ k', put_err (faults db) k' = false) →
  kv (Common.savePixels room db ps) !! k
  = match last (filter (λ p, Fmt.pixelKey room (X p) (Y p) = k) ps) with
    | Some p => Some (JSON.Marshal_Pixel p)
    | None => kv db !! k
    end.
Proof.
  intros Hput. induction ps as [|p ps IH] using rev_ind; [done|].
  unfold Common.savePixels in *. rewrite foldl_snoc, filter_app, last_app.
  unfold Common.savePixel at 1. rewrite Put_lookup.
  fold (Common.savePixels room db ps). rewrite savePixels_faults, Hput.
  rewrite filter_cons, filter_nil.
  destruct (decide (Fmt.pixelKey room (X p) (Y p) = k)) as [Hk|Hk].
  - by rewrite decide_True by done.
  - rewrite decide_False by (by intros [? _]). exact IH.
Qed.

Lemma savePixels_canonical (room : string) (ps : list Pixel) (db : Database) :
  Str.contains "/" room = false →
  canonical db →
  Forall (λ p, inBounds (X p) (Y p) = true) ps →
  canonical (Common.savePixels room db ps).
Proof.
  intros Hroom Hdb Hps. induction ps as [|p ps IH] using rev_ind; [done|].
  apply Forall_app in Hps as [Hps Hp]. rewrite Forall_singleton in Hp.
  unfold Common.savePixels in *. rewrite foldl_snoc.
  intros k v. unfold Common.savePixel. rewrite Put_lookup.
  case_decide as Hk.
  - intros [= <-]. destruct Hk as [<- _]. exists room, p.
    split; [done|]. split; [exact Hp|]. done.
  - by apply IH.
Qed.

Lemma writes_snoc (history : list doc) (data : doc) (room : string) :
  writes (history ++ [data]) room
  = writes history room
    ++ match batchOf data with
       | Some (r, ps) => if String.eqb r room then ps else []
       | None => []
       end.
Proof. unfold writes. rewrite bind_app. simpl. by rewrite app_nil_r. Qed.

Lemma last_filter_key (r room : string) (ps : list Pixel) (x y : Z) :
  Str.contains "/" r = false → Str.contains "/" room = false →
  inBounds x y = true →
  last (filter (λ p, Fmt.pixelKey r (X p) (Y p) = Fmt.pixelKey room x y)
          (Common.validPixels ps))
  = last (filter (λ p, X p = x ∧ Y p = y) (if String.eqb r room then ps else [])).
Proof.
  intros Hr Hroom Hxy. unfold Common.validPixels. rewrite list_filter_filter.
  destruct (String.eqb_spec r room) as [->|Hne].
  - f_equal. apply list_filter_iff. intros p. split.
    + intros [Hk Hb]. by apply pixelKey_inj in Hk as (_ & -> & ->).
    + intros [<- <-]. done.
  - rewrite filter_none; [done|].
    intros p _ [Hk Hb]. by apply pixelKey_inj in Hk as (-> & _).
Qed.

Lemma replay_invariant (history : list doc) :
  Forall slashFree history →
  faults (canvasDB (replay history)) = noFaults
  ∧ canonical (canvasDB (replay history))
  ∧ ∀ room x y,
      Str.contains "/" room = false → inBounds x y = true →
      kv (canvasDB (replay history)) !! Fmt.pixelKey room x y
      = JSON.Marshal_Pixel <$> lastWrite history room x y.
Proof.
  induction history as [|data history IH] using rev_ind; intros Hs.
  - split; [done|]. split.
    { intros k v H. change ((∅ : gmap string doc) !! k = Some v) in H.
      by rewrite lookup_empty in H. }
    intros room x y _ _. apply lookup_empty.
  - apply Forall_app in Hs as [Hs Hd]. rewrite Forall_singleton in Hd.
    destruct (IH Hs) as (Hf & Hc & Hl).
    unfold replay in *. rewrite foldl_snoc.
    set (w := foldl ingest emptyWorld history) in *.
    unfold lastWrite. setoid_rewrite writes_snoc.
    destruct (JSON.Unmarshal_PixelBatch data) as [b| |] eqn:Hu.
    2,3: assert (Hi : ingest w data = w)
           by (unfold ingest, Part003.onPixelUpdate; by rewrite Hu);
         assert (Hb : batchOf data = None) by (unfold batchOf; by rewrite Hu);
         rewrite Hi, Hb; split; [done|]; split; [done|]; intros room x y Hr Hxy;
         rewrite app_nil_r; by apply Hl.
    set (r := effectiveRoom (JSON.Room b)).
    assert (Hb : batchOf data = Some (r, JSON.Pixels b))
      by (unfold batchOf; by rewrite Hu).
    assert (Hi : ingest w data
                 = Common.withCanvas w
                     (Common.savePixels r (canvasDB w)
                        (Common.validPixels (JSON.Pixels b)))).
    { unfold ingest, Part003.onPixelUpdate. rewrite Hu, Hf.
      cbn [open_err noFaults]. by rewrite savePixelChecked_valid. }
    specialize (Hd _ _ Hb).
    rewrite Hi, Hb. cbn [canvasDB Common.withCanvas].
    split; [by rewrite savePixels_faults|].
    split.
    { apply savePixels_canonical; [done|done|].
      apply Forall_forall. intros p Hp. by apply validPixels_inBounds in Hp as [_ ?]. }
    intros room x y Hroom Hxy.
    rewrite savePixels_lookup by (intros k'; by rewrite Hf).
    rewrite last_filter_key by done.
    rewrite filter_app, last_app.
    destruct (last (filter _ (if String.eqb r room then JSON.Pixels b else [])));
      [done|]. by apply Hl.
Qed.

Lemma blank_cell (x y : Z) :
  inBounds x y = true → Grid.cell Grid.blank (Z.to_nat x) (Z.to_nat y) = Some "#ffffff".
Proof.
  intros H%inBounds_spec. unfold Grid.cell, Grid.blank.
  rewrite lookup_replicate_2 by lia. cbn [mbind option_bind].
  by rewrite lookup_replicate_2 by lia.
Qed.

Lemma canonical_roomKeys (db : Database) (room : string) :
  canonical db → Str.contains "/" room = false →
  roomKeys db room (DB.keys_under (Fmt.roomPrefix room) (kv db)).
Proof.
  intros Hc Hroom k Hk. apply elem_of_keys_under in Hk as [Hp [v Hv]].
  destruct (Hc k v Hv) as (room' & p & Hr' & Hb & -> & ->).
  rewrite pixelKey_unfold in Hp. apply under_prefix_same_room in Hp as <-; [|done..].
  by exists p.
Qed.

(** ** C1: what the canvas query shows after pixel updates *)

(** C1, as stated, fails in its second half: a cell never written for a
    room can show a colour. The one pixel of the history goes to room
    "r1/10:5", cell (3,4); its key "/r1/10:5/3:4" lies under the prefix of
    room "r1" and its suffix scans as 10:5, so the query for "r1" shows the
    colour at [5][10]. *)
Lemma other_room_shows_through :
  ∃ g,
    lastWrite slashRoomHistory "r1" 10 5 = None
    ∧ writes slashRoomHistory "r1" = []
    ∧ Part003.getCanvas (Some "r1") (replay slashRoomHistory)
      = Replied 0 200 (BodyCanvas g) (replay slashRoomHistory)
    ∧ Grid.cell g 10 5 = Some "#000000".
Proof.
  eexists. split; [vm_compute; reflexivity|].
  split; [vm_compute; reflexivity|].
  split; [vm_compute; reflexivity|]. vm_compute. reflexivity.
Qed.

(** C1, amended. Start from an empty store and let any sequence of pixel
    updates arrive, none of them for a room whose name contains '/'. Then
    the canvas query for a room whose name contains no '/' answers with a
    complete grid in which every cell [y][x], 0≤x<90 and 0≤y<90, holds the
    colour of the last pixel that was sent to (x, y) of that room, and
    "#ffffff" if no pixel was ever sent there. *)
Theorem canvas_shows_last_write (history : list doc) (room : string) (x y : Z) :
  Forall slashFree history →
  Str.contains "/" room = false →
  inBounds x y = true →
  ∃ g,
    Part003.getCanvas (Some room) (replay history)
    = Replied 0 200 (BodyCanvas g) (replay history)
    ∧ Grid.complete g
    ∧ Grid.cell g (Z.to_nat x) (Z.to_nat y)
      = Some (default "#ffffff" (Color <$> lastWrite history room x y)).
Proof.
  intros Hs Hroom Hxy.
  destruct (replay_invariant history Hs) as (Hf & Hc & Hl).
  set (w := replay history) in *.
  unfold Part003.getCanvas, Common.sendJSONResponse, DB.List. rewrite Hf.
  cbn [open_err list_err noFaults].
  destruct (range_overlay_cells (canvasDB w) room
              (DB.keys_under (Fmt.roomPrefix room) (kv (canvasDB w))) Hroom
              ltac:(intros k; by rewrite Hf) Grid.blank blank_complete
              (NoDup_keys_under _ _) (canonical_roomKeys _ _ Hc Hroom))
    as (g & -> & Hg & Hcell).
  exists g. split; [done|]. split; [done|].
  rewrite Hcell by done. specialize (Hl room x y Hroom Hxy).
  destruct (lastWrite history room x y) as [p|] eqn:Hlast.
  - rewrite decide_True.
    2:{ apply elem_of_keys_under. split; [|by rewrite Hl].
        rewrite pixelKey_unfold. apply has_prefix_app. }
    unfold storedColor. rewrite Hl. cbn [fmap option_fmap option_map].
    unfold lastWrite in Hlast. apply last_Some_elem_of in Hlast.
    apply list_elem_of_filter in Hlast as [[Hx Hy] _].
    apply inBounds_fits in Hxy as (_ & _ & Hfx & Hfy).
    by rewrite Unmarshal_Marshal_Pixel by (by rewrite ?Hx, ?Hy).
  - rewrite decide_False.
    2:{ rewrite elem_of_keys_under, Hl. by intros [_ [? ?]]. }
    by apply blank_cell.
Qed.

Lemma canvas_shows_last_write_witness :
  ∃ g,
    Part003.getCanvas (Some "r1") (replay specExampleHistory)
    = Replied 0 200 (BodyCanvas g) (replay specExampleHistory)
    ∧ Grid.complete g
    ∧ Grid.cell g 10 5 = Some "#ff0000".
Proof.
  destruct (canvas_shows_last_write specExampleHistory "r1" 10 5) as (g & H1 & H2 & H3).
  - repeat constructor. intros r ps H. vm_compute in H. by injection H as <- <-.
  - reflexivity.
  - reflexivity.
  - exists g. split; [exact H1|]. split; [exact H2|exact H3].
Defined.

Example spec_example_untouched_cell :
  ∃ g,
    Part003.getCanvas (Some "r1") (replay specExampleHistory)
    = Replied 0 200 (BodyCanvas g) (replay specExampleHistory)
    ∧ Grid.cell g 5 10 = Some "#ffffff" ∧ Grid.cell g 0 0 = Some "#ffffff".
Proof. eexists. split; [vm_compute; reflexivity|]. split; vm_compute; reflexivity. Qed.

(** * Further properties of the handlers and their helpers *)

(** ** Keys written and keys read *)

(** A negative [int] printed with [%d] scans back as well: the sign is
    read, then the digits. *)
Lemma scan_int_d_neg (p : positive) (rest : string) :
  fits_int64 (Zneg p) = true →
  Fmt.starts_with_digit rest = false →
  Fmt.scan_int (Fmt.d (Zneg p) +:+ rest) = Some (Zneg p, rest).
Proof.
  intros Hfit Hrest. cbn [Fmt.d]. rewrite app_String.
  unfold Fmt.scan_int. cbn [Fmt.skip_space].
  change (N_of_ascii "-" =? 10)%N with false. change (Fmt.is_blank "-") with false.
  cbv iota. cbn [mbind option_bind].
  set (n := Npos p). unfold Fmt.dec_N.
  destruct (dec_digits_head (N.to_nat (N.log2 n)) n EmptyString) as (d & s & Hd & Hs).
  assert (Hstart : Fmt.starts_with_digit
                     (Fmt.dec_digits (N.to_nat (N.log2 n)) n "" +:+ rest) = true).
  { rewrite Hs, app_String. cbn [Fmt.starts_with_digit].
    rewrite digit_val_char by done. by apply bool_decide_eq_true. }
  rewrite Hstart.
  assert (Happ : ∀ fuel m acc, Fmt.dec_digits fuel m acc +:+ rest
                               = Fmt.dec_digits fuel m (acc +:+ rest)).
  { induction fuel as [|fuel IH]; intros m acc; cbn [Fmt.dec_digits]; [done|].
    destruct (m <? 10)%N; [done|]. by rewrite IH, app_String. }
  rewrite Happ, app_empty_l, scan_dec_digits by apply dec_N_fuel.
  rewrite scan_digits_stop by done.
  change (- Z.of_N n)%Z with (Zneg p). by rewrite Hfit.
Qed.

Lemma scan_int_printed (z : Z) (rest : string) :
  fits_int64 z = true →
  Fmt.starts_with_digit rest = false →
  Fmt.scan_int (Fmt.d z +:+ rest) = Some (z, rest).
Proof.
  intros Hfit Hrest. destruct z as [|p|p].
  - by apply scan_int_d.
  - by apply scan_int_d.
  - by apply scan_int_d_neg.
Qed.

(** X1. Every key that onPixelUpdate builds is read back by getCanvas as the
    coordinates it was built from: the key lies under the room's prefix, is
    longer than it, and what follows the prefix scans as [x] and [y]. *)
Theorem pixel_key_scans_back (room : string) (x y : Z) :
  fits_int64 x = true → fits_int64 y = true →
  let key := Fmt.pixelKey room x y in
  let roomPrefix := Fmt.roomPrefix room in
  Str.has_prefix roomPrefix key = true
  ∧ (String.length roomPrefix < String.length key)%nat
  ∧ Fmt.Sscanf_d_colon_d (Str.drop (String.length roomPrefix) key) = Some (x, y).
Proof.
  intros Hx Hy key roomPrefix. subst key roomPrefix.
  rewrite pixelKey_unfold. split; [apply has_prefix_app|].
  split.
  - rewrite length_app_s.
    destruct x as [|p|p]; cbn [Fmt.d]; try (rewrite app_String; simpl; lia).
    unfold Fmt.dec_N.
    destruct (dec_digits_head (N.to_nat (N.log2 (Npos p))) (Npos p) EmptyString)
      as (d & s & _ & ->).
    rewrite app_String. simpl. lia.
  - rewrite drop_app_s. unfold Fmt.Sscanf_d_colon_d.
    rewrite scan_int_printed by done. cbn [mbind option_bind].
    rewrite app_String, app_empty_l.
    pose proof (scan_int_printed y "" Hy eq_refl) as H.
    rewrite app_empty_r_s in H. by rewrite H.
Qed.

Lemma pixel_key_scans_back_witness :
  Fmt.Sscanf_d_colon_d (Str.drop (String.length (Fmt.roomPrefix "r1"))
                          (Fmt.pixelKey "r1" (-7) 9223372036854775807))
  = Some ((-7)%Z, 9223372036854775807%Z).
Proof.
  apply (pixel_key_scans_back "r1" (-7) 9223372036854775807); reflexivity.
Defined.

(** ** Decoding JSON never stops the process *)

Lemma bind_no_panic {A B} (m : res A) (k : A → res B) :
  m ≠ Panic → (∀ a, k a ≠ Panic) → (m ≫= k) ≠ Panic.
Proof. destruct m; [intros _ H; apply H|done..]. Qed.

Lemma into_int_no_panic (cur : Z) (v : json) : JSON.into_int cur v ≠ Panic.
Proof. destruct v; try done. simpl. by destruct (fits_int64 z). Qed.

Lemma into_string_no_panic (cur : string) (v : json) : JSON.into_string cur v ≠ Panic.
Proof. by destruct v. Qed.

Lemma members_no_panic {A} (field : A → string → json → res A) :
  (∀ a k v, field a k v ≠ Panic) →
  ∀ ms a, JSON.members field a ms ≠ Panic.
Proof.
  intros Hf. induction ms as [|[k v] ms IH]; intros a; [done|].
  cbn [JSON.members]. apply bind_no_panic; [apply Hf|apply IH].
Qed.

Lemma into_struct_no_panic {A} (field : A → string → json → res A) (a : A) (v : json) :
  (∀ a k v, field a k v ≠ Panic) → JSON.into_struct field a v ≠ Panic.
Proof. intros Hf. destruct v; try done. by apply members_no_panic. Qed.

Lemma elements_no_panic {A} (elem : json → res A) :
  (∀ v, elem v ≠ Panic) → ∀ items, JSON.elements elem items ≠ Panic.
Proof.
  intros He. induction items as [|v items IH]; [done|].
  cbn [JSON.elements]. apply bind_no_panic; [apply He|]. intros a.
  apply bind_no_panic; [apply IH|done].
Qed.

Lemma into_slice_no_panic {A} (elem : json → res A) (cur : list A) (v : json) :
  (∀ v, elem v ≠ Panic) → JSON.into_slice elem cur v ≠ Panic.
Proof. intros He. destruct v; try done. by apply elements_no_panic. Qed.

Lemma string_field_no_panic {A} (cur : string) (v : json) (k : string → res A) :
  (∀ s, k s ≠ Panic) → (JSON.into_string cur v ≫= k) ≠ Panic.
Proof. intros H. apply bind_no_panic; [apply into_string_no_panic|done]. Qed.

Lemma int_field_no_panic {A} (cur : Z) (v : json) (k : Z → res A) :
  (∀ z, k z ≠ Panic) → (JSON.into_int cur v ≫= k) ≠ Panic.
Proof. intros H. apply bind_no_panic; [apply into_int_no_panic|done]. Qed.

Lemma Pixel_field_no_panic (p : Pixel) (k : string) (v : json) :
  JSON.Pixel_field p k v ≠ Panic.
Proof.
  unfold JSON.Pixel_field.
  repeat case_match;
    first [by apply string_field_no_panic | by apply int_field_no_panic | done].
Qed.

Lemma into_Pixel_no_panic (v : json) : JSON.into_Pixel v ≠ Panic.
Proof. apply into_struct_no_panic, Pixel_field_no_panic. Qed.

Lemma ChatMessage_field_no_panic (m : ChatMessage) (k : string) (v : json) :
  JSON.ChatMessage_field m k v ≠ Panic.
Proof.
  unfold JSON.ChatMessage_field.
  repeat case_match;
    first [by apply string_field_no_panic | by apply int_field_no_panic | done].
Qed.

Lemma Unmarshal_Pixels_no_panic (data : doc) : JSON.Unmarshal_Pixels data ≠ Panic.
Proof.
  destruct data; [|done]. apply into_slice_no_panic, into_Pixel_no_panic.
Qed.


Lemma into_any_no_panic (v : json) : JSON.into_any v ≠ Panic.
Proof.
  destruct v; try done. cbn [JSON.into_any]. apply bind_no_panic; [|done].
  unfold JSON.float64_of_int_literal. cbv zeta.
  repeat match goal with |- (if ?c then _ else _) ≠ Panic => destruct c end; done.
Qed.

Lemma Unmarshal_CompressedBatch_no_panic (data : doc) :
  JSON.Unmarshal_CompressedBatch data ≠ Panic.
Proof.
  destruct data; [|done]. apply into_struct_no_panic. intros b k v.
  unfold JSON.CompressedBatch_field.
  repeat case_match;
    first [by apply string_field_no_panic | by apply int_field_no_panic | done | idtac].
  apply bind_no_panic; [|done].
  apply into_slice_no_panic. intros v'. apply into_slice_no_panic, into_any_no_panic.
Qed.



(** ** The same payload delivered twice *)














(** ** A chat message, posted and queried *)

Lemma bind_Ok_inv {A B} (m : res A) (k : A → res B) (b : B) :
  (m ≫= k) = Ok b → ∃ a, m = Ok a ∧ k a = Ok b.
Proof. destruct m as [a| |]; [|done..]. intros H. by exists a. Qed.

Lemma into_int_fits (cur z : Z) (v : json) :
  fits_int64 cur = true → JSON.into_int cur v = Ok z → fits_int64 z = true.
Proof.
  intros Hc. destruct v; try done; simpl.
  - by intros [= <-].
  - destruct (fits_int64 z0) eqn:E; [|done]. by intros [= <-].
Qed.

Lemma ChatMessage_field_fits (m m' : ChatMessage) (k : string) (v : json) :
  fits_int64 (Timestamp m) = true →
  JSON.ChatMessage_field m k v = Ok m' →
  fits_int64 (Timestamp m') = true.
Proof.
  intros Hm. unfold JSON.ChatMessage_field.
  repeat match goal with
  | |- (if ?c then _ else _) = _ → _ => destruct c
  end;
  try (intros (s & Hs & [= <-])%bind_Ok_inv; try done; by eapply into_int_fits).
  by intros [= <-].
Qed.

Lemma members_ChatMessage_fits (ms : list (string * json)) :
  ∀ m m', fits_int64 (Timestamp m) = true →
          JSON.members JSON.ChatMessage_field m ms = Ok m' →
          fits_int64 (Timestamp m') = true.
Proof.
  induction ms as [|[k v] ms IH]; intros m m' Hm; [by intros [= <-]|].
  cbn [JSON.members]. intros (m1 & H1 & H2)%bind_Ok_inv.
  eapply IH; [|exact H2]. by eapply ChatMessage_field_fits.
Qed.

(** A decoded timestamp is an [int64]. *)
Lemma Unmarshal_ChatMessage_fits (data : doc) (m : ChatMessage) :
  JSON.Unmarshal_ChatMessage data = Ok m → fits_int64 (Timestamp m) = true.
Proof.
  destruct data as [v|]; [|done]. destruct v; try done.
  - by intros [= <-].
  - by apply members_ChatMessage_fits.
Qed.

Lemma members_ChatEnvelope_fits (ms : list (string * json)) :
  ∀ e e', fits_int64 (Timestamp (JSON.Msg e)) = true →
          JSON.members JSON.ChatEnvelope_field e ms = Ok e' →
          fits_int64 (Timestamp (JSON.Msg e')) = true.
Proof.
  induction ms as [|[k v] ms IH]; intros e e' He; [by intros [= <-]|].
  cbn [JSON.members]. intros (e1 & H1 & H2)%bind_Ok_inv.
  eapply IH; [|exact H2]. revert H1. unfold JSON.ChatEnvelope_field.
  destruct (JSON.names k "room"); [by intros (s & _ & [= <-])%bind_Ok_inv|].
  destruct (JSON.names k "sourceId"); [by intros (s & _ & [= <-])%bind_Ok_inv|].
  intros (m & Hm & [= <-])%bind_Ok_inv. by eapply ChatMessage_field_fits.
Qed.

Lemma Unmarshal_ChatEnvelope_fits (data : doc) (e : JSON.ChatEnvelope) :
  JSON.Unmarshal_ChatEnvelope data = Ok e →
  fits_int64 (Timestamp (JSON.Msg e)) = true.
Proof.
  destruct data as [v|]; [|done]. destruct v; try done.
  - by intros [= <-].
  - by apply members_ChatEnvelope_fits.
Qed.

(** What onChatMessages stores, getMessages decodes to the same record. *)
Lemma Unmarshal_Marshal_ChatMessage (m : ChatMessage) :
  fits_int64 (Timestamp m) = true →
  JSON.Unmarshal_ChatMessage (JSON.Marshal_ChatMessage m) = Ok m.
Proof.
  intros Hf. destruct m as [i u n t ts]. simpl in Hf.
  unfold JSON.Marshal_ChatMessage, JSON.Unmarshal_ChatMessage, JSON.into_struct.
  cbn [ID MsgUserID MsgUsername Message Timestamp].
  cbn [JSON.members]. unfold JSON.ChatMessage_field.
  eval_names. cbn [JSON.into_string JSON.into_int ID MsgUserID MsgUsername Message
                   Timestamp zeroChatMessage].
  repeat step_ok. cbn [ID MsgUserID MsgUsername Message Timestamp].
  rewrite Hf. by repeat step_ok.
Qed.

(** The archive of a prefix after a put under a key that was free. *)
Lemma archive_insert_fresh (db : Database) (prefix key : string) (m : ChatMessage) :
  kv db !! key = None →
  Str.has_prefix prefix key = true →
  (String.length prefix < String.length key)%nat →
  get_err (faults db) key = false →
  fits_int64 (Timestamp m) = true →
  archive (mkDatabase (<[key := JSON.Marshal_ChatMessage m]> (kv db)) (faults db)) prefix
  ≡ₚ m :: archive db prefix.
Proof.
  intros Hnone Hp Hlen Hget Hfit. unfold archive. cbn [kv].
  rewrite map_to_list_insert by done. cbn [omap list_omap].
  assert (Hd : decodable
                 (mkDatabase (<[key := JSON.Marshal_ChatMessage m]> (kv db)) (faults db))
                 prefix (key, JSON.Marshal_ChatMessage m) = Some m).
  { unfold decodable. cbn [fst snd faults]. rewrite Hp, Hget.
    apply Nat.ltb_lt in Hlen. rewrite Hlen. cbn [andb negb].
    by rewrite Unmarshal_Marshal_ChatMessage. }
  rewrite Hd. by constructor.
Qed.

(** The chat query of a room whose database opens and lists: the archive of
    the room's prefix, sorted by timestamp. *)
Lemma chat_room_query
    (sort_Slice : (ChatMessage → ChatMessage → bool) → list ChatMessage → list ChatMessage)
    (w : World) (room : string) :
  SortSliceSpec sort_Slice →
  open_err (faults (chatDB w)) = false →
  list_err (faults (chatDB w)) = false →
  ∃ msgs,
    Part003.getMessages sort_Slice (Some room) w = Replied 0 200 (BodyMessages msgs) w
    ∧ msgs ≡ₚ archive (chatDB w) (Fmt.roomPrefix room)
    ∧ Sorted (λ a b, (Timestamp a ≤ Timestamp b)%Z) msgs.
Proof.
  intros [Hperm Hsorted] Ho Hl. eexists. split; [|split].
  - unfold Part003.getMessages, Common.sendJSONResponse, DB.List. by rewrite Ho, Hl.
  - rewrite Hperm, collect_readAt, app_nil_l. by rewrite archive_listing.
  - apply sorted_by_timestamp, Hsorted, less_strictWeak.
Qed.

(** X4. A chat message posted under an id that is free in its room is what the
    room's query gains: afterwards the query returns the records it returned
    before and the message, sorted by timestamp. The query of every other
    room returns what it returned before, when neither room name contains
    '/'. *)
Theorem posted_message_is_returned
    (sort_Slice : (ChatMessage → ChatMessage → bool) → list ChatMessage → list ChatMessage)
    (data : doc) (e : JSON.ChatEnvelope) (w : World) (r' : string) :
  SortSliceSpec sort_Slice →
  JSON.Unmarshal_ChatEnvelope data = Ok e →
  let room := effectiveRoom (JSON.MsgRoom e) in
  let key := Fmt.chatKey room (ID (JSON.Msg e)) in
  ID (JSON.Msg e) ≠ "" →
  open_err (faults (chatDB w)) = false →
  list_err (faults (chatDB w)) = false →
  put_err (faults (chatDB w)) key = false →
  get_err (faults (chatDB w)) key = false →
  kv (chatDB w) !! key = None →
  ∃ w' before after,
    Part003.onChatMessages data w = Done 0 w'
    ∧ Part003.getMessages sort_Slice (Some room) w
      = Replied 0 200 (BodyMessages before) w
    ∧ Part003.getMessages sort_Slice (Some room) w'
      = Replied 0 200 (BodyMessages after) w'
    ∧ after ≡ₚ JSON.Msg e :: before
    ∧ Sorted (λ a b, (Timestamp a ≤ Timestamp b)%Z) after
    ∧ (Str.contains "/" room = false → Str.contains "/" r' = false → r' ≠ room →
       ∃ others others',
         Part003.getMessages sort_Slice (Some r') w
         = Replied 0 200 (BodyMessages others) w
         ∧ Part003.getMessages sort_Slice (Some r') w'
           = Replied 0 200 (BodyMessages others') w'
         ∧ others' ≡ₚ others).
Proof.
  intros Hsort Hd room key Hid Ho Hl Hput Hget Hfree.
  set (m := JSON.Msg e).
  set (db' := mkDatabase (<[key := JSON.Marshal_ChatMessage m]> (kv (chatDB w)))
                (faults (chatDB w))).
  assert (Hpost : Part003.onChatMessages data w = Done 0 (Common.withChat w db')).
  { unfold Part003.onChatMessages. rewrite Hd, Ho.
    fold (effectiveRoom (JSON.MsgRoom e)). fold room. fold key.
    unfold DB.Put. by rewrite Hput. }
  destruct (chat_room_query sort_Slice w room Hsort Ho Hl) as (before & Hb & Hpb & _).
  destruct (chat_room_query sort_Slice (Common.withChat w db') room Hsort Ho Hl)
    as (after & Ha & Hpa & Hsa).
  exists (Common.withChat w db'), before, after.
  split; [exact Hpost|]. split; [exact Hb|]. split; [exact Ha|].
  split.
  { rewrite Hpa, Hpb. cbn [chatDB Common.withChat]. subst db'.
    apply archive_insert_fresh; [done| |  |done|].
    - subst key. rewrite chatKey_unfold. apply has_prefix_app.
    - subst key. rewrite chatKey_unfold, length_app_s.
      destruct (ID (JSON.Msg e)); [done|simpl; lia].
    - by apply (Unmarshal_ChatEnvelope_fits data). }
  split; [exact Hsa|].
  intros Hr Hr' Hne.
  destruct (chat_room_query sort_Slice w r' Hsort Ho Hl) as (others & Hq & Hpo & _).
  destruct (chat_room_query sort_Slice (Common.withChat w db') r' Hsort Ho Hl)
    as (others' & Hq' & Hpo' & _).
  exists others, others'. split; [exact Hq|]. split; [exact Hq'|].
  rewrite Hpo', Hpo. cbn [chatDB Common.withChat].
  apply archive_agree; [done|].
  intros k Hk. subst db'. cbn [kv].
  apply lookup_insert_ne. intros <-.
  subst key. rewrite chatKey_unfold in Hk.
  apply under_prefix_same_room in Hk; done.
Qed.

Lemma posted_message_is_returned_witness :
  ∃ w' after,
    Part003.onChatMessages (chatAt "m1" 1700000000) emptyWorld = Done 0 w'
    ∧ Part003.getMessages Insertion.sort (Some "r1") w'
      = Replied 0 200 (BodyMessages after) w'
    ∧ after ≡ₚ [mkChatMessage "m1" "u1" "alice" "hello" 1700000000].
Proof.
  destruct (posted_message_is_returned Insertion.sort (chatAt "m1" 1700000000)
              (JSON.mkChatEnvelope (mkChatMessage "m1" "u1" "alice" "hello" 1700000000)
                 "r1" "")
              emptyWorld "r2")
    as (w' & before & after & H1 & H2 & H3 & H4 & _).
  - exact insertion_sort_spec.
  - reflexivity.
  - discriminate.
  - reflexivity.
  - reflexivity.
  - reflexivity.
  - reflexivity.
  - reflexivity.
  - exists w', after. split; [exact H1|]. split; [exact H3|].
    injection H2 as <-. exact H4.
Defined.

(** ** Clearing, then querying *)

Lemma clearIn_faults (db : Database) (room : string) :
  faults (Common.clearIn db room) = faults db.
Proof.
  unfold Common.clearIn. destruct (DB.List db (Fmt.roomPrefix room)); [|done..].
  apply deleteAll_faults.
Qed.

Lemma keys_under_cleared (db : Database) (room : string) :
  list_err (faults db) = false →
  (∀ k, delete_err (faults db) k = false) →
  DB.keys_under (Fmt.roomPrefix room) (kv (Common.clearIn db room)) = [].
Proof.
  intros Hl Hd. apply elem_of_nil_inv. intros k [Hp [v Hv]]%elem_of_keys_under.
  rewrite clearIn_lookup in Hv by done. by rewrite Hp in Hv.
Qed.

Lemma clearIn_twice (db : Database) (room : string) :
  list_err (faults db) = false →
  (∀ k, delete_err (faults db) k = false) →
  Common.clearIn (Common.clearIn db room) room = Common.clearIn db room.
Proof.
  intros Hl Hd. unfold Common.clearIn at 1. unfold DB.List.
  by rewrite clearIn_faults, Hl, keys_under_cleared.
Qed.

(** X5. After clearData has cleared the canvas of a room (the room "default"
    when the request names none), with a database that opens, lists and
    deletes, the canvas query of that room answers the all-background grid
    in every generation that opens the database per request, src/backend.go
    included; clearing again changes nothing. *)
Theorem cleared_canvas_is_blank (w : World) (room : option string) :
  open_err (faults (canvasDB w)) = false →
  list_err (faults (canvasDB w)) = false →
  (∀ k, delete_err (faults (canvasDB w)) k = false) →
  ∃ w',
    Part007.clearData room (Some "canvas") w
    = Replied 0 200 (BodyText "Canvas cleared") w'
    ∧ chatDB w' = chatDB w
    ∧ Part003.getCanvas (Some (Common.getRoomParam room)) w'
      = Replied 0 200 (BodyCanvas Grid.blank) w'
    ∧ Part002.getCanvas (Some (Common.getRoomParam room)) w'
      = Replied 0 200 (BodyCanvas Grid.blank) w'
    ∧ BackendGo.getCanvas (Some (Common.getRoomParam room)) w'
      = Replied 0 200 (BodyCanvas Grid.blank) w'
    ∧ Part007.clearData room (Some "canvas") w'
      = Replied 0 200 (BodyText "Canvas cleared") w'.
Proof.
  intros Ho Hl Hd.
  set (r := Common.getRoomParam room).
  exists (Common.withCanvas w (Common.clearIn (canvasDB w) r)).
  assert (Hk := keys_under_cleared (canvasDB w) r Hl Hd).
  assert (Hf := clearIn_faults (canvasDB w) r).
  split.
  { unfold Part007.clearData, Common.clearData. fold r. cbn. by rewrite Ho. }
  split; [done|].
  split.
  { unfold Part003.getCanvas, DB.List, Common.withCanvas. cbn [canvasDB].
    by rewrite Hf, Ho, Hl, Hk. }
  split.
  { unfold Part002.getCanvas, Part002.render, DB.List, Common.withCanvas.
    cbn [Utils.getRoomParamRequired canvasDB].
    by rewrite Hf, Ho, Hl, Hk. }
  split.
  { unfold BackendGo.getCanvas, DB.List, Common.withCanvas. cbn [canvasDB].
    by rewrite Hf, Ho, Hl, Hk. }
  unfold Part007.clearData, Common.clearData, Common.withCanvas. fold r. cbn.
  rewrite Hf, Ho. by rewrite clearIn_twice.
Qed.

Lemma cleared_canvas_is_blank_witness :
  ∃ w',
    Part007.clearData None (Some "canvas") (replay defaultRoomHistory)
    = Replied 0 200 (BodyText "Canvas cleared") w'
    ∧ BackendGo.getCanvas (Some "default") w'
      = Replied 0 200 (BodyCanvas Grid.blank) w'.
Proof.
  destruct (cleared_canvas_is_blank (replay defaultRoomHistory) None)
    as (w' & H1 & _ & _ & _ & H2 & _).
  - reflexivity.
  - reflexivity.
  - intros k. reflexivity.
  - exists w'. split; [exact H1|exact H2].
Defined.

(** X6. The same for the chat: after clearData has cleared the chat of a room,
    the room's chat query answers with no message. *)
Theorem cleared_chat_is_empty
    (sort_Slice : (ChatMessage → ChatMessage → bool) → list ChatMessage → list ChatMessage)
    (w : World) (room : option string) :
  SortSliceSpec sort_Slice →
  open_err (faults (chatDB w)) = false →
  list_err (faults (chatDB w)) = false →
  (∀ k, delete_err (faults (chatDB w)) k = false) →
  ∃ w',
    Part007.clearData room (Some "chat") w = Replied 0 200 (BodyText "Chat cleared") w'
    ∧ canvasDB w' = canvasDB w
    ∧ Part003.getMessages sort_Slice (Some (Common.getRoomParam room)) w'
      = Replied 0 200 (BodyMessages []) w'
    ∧ BackendGo.getMessages sort_Slice (Some (Common.getRoomParam room)) w'
      = Replied 0 200 (BodyMessages []) w'
    ∧ Part007.clearData room (Some "chat") w'
      = Replied 0 200 (BodyText "Chat cleared") w'.
Proof.
  intros [Hperm _] Ho Hl Hd.
  set (r := Common.getRoomParam room).
  exists (Common.withChat w (Common.clearIn (chatDB w) r)).
  assert (Hk := keys_under_cleared (chatDB w) r Hl Hd).
  assert (Hf := clearIn_faults (chatDB w) r).
  assert (Hnil : ∀ less, sort_Slice less [] = [])
    by (intros less; apply Permutation_nil_r; by rewrite Hperm).
  split.
  { unfold Part007.clearData, Common.clearData. fold r. cbn. by rewrite Ho. }
  split; [done|].
  split.
  { unfold Part003.getMessages, DB.List, Common.withChat. cbn [chatDB].
    by rewrite Hf, Ho, Hl, Hk, Hnil. }
  split.
  { unfold BackendGo.getMessages, DB.List, Common.withChat. cbn [chatDB].
    by rewrite Hf, Ho, Hl, Hk, Hnil. }
  unfold Part007.clearData, Common.clearData, Common.withChat. fold r. cbn.
  rewrite Hf, Ho. by rewrite clearIn_twice.
Qed.

Lemma cleared_chat_is_empty_witness :
  ∃ w',
    Part007.clearData (Some "r1") (Some "chat") twoMessages
    = Replied 0 200 (BodyText "Chat cleared") w'
    ∧ Part003.getMessages Insertion.sort (Some "r1") w'
      = Replied 0 200 (BodyMessages []) w'.
Proof.
  destruct (cleared_chat_is_empty Insertion.sort twoMessages (Some "r1"))
    as (w' & H1 & _ & H2 & _).
  - exact insertion_sort_spec.
  - reflexivity.
  - reflexivity.
  - intros k. reflexivity.
  - exists w'. split; [exact H1|exact H2].
Defined.

(** ** The connection pool *)


(** ** The same query in the several generations *)

Lemma range_ext {A St : Type} (f g : St → A → res St) (l : list A) :
  (∀ s a, f s a = g s a) → ∀ s, range f s l = range g s l.
Proof.
  intros H. induction l as [|a l IH]; intros s; [done|].
  cbn [range]. rewrite H. destruct (g s a); [apply IH|done..].
Qed.

(** The length test of part_003 on the stored bytes is subsumed by the
    decoder: empty bytes are no JSON text. *)
Lemma overlay_same (db : Database) (prefix : string) (canvas : list (list string))
    (key : string) :
  Part003.overlay db prefix canvas key = Part002.overlay db prefix canvas key.
Proof.
  unfold Part003.overlay, Part002.overlay. rewrite Nat.ltb_antisym.
  destruct (String.length key <=? String.length prefix)%nat; [done|]. cbn [negb].
  destruct (Fmt.Sscanf_d_colon_d _) as [[x y]|]; [|done].
  destruct (inBounds x y); [|done].
  destruct (DB.Get db key) as [d| |]; [|done..].
  destruct d as [j|[|a raw]]; done.
Qed.

Lemma render_grid (db : Database) (room : string) :
  ∃ g, Grid.complete g
       ∧ (list_err (faults db) = true → g = Grid.blank)
       ∧ ∀ w, Part002.render db room w = Replied 0 200 (BodyCanvas g) w.
Proof.
  unfold Part002.render, DB.List.
  destruct (list_err (faults db)).
  - exists Grid.blank. split; [apply blank_complete|done].
  - destruct (range_overlay_complete db (Fmt.roomPrefix room)
                (DB.keys_under (Fmt.roomPrefix room) (kv db)) Grid.blank blank_complete)
      as (g & Hg & Hc).
    exists g. split; [done|]. split; [done|]. intros w.
    rewrite <- (range_ext (Part003.overlay db (Fmt.roomPrefix room))) by apply overlay_same.
    by rewrite Hg.
Qed.

Lemma getCanvas_render (w : World) (room : string) :
  open_err (faults (canvasDB w)) = false →
  Part003.getCanvas (Some room) w = Part002.render (canvasDB w) room w.
Proof.
  intros Ho. unfold Part003.getCanvas, Part002.render. rewrite Ho.
  destruct (DB.List _ _) as [keys| |]; [|done..].
  by rewrite (range_ext _ _ _ (overlay_same (canvasDB w) (Fmt.roomPrefix room))).
Qed.

(** X8. The three generations of getCanvas that check the coordinates answer
    the same grid whenever they reach the store, and it is complete. They
    part ways when the database cannot be opened: part_003 answers the
    all-background grid, part_002 answers 500, and the pooled generation
    answers 500 as long as the pool is not initialised, also when it is the
    chat database that does not open; once the pool is initialised it
    answers from the handle it holds. *)
Theorem canvas_queries_across_generations (w : World) (room : string) :
  ∃ g served,
    Grid.complete g ∧ Grid.complete served
    ∧ (open_err (faults (canvasDB w)) = false → served = g)
    ∧ (open_err (faults (canvasDB w)) = true → g = Grid.blank)
    ∧ Part003.getCanvas (Some room) w = Replied 0 200 (BodyCanvas g) w
    ∧ Part002.getCanvas (Some room) w
      = (if open_err (faults (canvasDB w))
         then Replied 1 500 (BodyText Common.sdkErrorText) w
         else Replied 0 200 (BodyCanvas g) w)
    ∧ Part007.getCanvas (Some room) w
      = (if dbInit w then Replied 0 200 (BodyCanvas served) w
         else if open_err (faults (canvasDB w)) || open_err (faults (chatDB w))
         then Replied 1 500 (BodyText "database connection failed") w
         else Replied 0 200 (BodyCanvas g) (mkWorld (canvasDB w) (chatDB w) true)).
Proof.
  destruct (render_grid (canvasDB w) room) as (served & Hc & _ & Hr).
  assert (H7 : Part007.getCanvas (Some room) w
               = (if dbInit w then Replied 0 200 (BodyCanvas served) w
                  else if open_err (faults (canvasDB w)) || open_err (faults (chatDB w))
                  then Replied 1 500 (BodyText "database connection failed") w
                  else Replied 0 200 (BodyCanvas served)
                         (mkWorld (canvasDB w) (chatDB w) true))).
  { unfold Part007.getCanvas, Pool.getCanvasDB, Pool.getDB, Pool.initDatabases.
    cbn [Utils.getRoomParamRequired].
    destruct w as [c ch [|]]; cbn [dbInit canvasDB chatDB negb] in *.
    - cbn. apply Hr.
    - destruct (open_err (faults c)); [done|].
      destruct (open_err (faults ch)); [done|]. cbn. apply Hr. }
  destruct (open_err (faults (canvasDB w))) eqn:Ho.
  - exists Grid.blank, served.
    split; [apply blank_complete|]. split; [done|]. split; [done|]. split; [done|].
    split; [unfold Part003.getCanvas; by rewrite Ho|].
    split; [unfold Part002.getCanvas; cbn [Utils.getRoomParamRequired]; by rewrite Ho|].
    rewrite H7. by destruct (dbInit w).
  - exists served, served.
    split; [done|]. split; [done|]. split; [done|]. split; [done|].
    split; [by rewrite getCanvas_render, Hr|].
    split; [unfold Part002.getCanvas; cbn [Utils.getRoomParamRequired];
            by rewrite Ho, Hr|].
    exact H7.
Qed.

(** X9. The chat query likewise. src/backend.go, part_002 and the pooled
    part_005 run the same loop; part_003, which tests the stored bytes for
    emptiness first, collects the same records. On a database that does not
    open, part_003 answers an empty list, the others 500; the pooled one
    answers 500 while the pool is not initialised and either database fails
    to open. *)
Theorem chat_queries_across_generations
    (sort_Slice : (ChatMessage → ChatMessage → bool) → list ChatMessage → list ChatMessage)
    (w : World) (room : string) :
  let db := chatDB w in
  let msgs :=
    sort_Slice BackendGo.less
      (match DB.List db (Fmt.roomPrefix room) with
       | Ok keys => foldl (BackendGo.collect db (Fmt.roomPrefix room)) [] keys
       | _ => []
       end) in
  BackendGo.getMessages sort_Slice (Some room) w
  = (if open_err (faults db) then Replied 1 500 (BodyText Common.sdkErrorText) w
     else Replied 0 200 (BodyMessages msgs) w)
  ∧ Part002.getMessages sort_Slice (Some room) w
    = BackendGo.getMessages sort_Slice (Some room) w
  ∧ Part003.getMessages sort_Slice (Some room) w
    = (if open_err (faults db) || list_err (faults db)
       then Replied 0 200 (BodyMessages []) w
       else Replied 0 200 (BodyMessages msgs) w)
  ∧ Part005.getMessages sort_Slice (Some room) w
    = (if dbInit w then Replied 0 200 (BodyMessages msgs) w
       else if open_err (faults (canvasDB w)) || open_err (faults db)
       then Replied 1 500 (BodyText "database connection failed") w
       else Replied 0 200 (BodyMessages msgs) (mkWorld (canvasDB w) db true)).
Proof.
  intros db msgs. subst db msgs. split; [|split; [|split]].
  - unfold BackendGo.getMessages, BackendGo.handleHTTPError.
    by destruct (open_err (faults (chatDB w))).
  - reflexivity.
  - unfold Part003.getMessages, DB.List.
    destruct (open_err (faults (chatDB w))); [done|].
    destruct (list_err (faults (chatDB w))); [done|]. cbn [orb].
    by rewrite foldl_collect_same.
  - unfold Part005.getMessages, Pool.getChatDB, Pool.getDB, Pool.initDatabases.
    cbn [Utils.getRoomParamRequired].
    destruct w as [c ch [|]]; cbn [dbInit canvasDB chatDB negb]; [done|].
    destruct (open_err (faults c)); [done|].
    by destruct (open_err (faults ch)).
Qed.

(** ** When src/backend.go's canvas query stops *)

Lemma set_out_of_bounds (g : list (list string)) (x y : Z) (c : string) :
  Grid.complete g → inBounds x y = false → Grid.set g x y c = Panic.
Proof.
  intros [Hlen Hrows] Hb. unfold Grid.set.
  destruct ((0 <=? y) && (y <? Z.of_nat (length g)))%Z eqn:Hy; [|done].
  apply andb_true_iff in Hy as [Hy1 Hy2]. apply Z.leb_le in Hy1. apply Z.ltb_lt in Hy2.
  destruct (g !! Z.to_nat y) as [row|] eqn:Hrow; [|done].
  assert (Hr : length row = Z.to_nat CanvasWidth).
  { rewrite Forall_forall in Hrows. apply Hrows.
    by apply list_elem_of_lookup_2 in Hrow. }
  destruct ((0 <=? x) && (x <? Z.of_nat (length row)))%Z eqn:Hx; [|done].
  apply andb_true_iff in Hx as [Hx1 Hx2]. apply Z.leb_le in Hx1. apply Z.ltb_lt in Hx2.
  exfalso. apply not_true_iff_false in Hb. apply Hb. apply inBounds_spec.
  rewrite Hr in Hx2. rewrite Hlen in Hy2.
  unfold CanvasWidth, CanvasHeight in *. lia.
Qed.

Lemma overlay_backend_cases (db : Database) (prefix : string)
    (canvas : list (list string)) (key : string) :
  Grid.complete canvas →
  (offending db prefix key ∧ BackendGo.overlay db prefix canvas key = Panic)
  ∨ (¬ offending db prefix key
     ∧ BackendGo.overlay db prefix canvas key = Part002.overlay db prefix canvas key).
Proof.
  intros Hc. unfold offending, BackendGo.overlay, Part002.overlay.
  destruct (String.length prefix <? String.length key)%nat eqn:Hlen.
  2:{ right. split; [|done]. apply Nat.ltb_ge in Hlen. intros [? _]. lia. }
  apply Nat.ltb_lt in Hlen.
  destruct (Fmt.Sscanf_d_colon_d _) as [[x y]|] eqn:Hs.
  2:{ right. split; [|done]. by intros (_ & ? & ? & ? & ? & ? & _). }
  destruct (inBounds x y) eqn:Hb.
  { right. split; [|done].
    intros (_ & x' & y' & ? & ? & [= <- <-] & Hb' & _). by rewrite Hb in Hb'. }
  destruct (DB.Get db key) as [d| |] eqn:Hg.
  2,3: right; split; [|done]; by intros (_ & ? & ? & ? & ? & _ & _ & ? & _).
  destruct (JSON.Unmarshal_Pixel d) as [p| |] eqn:Hu.
  2,3: right; split; [|done];
       intros (_ & ? & ? & ? & ? & _ & _ & [= <-] & Hu'); by rewrite Hu in Hu'.
  left. split; [|by apply set_out_of_bounds].
  split; [done|]. by exists x, y, d, p.
Qed.

Lemma range_backend_cases (db : Database) (prefix : string) (keys : list string) :
  ∀ canvas,
    Grid.complete canvas →
    (Exists (offending db prefix) keys
     ∧ range (BackendGo.overlay db prefix) canvas keys = Panic)
    ∨ (¬ Exists (offending db prefix) keys
       ∧ range (BackendGo.overlay db prefix) canvas keys
         = range (Part002.overlay db prefix) canvas keys).
Proof.
  induction keys as [|key keys IH]; intros canvas Hc.
  - right. split; [by intros ?%Exists_nil|done].
  - cbn [range].
    destruct (overlay_backend_cases db prefix canvas key Hc) as [[Ho ->]|[Hn ->]].
    + left. split; [by left|done].
    + destruct (overlay_complete db prefix canvas key Hc) as (g' & Hg' & Hc').
      rewrite overlay_same in Hg'. rewrite Hg'.
      change (mbind ?f (Ok ?a)) with (f a). cbv beta.
      destruct (IH g' Hc') as [[He ->]|[Hne ->]].
      * left. split; [by right|done].
      * right. split; [|done]. by intros [?|?]%Exists_cons.
Qed.

(** X10. src/backend.go's canvas query, which indexes the grid without checking
    the coordinates, stops the process exactly when the database opens and
    lists and some key under the room's prefix scans as coordinates outside
    the canvas and holds a record that reads and decodes. In every other
    case its answer is that of the generation with the check. *)
Theorem backend_go_canvas_query_stops_iff (w : World) (room : string) :
  let db := canvasDB w in
  let roomPrefix := Fmt.roomPrefix room in
  (BackendGo.getCanvas (Some room) w = ReplyCrashed
   ↔ open_err (faults db) = false
     ∧ list_err (faults db) = false
     ∧ ∃ key, key ∈ DB.keys_under roomPrefix (kv db) ∧ offending db roomPrefix key)
  ∧ (BackendGo.getCanvas (Some room) w ≠ ReplyCrashed →
     BackendGo.getCanvas (Some room) w = Part002.getCanvas (Some room) w).
Proof.
  intros db roomPrefix. subst db roomPrefix.
  unfold BackendGo.getCanvas, Part002.getCanvas, Part002.render,
    BackendGo.handleHTTPError, Utils.handleHTTPError, DB.List.
  cbn [Utils.getRoomParamRequired].
  destruct (open_err (faults (canvasDB w))) eqn:Ho.
  { split; [|done]. split; [done|]. by intros [? _]. }
  destruct (list_err (faults (canvasDB w))) eqn:Hl.
  { split; [|done]. split; [done|]. by intros (_ & ? & _). }
  set (keys := DB.keys_under (Fmt.roomPrefix room) (kv (canvasDB w))).
  destruct (range_backend_cases (canvasDB w) (Fmt.roomPrefix room) keys
              Grid.blank blank_complete) as [[He ->]|[Hne ->]].
  - split; [|done]. split; [|done]. intros _. split; [done|]. split; [done|].
    by apply Exists_exists in He.
  - destruct (range_overlay_complete (canvasDB w) (Fmt.roomPrefix room) keys
                Grid.blank blank_complete) as (g & Hg & _).
    rewrite (range_ext _ _ _ (overlay_same (canvasDB w) (Fmt.roomPrefix room))) in Hg.
    rewrite Hg. split; [|done]. split; [done|].
    intros (_ & _ & He). exfalso. apply Hne. by apply Exists_exists.
Qed.

Example backend_go_canvas_query_stops_on_stray_key :
  offending (canvasDB strayKey) (Fmt.roomPrefix "r1") "/r1/100:5"
  ∧ BackendGo.getCanvas (Some "r1") strayKey = ReplyCrashed
  ∧ Part002.getCanvas (Some "r1") strayKey
    = Replied 0 200 (BodyCanvas Grid.blank) strayKey.
Proof.
  split; [|split; vm_compute; reflexivity].
  split; [vm_compute; lia|].
  by exists 100%Z, 5%Z, (JSON.Marshal_Pixel (mkPixel 100 5 "#ff0000" "u1" "alice")),
    (mkPixel 100 5 "#ff0000" "u1" "alice").
Qed.

(** ** What the binary decoders return on any buffer *)







(** ** One chat payload, two generations *)

Lemma names_disjoint (k tag tag' : string) :
  JSON.names k tag = true →
  JSON.names tag tag' = false →
  JSON.names k tag' = false.
Proof.
  unfold JSON.names. intros H%String.eqb_eq. by rewrite H.
Qed.

Lemma ChatMessage_field_other (m : ChatMessage) (k : string) (v : json) :
  JSON.names k "room" = true ∨ JSON.names k "sourceId" = true →
  JSON.ChatMessage_field m k v = Ok m.
Proof.
  intros Hk. unfold JSON.ChatMessage_field.
  destruct Hk as [Hk|Hk];
    by rewrite !(names_disjoint k _ _ Hk) by reflexivity.
Qed.

Lemma members_envelope_message (ms : list (string * json)) :
  ∀ e e', JSON.members JSON.ChatEnvelope_field e ms = Ok e' →
          JSON.members JSON.ChatMessage_field (JSON.Msg e) ms = Ok (JSON.Msg e').
Proof.
  induction ms as [|[k v] ms IH]; intros e e'; [by intros [= <-]|].
  cbn [JSON.members]. intros (e1 & H1 & H2)%bind_Ok_inv.
  assert (Hf : JSON.ChatMessage_field (JSON.Msg e) k v = Ok (JSON.Msg e1)).
  { revert H1. unfold JSON.ChatEnvelope_field.
    destruct (JSON.names k "room") eqn:Hr.
    { intros (s & _ & [= <-])%bind_Ok_inv. apply ChatMessage_field_other. by left. }
    destruct (JSON.names k "sourceId") eqn:Hs.
    { intros (s & _ & [= <-])%bind_Ok_inv. apply ChatMessage_field_other. by right. }
    by intros (m & Hm & [= <-])%bind_Ok_inv. }
  rewrite Hf. change (mbind ?f (Ok ?a)) with (f a). cbv beta. by apply IH.
Qed.

(** Whatever decodes as the envelope decodes as a bare message, to the
    message of the envelope: [room] and [sourceId] are members the bare
    decoder does not know and skips. *)
Lemma Unmarshal_envelope_message (data : doc) (e : JSON.ChatEnvelope) :
  JSON.Unmarshal_ChatEnvelope data = Ok e →
  JSON.Unmarshal_ChatMessage data = Ok (JSON.Msg e).
Proof.
  destruct data as [v|]; [|done]. destruct v; try done.
  - by intros [= <-].
  - apply (members_envelope_message _ JSON.zeroChatEnvelope).
Qed.

(** X13. The generation whose onChatMessages decodes a bare message accepts
    every payload the envelope generations accept, and stores the same
    record, but always in room "default": the room the payload names is
    dropped. The pooled envelope generation stores it in the room named. *)
Theorem bare_chat_handler_drops_the_room (data : doc) (e : JSON.ChatEnvelope) (w : World) :
  JSON.Unmarshal_ChatEnvelope data = Ok e →
  dbInit w = true →
  let stored := JSON.Marshal_ChatMessage (JSON.Msg e) in
  let id := ID (JSON.Msg e) in
  Part000_JsonArray.onChatMessages data w
  = Done 0 (Common.withChat w (DB.Put (chatDB w) (Fmt.chatKey "default" id) stored).1)
  ∧ Part000_Compressed.onChatMessages data w
    = Done 0 (Common.withChat w
                (DB.Put (chatDB w) (Fmt.chatKey (effectiveRoom (JSON.MsgRoom e)) id)
                   stored).1)
  ∧ Part004.onChatMessages data w = Part000_Compressed.onChatMessages data w.
Proof.
  intros Hd Hi stored id. subst stored id. split; [|split; [|done]].
  - unfold Part000_JsonArray.onChatMessages.
    rewrite (Unmarshal_envelope_message data e Hd).
    unfold Pool.getChatDB, Pool.getDB. by rewrite Hi.
  - unfold Part000_Compressed.onChatMessages. rewrite Hd.
    unfold Pool.getChatDB, Pool.getDB. by rewrite Hi.
Qed.

Lemma bare_chat_handler_drops_the_room_witness :
  ∃ w1 w2,
    Part000_JsonArray.onChatMessages (chatAt "m1" 1700000000) pooledWorld = Done 0 w1
    ∧ Part000_Compressed.onChatMessages (chatAt "m1" 1700000000) pooledWorld = Done 0 w2
    ∧ is_Some (kv (chatDB w1) !! "/default/m1")
    ∧ is_Some (kv (chatDB w2) !! "/r1/m1").
Proof.
  destruct (bare_chat_handler_drops_the_room (chatAt "m1" 1700000000)
              (JSON.mkChatEnvelope (mkChatMessage "m1" "u1" "alice" "hello" 1700000000)
                 "r1" "")
              pooledWorld eq_refl eq_refl) as (H1 & H2 & _).
  eexists _, _. split; [exact H1|]. split; [exact H2|].
  split; vm_compute; by eexists.
Defined.

(** ** The array-first handler and the batch handler *)

Lemma batch_is_no_array (data : doc) (b : JSON.PixelBatch) :
  JSON.Unmarshal_PixelBatch data = Ok b →
  JSON.Unmarshal_Pixels data = Ok [] ∨ JSON.Unmarshal_Pixels data = Fail.
Proof.
  destruct data as [v|]; [|done]. destruct v; try done; intros _; [by left|by right].
Qed.

Lemma array_is_no_batch (data : doc) (p : Pixel) (ps : list Pixel) :
  JSON.Unmarshal_Pixels data = Ok (p :: ps) → JSON.Unmarshal_PixelBatch data = Fail.
Proof. destruct data as [v|]; [|done]. by destruct v. Qed.

(** X14. The handler that tries a bare array first is an extension of the batch
    handler: every payload that part_003's onPixelUpdate accepts, it
    accepts through the pool, and the canvas store afterwards is the same.
    What it accepts besides is the non-empty bare array, which the batch
    handler refuses, and whose pixels go to room "default". *)
Theorem array_first_handler_extends_batch_handler (data : doc) (w w' : World) :
  Part003.onPixelUpdate data w = Done 0 w' →
  open_err (faults (chatDB w)) = false →
  Part000_JsonArray.onPixelUpdate data w
  = Done 0 (mkWorld (canvasDB w') (chatDB w') true)
  ∧ ∀ array p ps,
      JSON.Unmarshal_Pixels array = Ok (p :: ps) →
      Part003.onPixelUpdate array w = Done 1 w
      ∧ Part000_JsonArray.decode array = Ok (p :: ps, "default").
Proof.
  intros H3 Hch. split.
  - revert H3. unfold Part003.onPixelUpdate.
    destruct (JSON.Unmarshal_PixelBatch data) as [b| |] eqn:Hb; [|done..].
    destruct (open_err (faults (canvasDB w))) eqn:Ho; [done|].
    intros [= <-]. cbn [canvasDB chatDB Common.withCanvas].
    rewrite savePixelChecked_valid.
    assert (Hd : Part000_JsonArray.decode data
                 = Ok (JSON.Pixels b,
                       if String.eqb (JSON.Room b) "" then "default" else JSON.Room b)).
    { unfold Part000_JsonArray.decode.
      destruct (batch_is_no_array data b Hb) as [-> | ->]; rewrite Hb;
        change (mbind ?f (Ok ?a)) with (f a); cbv beta zeta;
        by destruct (String.eqb (JSON.Room b) ""). }
    unfold Part000_JsonArray.onPixelUpdate. rewrite Hd.
    unfold Pool.getCanvasDB, Pool.getDB, Pool.initDatabases.
    destruct w as [c ch [|]]; cbn [dbInit canvasDB chatDB negb] in *; [done|].
    by rewrite Ho, Hch.
  - intros array p ps Ha. split.
    + unfold Part003.onPixelUpdate. by rewrite (array_is_no_batch array p ps Ha).
    + unfold Part000_JsonArray.decode. by rewrite Ha.
Qed.

Lemma array_first_handler_extends_batch_handler_witness :
  ∃ w',
    Part003.onPixelUpdate (asBatch sampleContent) emptyWorld = Done 0 w'
    ∧ Part000_JsonArray.onPixelUpdate (asBatch sampleContent) emptyWorld
      = Done 0 (mkWorld (canvasDB w') (chatDB w') true)
    ∧ Part003.onPixelUpdate (asArray sampleContent) emptyWorld = Done 1 emptyWorld.
Proof.
  assert (H : ∃ w', Part003.onPixelUpdate (asBatch sampleContent) emptyWorld = Done 0 w')
    by (eexists; vm_compute; reflexivity).
  destruct H as [w' H]. exists w'. split; [exact H|].
  destruct (array_first_handler_extends_batch_handler (asBatch sampleContent)
              emptyWorld w' H eq_refl) as [H1 H2].
  split; [exact H1|].
  assert (Ha : JSON.Unmarshal_Pixels (asArray sampleContent)
               = Ok [mkPixel 3 4 "#00ff00" "u1" "alice"])
    by (vm_compute; reflexivity).
  by destruct (H2 _ _ _ Ha).
Defined.

(** ** What the checked pixel handlers can write *)






(** ** The compressed-first handler and the batch handler *)

Lemma CompressedBatch_field_keeps_P (c c' : JSON.CompressedBatch) (k : string) (v : json) :
  JSON.names k "p" = false →
  JSON.CompressedBatch_field c k v = Ok c' → JSON.P c' = JSON.P c.
Proof.
  intros Hk. unfold JSON.CompressedBatch_field. rewrite Hk.
  repeat case_match; try (by intros [= <-]);
    by intros (s & _ & [= <-])%bind_Ok_inv.
Qed.

Lemma members_compressed_keep_P (ms : list (string * json)) :
  forallb (λ m, negb (JSON.names m.1 "p")) ms = true →
  ∀ c c', JSON.members JSON.CompressedBatch_field c ms = Ok c' → JSON.P c' = JSON.P c.
Proof.
  induction ms as [|[k v] ms IH]; intros Hms c c'; [by intros [= <-]|].
  cbn [forallb fst] in Hms. apply andb_true_iff in Hms as [Hk Hms].
  apply negb_true_iff in Hk.
  cbn [JSON.members]. intros (c1 & H1 & H2)%bind_Ok_inv.
  rewrite (IH Hms c1 c' H2). by eapply CompressedBatch_field_keeps_P.
Qed.

(** An object without a member named [p] is read as a batch object. *)
Lemma decode_compressed_without_p (ms : list (string * json)) :
  forallb (λ m, negb (JSON.names m.1 "p")) ms = true →
  Part000_Compressed.decode (Json (JObj ms))
  = (pixelBatch ← JSON.Unmarshal_PixelBatch (Json (JObj ms));
     Ok (JSON.Pixels pixelBatch, effectiveRoom (JSON.Room pixelBatch))).
Proof.
  intros Hms. unfold Part000_Compressed.decode.
  destruct (JSON.Unmarshal_CompressedBatch (Json (JObj ms))) as [c| |] eqn:Hc; [|done..].
  apply (members_compressed_keep_P ms Hms) in Hc. cbn [JSON.P JSON.zeroCompressedBatch] in Hc.
  by rewrite Hc.
Qed.

(** X16. The handler that tries the compressed object first treats every JSON
    object without a member named [p] as part_003's batch handler does:
    when that handler accepts the payload and the chat database opens, the
    compressed-first handler of part_000 and part_004 returns 0 through the
    pool and leaves the same stores. A non-empty [p] takes precedence over
    [pixels]. *)
Theorem compressed_first_handler_extends_batch_handler
    (ms : list (string * json)) (w w' : World) :
  forallb (λ m, negb (JSON.names m.1 "p")) ms = true →
  Part003.onPixelUpdate (Json (JObj ms)) w = Done 0 w' →
  open_err (faults (chatDB w)) = false →
  Part000_Compressed.onPixelUpdate (Json (JObj ms)) w
  = Done 0 (mkWorld (canvasDB w') (chatDB w') true)
  ∧ Part004.onPixelUpdate (Json (JObj ms)) w
    = Done 0 (mkWorld (canvasDB w') (chatDB w') true).
Proof.
  intros Hms H3 Hch.
  assert (H : Part000_Compressed.onPixelUpdate (Json (JObj ms)) w
              = Done 0 (mkWorld (canvasDB w') (chatDB w') true)); [|by split].
  revert H3. unfold Part003.onPixelUpdate, Part000_Compressed.onPixelUpdate.
  rewrite decode_compressed_without_p by done.
  destruct (JSON.Unmarshal_PixelBatch (Json (JObj ms))) as [b| |]; [|done..].
  destruct (open_err (faults (canvasDB w))) eqn:Ho; [done|].
  intros [= <-]. cbn [canvasDB chatDB Common.withCanvas].
  rewrite savePixelChecked_valid.
  change (mbind ?f (Ok ?a)) with (f a). cbv beta.
  unfold Pool.getCanvasDB, Pool.getDB, Pool.initDatabases, effectiveRoom.
  destruct w as [c ch [|]]; cbn [dbInit canvasDB chatDB negb] in *; [done|].
  by rewrite Ho, Hch.
Qed.

Lemma compressed_first_handler_extends_batch_handler_witness :
  ∃ w',
    Part003.onPixelUpdate batchWithoutP emptyWorld = Done 0 w'
    ∧ Part004.onPixelUpdate batchWithoutP emptyWorld
      = Done 0 (mkWorld (canvasDB w') (chatDB w') true).
Proof.
  assert (H : ∃ w', Part003.onPixelUpdate batchWithoutP emptyWorld = Done 0 w')
    by (eexists; vm_compute; reflexivity).
  destruct H as [w' H]. exists w'. split; [exact H|].
  by destruct (compressed_first_handler_extends_batch_handler batchMembers emptyWorld w'
                 eq_refl H eq_refl) as [_ H4].
Defined.

(** A payload that carries both [p] and [pixels]: the compressed-first
    handler saves the pixel of [p], the batch handler that of [pixels]. *)
Example compressed_member_takes_precedence :
  Part000_Compressed.decode batchWithBoth
  = Ok ([mkPixel 1 2 "#111111" "" "unknown"], "default")
  ∧ Part000_JsonArray.decode batchWithBoth
    = Ok ([mkPixel 3 4 "#222222" "" ""], "r1").
Proof. split; vm_compute; reflexivity. Qed.

(** ** The framed layout is the plain layout behind a batch id *)

Lemma readPixels_shift (pre : list byte) (fuel : nat) :
  ∀ (data : list byte) (count i o : Z) (acc : list Pixel),
    (0 ≤ o)%Z →
    Part000_Binary.readPixels fuel (pre ++ data) count i (Bytes.len pre + o) acc
    = Part000_Binary.readPixels fuel data count i o acc.
Proof.
  induction fuel as [|fuel IH]; intros data count i o acc Ho;
    cbn [Part000_Binary.readPixels]; rewrite len_app;
    replace (Bytes.len pre + o + 8 <=? Bytes.len pre + Bytes.len data)%Z
      with (o + 8 <=? Bytes.len data)%Z
      by (destruct (Z.leb_spec (o + 8) (Bytes.len data));
          symmetry; [apply Z.leb_le|apply Z.leb_gt]; lia);
    [done|].
  destruct ((i <? count) && (o + 8 <=? Bytes.len data))%Z; [|done].
  rewrite le16_app_r by lia.
  replace (Bytes.len pre + o + 2)%Z with (Bytes.len pre + (o + 2))%Z by lia.
  rewrite le16_app_r by lia.
  replace (Bytes.len pre + (o + 2) + 2)%Z with (Bytes.len pre + (o + 2 + 2))%Z by lia.
  rewrite le32_app_r by lia.
  destruct (Bytes.le16 data o) as [x| |]; [|done..].
  destruct (Bytes.le16 data (o + 2)) as [y| |]; [|done..].
  destruct (Bytes.le32 data (o + 2 + 2)) as [c| |]; [|done..].
  change (mbind ?f (Ok ?a)) with (f a). cbv beta zeta.
  change (mbind ?f (Ok ?a)) with (f a). cbv beta zeta.
  change (mbind ?f (Ok ?a)) with (f a). cbv beta zeta.
  replace (Bytes.len pre + (o + 2 + 2) + 4)%Z with (Bytes.len pre + (o + 2 + 2 + 4))%Z
    by lia.
  apply IH. lia.
Qed.

(** The loop does not depend on the fuel, as long as there is enough. *)
Lemma readPixels_fuel (fuel : nat) :
  ∀ (fuel' : nat) (data : list byte) (count i o : Z) (acc : list Pixel),
    (0 ≤ o)%Z →
    (Bytes.len data - o ≤ 8 * Z.of_nat fuel)%Z →
    (Bytes.len data - o ≤ 8 * Z.of_nat fuel')%Z →
    Part000_Binary.readPixels fuel data count i o acc
    = Part000_Binary.readPixels fuel' data count i o acc.
Proof.
  induction fuel as [|fuel IH]; intros fuel' data count i o acc Ho Hf Hf'.
  - destruct fuel'; cbn [Part000_Binary.readPixels];
      destruct ((i <? count) && (o + 8 <=? Bytes.len data))%Z eqn:Hc; try done;
      apply andb_true_iff in Hc as [_ Hc]; apply Z.leb_le in Hc; lia.
  - destruct fuel' as [|fuel']; cbn [Part000_Binary.readPixels];
      destruct ((i <? count) && (o + 8 <=? Bytes.len data))%Z eqn:Hc; try done.
    { apply andb_true_iff in Hc as [_ Hc]. apply Z.leb_le in Hc. lia. }
    destruct (Bytes.le16 data o) as [x| |]; [|done..].
    destruct (Bytes.le16 data (o + 2)) as [y| |]; [|done..].
    destruct (Bytes.le32 data (o + 2 + 2)) as [c| |]; [|done..].
    change (mbind ?f (Ok ?a)) with (f a). cbv beta zeta.
    change (mbind ?f (Ok ?a)) with (f a). cbv beta zeta.
    change (mbind ?f (Ok ?a)) with (f a). cbv beta zeta.
    apply IH; lia.
Qed.

Lemma decode_framed_plain (batchId data : list byte) :
  (Z.of_nat (length batchId) < 2 ^ 32)%Z →
  Part001.decode (Wire.uint32 (Z.of_nat (length batchId)) ++ batchId ++ data)
  = Part000_Binary.decode data.
Proof.
  intros Hid. set (n := Z.of_nat (length batchId)).
  set (pre := Wire.uint32 n ++ batchId).
  assert (Hpre : Bytes.len pre = (4 + n)%Z).
  { subst pre. rewrite len_app. by change (Bytes.len (Wire.uint32 n)) with 4%Z. }
  unfold Part001.decode, Part000_Binary.decode.
  rewrite (app_assoc (Wire.uint32 n) batchId data). fold pre.
  pose proof (len_nonneg data) as Hd.
  replace (4 <=? Bytes.len (pre ++ data))%Z with true
    by (symmetry; apply Z.leb_le; rewrite len_app; lia).
  assert (Hn : Bytes.le32 (pre ++ data) 0 = Ok n).
  { subst pre. rewrite <- app_assoc. apply le32_uint32. lia. }
  rewrite Hn. change (mbind ?f (Ok ?a)) with (f a). cbv beta zeta.
  replace (4 + n <=? Bytes.len (pre ++ data))%Z with true
    by (symmetry; apply Z.leb_le; rewrite len_app; lia).
  replace (4 + n + 4 <=? Bytes.len (pre ++ data))%Z with (4 <=? Bytes.len data)%Z
    by (rewrite len_app, Hpre;
        destruct (Z.leb_spec 4 (Bytes.len data));
        symmetry; [apply Z.leb_le|apply Z.leb_gt]; lia).
  destruct (4 <=? Bytes.len data)%Z eqn:Hlen; [|done].
  rewrite <- Hpre. rewrite <- (Z.add_0_r (Bytes.len pre)) at 1.
  rewrite le32_app_r by lia.
  destruct (Bytes.le32 data 0) as [count| |]; [|done..].
  change (mbind ?f (Ok ?a)) with (f a). cbv beta zeta.
  rewrite readPixels_shift by lia.
  rewrite (readPixels_fuel (length (pre ++ data)) (length data)); [done|lia|..].
  - rewrite length_app. unfold Bytes.len. lia.
  - unfold Bytes.len. lia.
Qed.

(** X17. The framed decoder of part_001 reads a length-prefixed batch id and
    then does what the plain decoder of part_000 does on the rest: for
    every batch id shorter than 2^32 bytes and every buffer, decoding the
    length, the id and the buffer gives what the plain decoder gives on the
    buffer alone. The content of the batch id plays no part. With the pool
    initialised the two handlers leave the same process behind and return
    the same status. *)
Theorem framed_is_plain_behind_batch_id (batchId data : list byte) :
  (Z.of_nat (length batchId) < 2 ^ 32)%Z →
  let framed := Wire.uint32 (Z.of_nat (length batchId)) ++ batchId ++ data in
  Part001.decode framed = Part000_Binary.decode data
  ∧ ∀ w, dbInit w = true →
         Part001.onPixelUpdate framed w = Part000_Binary.onPixelUpdate data w.
Proof.
  intros Hid framed. subst framed. split; [by apply decode_framed_plain|].
  intros w Hw. unfold Part001.onPixelUpdate, Part000_Binary.onPixelUpdate.
  rewrite decode_framed_plain by done.
  destruct (Part000_Binary.decode data) as [[pixels room]| |]; [|done..].
  unfold Part001.savePixelsTask, Pool.getCanvasDB, Pool.getDB. by rewrite Hw.
Qed.

Lemma framed_is_plain_behind_batch_id_witness :
  Part001.decode (Wire.uint32 2 ++ [Byte.x62; Byte.x31] ++ shortBatch)
  = Part000_Binary.decode shortBatch.
Proof.
  apply (framed_is_plain_behind_batch_id [Byte.x62; Byte.x31] shortBatch).
  simpl. lia.
Defined.

(** ** src/backend.go: a chat message, posted and queried *)

Lemma chatKeyByTime_unfold (room : string) (ts : Z) :
  Fmt.chatKeyByTime room ts = Fmt.roomPrefix room +:+ Fmt.d ts.
Proof.
  unfold Fmt.chatKeyByTime, Fmt.roomPrefix.
  by rewrite !app_String, !app_empty_l, !app_assoc_s.
Qed.

Lemma d_not_empty (z : Z) : (0 < String.length (Fmt.d z))%nat.
Proof.
  destruct z as [|p|p]; cbn [Fmt.d]; [simpl; lia| |simpl; lia].
  unfold Fmt.dec_N.
  destruct (dec_digits_head (N.to_nat (N.log2 (Npos p))) (Npos p) EmptyString)
    as (d & s & _ & ->).
  simpl. lia.
Qed.

(** X18. In src/backend.go a chat message is filed under its timestamp. When
    no record of the room carries that timestamp yet, the room's query
    afterwards returns what it returned before and the message, sorted by
    timestamp, whatever the messageId is, the empty one included. *)
Theorem backend_go_posted_message_is_returned
    (sort_Slice : (ChatMessage → ChatMessage → bool) → list ChatMessage → list ChatMessage)
    (data : doc) (e : JSON.ChatEnvelope) (w : World) :
  SortSliceSpec sort_Slice →
  JSON.Unmarshal_ChatEnvelope data = Ok e →
  let room := effectiveRoom (JSON.MsgRoom e) in
  let key := Fmt.chatKeyByTime room (Timestamp (JSON.Msg e)) in
  open_err (faults (chatDB w)) = false →
  list_err (faults (chatDB w)) = false →
  put_err (faults (chatDB w)) key = false →
  get_err (faults (chatDB w)) key = false →
  kv (chatDB w) !! key = None →
  ∃ w' before after,
    BackendGo.onChatMessages data w = Done 0 w'
    ∧ BackendGo.getMessages sort_Slice (Some room) w
      = Replied 0 200 (BodyMessages before) w
    ∧ BackendGo.getMessages sort_Slice (Some room) w'
      = Replied 0 200 (BodyMessages after) w'
    ∧ after ≡ₚ JSON.Msg e :: before
    ∧ Sorted (λ a b, (Timestamp a ≤ Timestamp b)%Z) after.
Proof.
  intros Hsort Hd room key Ho Hl Hput Hget Hfree.
  set (m := JSON.Msg e).
  set (db' := mkDatabase (<[key := JSON.Marshal_ChatMessage m]> (kv (chatDB w)))
                (faults (chatDB w))).
  assert (Hpost : BackendGo.onChatMessages data w = Done 0 (Common.withChat w db')).
  { unfold BackendGo.onChatMessages. rewrite Hd, Ho.
    fold (effectiveRoom (JSON.MsgRoom e)). fold room. fold key.
    unfold DB.Put. by rewrite Hput. }
  assert (Hq : ∀ w0, open_err (faults (chatDB w0)) = false →
                     list_err (faults (chatDB w0)) = false →
                     BackendGo.getMessages sort_Slice (Some room) w0
                     = Part003.getMessages sort_Slice (Some room) w0).
  { intros w0 Ho0 Hl0.
    unfold BackendGo.getMessages, Part003.getMessages, DB.List.
    rewrite Ho0, Hl0. by rewrite foldl_collect_same. }
  destruct (chat_room_query sort_Slice w room Hsort Ho Hl) as (before & Hb & Hpb & _).
  destruct (chat_room_query sort_Slice (Common.withChat w db') room Hsort Ho Hl)
    as (after & Ha & Hpa & Hsa).
  exists (Common.withChat w db'), before, after.
  split; [exact Hpost|].
  split; [by rewrite Hq|]. split; [by rewrite Hq|].
  split; [|exact Hsa].
  rewrite Hpa, Hpb. cbn [chatDB Common.withChat]. subst db'.
  apply archive_insert_fresh; [done| | |done|].
  - subst key. rewrite chatKeyByTime_unfold. apply has_prefix_app.
  - subst key. rewrite chatKeyByTime_unfold, length_app_s.
    pose proof (d_not_empty (Timestamp (JSON.Msg e))). lia.
  - by apply (Unmarshal_ChatEnvelope_fits data).
Qed.

Lemma backend_go_posted_message_is_returned_witness :
  ∃ w' after,
    BackendGo.onChatMessages emptyIdMessage emptyWorld = Done 0 w'
    ∧ BackendGo.getMessages Insertion.sort (Some "r1") w'
      = Replied 0 200 (BodyMessages after) w'
    ∧ after ≡ₚ [mkChatMessage "" "u1" "alice" "hello" 5].
Proof.
  destruct (backend_go_posted_message_is_returned Insertion.sort emptyIdMessage
              (JSON.mkChatEnvelope (mkChatMessage "" "u1" "alice" "hello" 5) "r1" "")
              emptyWorld)
    as (w' & before & after & H1 & H2 & H3 & H4 & _).
  - exact insertion_sort_spec.
  - reflexivity.
  - reflexivity.
  - reflexivity.
  - reflexivity.
  - reflexivity.
  - reflexivity.
  - exists w', after. split; [exact H1|]. split; [exact H3|].
    injection H2 as <-. exact H4.
Defined.
